(** * The session and signaling relay of backend/src/api/websocket.py

    A shallow embedding of the WebSocket relay: the two process-wide
    dictionaries [active_connections] and [chat_messages], the three
    SQLAlchemy tables the handlers read and write, and every handler of
    the module, written in a small task monad whose constructors keep the
    suspension points ([await] on the database and on the next inbound
    frame) apart from the code that runs between them. *)

From Stdlib Require Import String List Bool Arith ZArith Lia.
Import ListNotations.
Open Scope string_scope.
Set Warnings "-register-all".

(** ** Python values *)

(** What [json.loads] yields, and what [send_json] serialises. *)
Inductive Json : Type :=
| JNull
| JBool (b : bool)
| JNum (n : Z)
| JStr (s : string)
| JArr (items : list Json)
| JObj (fields : list (string * Json)).

(** Python truthiness ([if not x]). *)
Definition truthy (j : Json) : bool :=
  match j with
  | JNull => false
  | JBool b => b
  | JNum n => negb (n =? 0)%Z
  | JStr s => negb (s =? "")
  | JArr items => match items with [] => false | _ => true end
  | JObj fields => match fields with [] => false | _ => true end
  end.

(** [x == "literal"] for a value that came out of a message. *)
Definition json_is_str (j : Json) (s : string) : bool :=
  match j with
  | JStr s' => s' =? s
  | _ => false
  end.

(** Lists and dicts are unhashable: using one as a dictionary key raises. *)
Definition hashable (j : Json) : bool :=
  match j with
  | JArr _ | JObj _ => false
  | _ => true
  end.

(** ** Insertion-ordered dictionaries with string keys *)

Definition PyDict (V : Type) : Type := list (string * V).

Fixpoint dict_get {V} (k : string) (d : PyDict V) : option V :=
  match d with
  | [] => None
  | (k', v) :: d' => if k =? k' then Some v else dict_get k d'
  end.

Definition dict_mem {V} (k : string) (d : PyDict V) : bool :=
  match dict_get k d with Some _ => true | None => false end.

(** [d[k] = v]: an existing key keeps its position, a new one goes last. *)
Fixpoint dict_set {V} (k : string) (v : V) (d : PyDict V) : PyDict V :=
  match d with
  | [] => [(k, v)]
  | (k', v') :: d' =>
      if k =? k' then (k, v) :: d' else (k', v') :: dict_set k v d'
  end.

(** [d.pop(k, None)]. *)
Definition dict_pop {V} (k : string) (d : PyDict V) : PyDict V :=
  filter (fun kv => negb (k =? fst kv)) d.

Definition dict_keys {V} (d : PyDict V) : list string := map fst d.

(** Keys of a dictionary are pairwise distinct. *)
Definition dict_wf {V} (d : PyDict V) : Prop := NoDup (dict_keys d).

(** [message.get(key)] and [message.get(key, default)]. *)
Definition get_or (key : string) (default : Json) (fields : PyDict Json) : Json :=
  match dict_get key fields with Some v => v | None => default end.

(** ** src/core/schemas.py: WSMessageType *)

Module WSMessageType.
Definition JOIN := "join".
Definition LEAVE := "leave".
Definition OFFER := "offer".
Definition ANSWER := "answer".
Definition ICE_CANDIDATE := "ice-candidate".
Definition USER_JOINED := "user-joined".
Definition USER_LEFT := "user-left".
Definition PARTICIPANTS_UPDATE := "participants-update".
Definition AUDIO_TOGGLE := "audio-toggle".
Definition VIDEO_TOGGLE := "video-toggle".
Definition SCREEN_SHARE_START := "screen-share-start".
Definition SCREEN_SHARE_STOP := "screen-share-stop".
Definition CHAT_MESSAGE := "chat-message".
Definition CHAT_HISTORY := "chat-history".
End WSMessageType.

(** ** src/db/models.py *)

Record Meeting : Type := mkMeeting {
  meeting_id_of : nat;
  meeting_code_of : string
}.

Record Participant : Type := mkParticipant {
  p_id : nat;
  p_meeting_id : nat;
  p_client_id : string;
  p_display_name : Json;
  p_ip_address : option string;
  p_user_agent : string;
  p_left_at : option string;
  p_is_active : bool;
  p_is_host : bool;
  p_audio_enabled : Json;
  p_video_enabled : Json;
  p_screen_sharing : Json
}.

Record MeetingLog : Type := mkMeetingLog {
  l_meeting_id : nat;
  l_participant_id : option nat;
  l_event_type : string;
  l_event_data : Json;
  l_ip_address : option string
}.

Record Database : Type := mkDatabase {
  meetings : list Meeting;
  participants : list Participant;
  meeting_logs : list MeetingLog;
  next_uuid : nat
}.

(** ** The world the relay runs in *)

(** A connection handle is an opaque send capability. *)
Definition WebSocket : Type := nat.

Inductive Level : Type := INFO | WARNING | ERROR.

Record World : Type := mkWorld {
  (** [active_connections]: meeting code -> client id -> handle *)
  active_connections : PyDict (PyDict WebSocket);
  (** [chat_messages]: meeting code -> chat events *)
  chat_messages : PyDict (list Json);
  (** committed contents of the relational store *)
  db : Database;
  (** outcome of each coming awaited database call; [false] raises, and
      an exhausted script means the call succeeds *)
  db_script : list bool;
  (** handles on which [send_json] raises *)
  broken : list WebSocket;
  (** frames delivered so far, oldest first *)
  outbox : list (WebSocket * Json);
  (** [websocket.close(code, reason)] calls so far *)
  closed : list (WebSocket * nat * string);
  (** records written through [logger] *)
  logs : list (Level * string);
  (** what [datetime.now(UTC).isoformat()] returns *)
  clock : string
}.

Definition set_connections (f : PyDict (PyDict WebSocket) -> PyDict (PyDict WebSocket))
    (w : World) : World :=
  mkWorld (f (active_connections w)) (chat_messages w) (db w) (db_script w)
    (broken w) (outbox w) (closed w) (logs w) (clock w).

Definition set_chat (f : PyDict (list Json) -> PyDict (list Json)) (w : World) : World :=
  mkWorld (active_connections w) (f (chat_messages w)) (db w) (db_script w)
    (broken w) (outbox w) (closed w) (logs w) (clock w).

Definition set_db (f : Database -> Database) (w : World) : World :=
  mkWorld (active_connections w) (chat_messages w) (f (db w)) (db_script w)
    (broken w) (outbox w) (closed w) (logs w) (clock w).

Definition set_script (s : list bool) (w : World) : World :=
  mkWorld (active_connections w) (chat_messages w) (db w) s
    (broken w) (outbox w) (closed w) (logs w) (clock w).

Definition push_outbox (ws : WebSocket) (m : Json) (w : World) : World :=
  mkWorld (active_connections w) (chat_messages w) (db w) (db_script w)
    (broken w) (outbox w ++ [(ws, m)]) (closed w) (logs w) (clock w).

Definition push_closed (ws : WebSocket) (code : nat) (reason : string) (w : World) : World :=
  mkWorld (active_connections w) (chat_messages w) (db w) (db_script w)
    (broken w) (outbox w) (closed w ++ [(ws, code, reason)]) (logs w) (clock w).

Definition push_log (lvl : Level) (msg : string) (w : World) : World :=
  mkWorld (active_connections w) (chat_messages w) (db w) (db_script w)
    (broken w) (outbox w) (closed w) (logs w ++ [(lvl, msg)]) (clock w).

Definition is_broken (w : World) (ws : WebSocket) : bool :=
  existsb (Nat.eqb ws) (broken w).

(** ** Tasks *)

Inductive Exn : Type :=
| WebSocketDisconnect
| JSONDecodeError
| AttributeError
| TypeError
| MultipleResultsFound
| DBAPIError
| SendError.

Inductive Result (A : Type) : Type :=
| Ok (a : A)
| Raise (e : Exn).
Arguments Ok {A} a.
Arguments Raise {A} e.

(** A coroutine: [Local] runs without giving up the event loop, [Await]
    is a suspension point (a call into the store, or waiting for the
    next inbound frame). *)
Inductive Task (A : Type) : Type :=
| Ret (a : A)
| Local (B : Type) (op : World -> B * World) (k : B -> Task A)
| Await (B : Type) (op : World -> B * World) (k : B -> Task A).
Arguments Ret {A} a.
Arguments Local {A B} op k.
Arguments Await {A B} op k.

Definition Prog (A : Type) : Type := Task (Result A).

Definition ret {A} (a : A) : Prog A := Ret (Ok a).
Definition raise {A} (e : Exn) : Prog A := Ret (Raise e).

Fixpoint bind {A B} (t : Prog A) (f : A -> Prog B) : Prog B :=
  match t with
  | Ret (Ok a) => f a
  | Ret (Raise e) => Ret (Raise e)
  | Local op k => Local op (fun b => bind (k b) f)
  | Await op k => Await op (fun b => bind (k b) f)
  end.

(** [try: t  except Exception as e: h e]. *)
Fixpoint try_except {A} (t : Prog A) (h : Exn -> Prog A) : Prog A :=
  match t with
  | Ret (Ok a) => Ret (Ok a)
  | Ret (Raise e) => h e
  | Local op k => Local op (fun b => try_except (k b) h)
  | Await op k => Await op (fun b => try_except (k b) h)
  end.

Declare Scope prog_scope.
Delimit Scope prog_scope with prog.
Notation "x <- c ;; k" := (bind c (fun x => k))
  (at level 61, c at next level, right associativity) : prog_scope.
Notation "c ;; k" := (bind c (fun _ => k))
  (at level 61, right associativity) : prog_scope.
Open Scope prog_scope.

(** Running a task to completion with nothing else scheduled. *)
Fixpoint run {A} (t : Task A) (w : World) : A * World :=
  match t with
  | Ret a => (a, w)
  | Local op k => let (b, w') := op w in run (k b) w'
  | Await op k => let (b, w') := op w in run (k b) w'
  end.

Definition exec {A} (t : Task A) (w : World) : World := snd (run t w).

(** ** Primitive operations *)

Definition local {A} (op : World -> Result A * World) : Prog A := Local op Ret.
Definition await {A} (op : World -> Result A * World) : Prog A := Await op Ret.

Definition logger (lvl : Level) (msg : string) : Prog unit :=
  local (fun w => (Ok tt, push_log lvl msg w)).

Definition now : Prog string :=
  local (fun w => (Ok (clock w), w)).

(** [await websocket.accept()]. *)
Definition websocket_accept (websocket : WebSocket) : Prog unit :=
  await (fun w => (Ok tt, w)).

(** [await ws.send_json(message)]: raises on a dead handle.  A send is
    not a point where another connection's task gets to run. *)
Definition send_json (ws : WebSocket) (message : Json) : Prog unit :=
  local (fun w =>
    if is_broken w ws then (Raise SendError, w)
    else (Ok tt, push_outbox ws message w)).

(** [await websocket.close(code=..., reason=...)]. *)
Definition websocket_close (ws : WebSocket) (code : nat) (reason : string) : Prog unit :=
  local (fun w => (Ok tt, push_closed ws code reason w)).

(** Every awaited call on an [AsyncSession] takes its outcome from the
    script: the store may be unreachable at any call. *)
Definition db_ok (w : World) : bool :=
  match db_script w with
  | false :: _ => false
  | _ => true
  end.

Definition db_tick (w : World) : World := set_script (tl (db_script w)) w.

Definition db_call {A} (f : World -> Result A * World) : Prog A :=
  await (fun w => if db_ok w then f (db_tick w) else (Raise DBAPIError, db_tick w)).

(** [await db.execute(select(...))], the rows in table order. *)
Definition db_execute {A} (q : Database -> A) : Prog A :=
  db_call (fun w => (Ok (q (db w)), w)).

(** [await db.commit()], flushing the pending changes [f]. *)
Definition db_commit (f : Database -> Database) : Prog unit :=
  db_call (fun w => (Ok tt, set_db f w)).

(** [await db.refresh(obj)]. *)
Definition db_refresh : Prog unit :=
  db_call (fun w => (Ok tt, w)).

(** [await db.rollback()]: pending changes were never applied. *)
Definition db_rollback : Prog unit :=
  await (fun w => (Ok tt, w)).

(** [result.scalar_one_or_none()]. *)
Definition scalar_one_or_none {A} (rows : list A) : Prog (option A) :=
  match rows with
  | [] => ret None
  | [x] => ret (Some x)
  | _ :: _ :: _ => raise MultipleResultsFound
  end.

(** *** Queries and pending changes *)

(** [select(Meeting).where(Meeting.code == meeting_code)] *)
Definition select_meeting (meeting_code : string) (d : Database) : list Meeting :=
  filter (fun m => meeting_code_of m =? meeting_code) (meetings d).

(** [select(func.count(Participant.id)).where(meeting_id == ...).where(is_active == True)] *)
Definition count_active (meeting_id : nat) (d : Database) : nat :=
  length (filter (fun p => (p_meeting_id p =? meeting_id)%nat && p_is_active p)
            (participants d)).

(** [select(Participant).where(Participant.client_id == client_id)] *)
Definition select_by_client (client_id : string) (d : Database) : list Participant :=
  filter (fun p => p_client_id p =? client_id) (participants d).

(** [select(Participant).where(meeting_id == ..., is_active == True)] *)
Definition select_active (meeting_id : nat) (d : Database) : list Participant :=
  filter (fun p => (p_meeting_id p =? meeting_id)%nat && p_is_active p)
    (participants d).

Definition add_log (entry : MeetingLog) (d : Database) : Database :=
  mkDatabase (meetings d) (participants d) (meeting_logs d ++ [entry]) (next_uuid d).

(** [db.add(Participant(...))]: the primary key is drawn at flush. *)
Definition add_participant (mk : nat -> Participant) (d : Database) : Database :=
  mkDatabase (meetings d) (participants d ++ [mk (next_uuid d)]) (meeting_logs d)
    (S (next_uuid d)).

(** The UPDATE a commit issues for a changed row, keyed by primary key. *)
Definition update_participant (id : nat) (f : Participant -> Participant)
    (d : Database) : Database :=
  mkDatabase (meetings d)
    (map (fun p => if (p_id p =? id)%nat then f p else p) (participants d))
    (meeting_logs d) (next_uuid d).

Definition with_display_name (v : Json) (p : Participant) : Participant :=
  mkParticipant (p_id p) (p_meeting_id p) (p_client_id p) v (p_ip_address p)
    (p_user_agent p) (p_left_at p) (p_is_active p) (p_is_host p)
    (p_audio_enabled p) (p_video_enabled p) (p_screen_sharing p).

Definition with_audio_enabled (v : Json) (p : Participant) : Participant :=
  mkParticipant (p_id p) (p_meeting_id p) (p_client_id p) (p_display_name p)
    (p_ip_address p) (p_user_agent p) (p_left_at p) (p_is_active p) (p_is_host p)
    v (p_video_enabled p) (p_screen_sharing p).

Definition with_video_enabled (v : Json) (p : Participant) : Participant :=
  mkParticipant (p_id p) (p_meeting_id p) (p_client_id p) (p_display_name p)
    (p_ip_address p) (p_user_agent p) (p_left_at p) (p_is_active p) (p_is_host p)
    (p_audio_enabled p) v (p_screen_sharing p).

Definition with_left (left_at : string) (p : Participant) : Participant :=
  mkParticipant (p_id p) (p_meeting_id p) (p_client_id p) (p_display_name p)
    (p_ip_address p) (p_user_agent p) (Some left_at) false (p_is_host p)
    (p_audio_enabled p) (p_video_enabled p) (p_screen_sharing p).

(** *** The two dictionaries *)

Definition get_connections : Prog (PyDict (PyDict WebSocket)) :=
  local (fun w => (Ok (active_connections w), w)).

Definition get_chat : Prog (PyDict (list Json)) :=
  local (fun w => (Ok (chat_messages w), w)).

(** [if k not in d: d[k] = empty] *)
Definition dict_init {V} (k : string) (empty : V) (d : PyDict V) : PyDict V :=
  if dict_mem k d then d else dict_set k empty d.

(** In-place mutation of the value stored under [k]. *)
Definition dict_update {V} (k : string) (f : V -> V) (d : PyDict V) : PyDict V :=
  match dict_get k d with
  | Some v => dict_set k (f v) d
  | None => d
  end.

(** [if meeting_code in active_connections:
       active_connections[meeting_code].pop(client_id, None)] *)
Definition pop_connection (meeting_code client_id : string) : Prog unit :=
  local (fun w => (Ok tt, set_connections (dict_update meeting_code (dict_pop client_id)) w)).

Definition opt_str (o : option string) : Json :=
  match o with Some s => JStr s | None => JNull end.

(** ** The handlers of websocket.py *)

Import WSMessageType.

(** [if exclude_client and client_id == exclude_client]: the default
    [None] and the empty string are both falsy. *)
Definition excluded (exclude_client : option string) (client_id : string) : bool :=
  match exclude_client with
  | Some c => negb (c =? "") && (client_id =? c)
  | None => false
  end.

(** The [for client_id, ws in connections] loop of [broadcast_to_meeting],
    over the snapshot taken before the first send. *)
Fixpoint broadcast_loop (meeting_code : string) (message : Json)
    (exclude_client : option string) (connections : list (string * WebSocket))
    : Prog unit :=
  match connections with
  | [] => ret tt
  | (client_id, ws) :: rest =>
      (if excluded exclude_client client_id then ret tt
       else
         try_except (send_json ws message)
           (fun e =>
              logger ERROR ("Error broadcasting to " ++ client_id) ;;
              pop_connection meeting_code client_id)) ;;
      broadcast_loop meeting_code message exclude_client rest
  end.

Definition broadcast_to_meeting (meeting_code : string) (message : Json)
    (exclude_client : option string) : Prog unit :=
  conns <- get_connections ;;
  match dict_get meeting_code conns with
  | None => ret tt
  | Some room => broadcast_loop meeting_code message exclude_client room
  end.

Definition leave_log (p : Participant) (client_id : string)
    (client_ip : option string) : MeetingLog :=
  mkMeetingLog (p_meeting_id p) (Some (p_id p)) "leave"
    (JObj [("client_id", JStr client_id)]) client_ip.

Definition user_left_event (client_id timestamp : string) : Json :=
  JObj [("type", JStr USER_LEFT);
        ("clientId", JStr client_id);
        ("timestamp", JStr timestamp)].

(** The [try] block of [handle_disconnect]. *)
Definition persist_leave (client_id : string) (client_ip : option string) : Prog unit :=
  rows <- db_execute (select_by_client client_id) ;;
  participant <- scalar_one_or_none rows ;;
  match participant with
  | Some p =>
      left_at <- now ;;
      db_commit (fun d =>
        add_log (leave_log p client_id client_ip)
          (update_participant (p_id p) (with_left left_at) d)) ;;
      logger INFO ("Participant " ++ client_id ++ " marked as inactive in database")
  | None => ret tt
  end.

(** Lines 410-420 of [handle_disconnect]: the registry side. *)
Definition unregister (meeting_code client_id : string) : Prog unit :=
  conns <- get_connections ;;
  if dict_mem meeting_code conns then
    pop_connection meeting_code client_id ;;
    conns' <- get_connections ;;
    match dict_get meeting_code conns' with
    | Some (_ :: _) =>
        timestamp <- now ;;
        broadcast_to_meeting meeting_code (user_left_event client_id timestamp) None
    | _ =>
        local (fun w => (Ok tt, set_connections (dict_pop meeting_code) w))
    end
  else ret tt.

Definition handle_disconnect (meeting_code client_id : string)
    (client_ip : option string) : Prog unit :=
  try_except (persist_leave client_id client_ip)
    (fun e =>
       logger ERROR "Error updating participant on disconnect" ;;
       db_rollback) ;;
  unregister meeting_code client_id ;;
  logger INFO ("Client " ++ client_id ++ " removed from " ++ meeting_code).

Definition participant_entry (p : Participant) : Json :=
  JObj [("clientId", JStr (p_client_id p));
        ("displayName", p_display_name p);
        ("audioEnabled", p_audio_enabled p);
        ("videoEnabled", p_video_enabled p);
        ("screenSharing", p_screen_sharing p)].

Definition in_list (s : string) (l : list string) : bool :=
  existsb (String.eqb s) l.

(** [active_connections.get(meeting_code, {})] *)
Definition room_of (meeting_code : string) (conns : PyDict (PyDict WebSocket))
    : PyDict WebSocket :=
  match dict_get meeting_code conns with Some room => room | None => [] end.

(** What the [for p in db_participants] loop collects. *)
Definition participants_data_of (participant_list : list string)
    (db_participants : list Participant) : list Json :=
  map participant_entry
    (filter (fun p => in_list (p_client_id p) participant_list) db_participants).

(** The fallback of the [except] branch. *)
Definition participants_data_fallback (participant_list : list string) : list Json :=
  map (fun cid => JObj [("clientId", JStr cid)]) participant_list.

Definition participants_update (participant_list : list string)
    (participants_data : list Json) : Json :=
  JObj [("type", JStr PARTICIPANTS_UPDATE);
        ("participants", JArr (map JStr participant_list));
        ("participantsData", JArr participants_data)].

Definition send_participants_update (websocket : WebSocket)
    (meeting_code : string) (meeting_id : nat) : Prog unit :=
  conns <- get_connections ;;
  let participant_list := dict_keys (room_of meeting_code conns) in
  participants_data <-
    try_except
      (db_participants <- db_execute (select_active meeting_id) ;;
       ret (participants_data_of participant_list db_participants))
      (fun e =>
         logger ERROR "Error fetching participant data" ;;
         ret (participants_data_fallback participant_list)) ;;
  send_json websocket (participants_update participant_list participants_data).

Definition handle_webrtc_signal (meeting_code from_client : string)
    (message : PyDict Json) : Prog unit :=
  let target_client := get_or "target" JNull message in
  if negb (truthy target_client) then
    logger WARNING ("No target specified for WebRTC signal from " ++ from_client)
  else
    conns <- get_connections ;;
    match dict_get meeting_code conns with
    | None => ret tt
    | Some room =>
        (* [target_client in active_connections[meeting_code]] hashes the key *)
        if negb (hashable target_client) then raise TypeError
        else
          match target_client with
          | JStr target =>
              match dict_get target room with
              | Some target_ws =>
                  send_json target_ws
                    (JObj [("type", get_or "type" JNull message);
                           ("from", JStr from_client);
                           ("data", get_or "data" JNull message)]) ;;
                  logger INFO ("Forwarded signal from " ++ from_client ++ " to " ++ target)
              | None => ret tt
              end
          | _ => ret tt
          end
    end.

Definition log_chat_message (meeting_code from_client : string)
    (message : PyDict Json) : Prog unit :=
  try_except
    (rows <- db_execute (select_meeting meeting_code) ;;
     meeting <- scalar_one_or_none rows ;;
     match meeting with
     | None => ret tt
     | Some m =>
         prows <- db_execute (select_by_client from_client) ;;
         participant <- scalar_one_or_none prows ;;
         db_commit (add_log
           (mkMeetingLog (meeting_id_of m) (option_map p_id participant) "chat_message"
              (JObj [("message", get_or "message" (JStr "") message)]) None))
     end)
    (fun e =>
       logger ERROR "Error logging chat" ;;
       db_rollback).

Definition chat_event (from_client : string) (message : PyDict Json)
    (timestamp : string) : Json :=
  JObj [("type", JStr CHAT_MESSAGE);
        ("from", JStr from_client);
        ("message", get_or "message" (JStr "") message);
        ("displayName", get_or "displayName" (JStr "Anonymous") message);
        ("timestamp", JStr timestamp)].

Definition handle_chat_message (meeting_code from_client : string)
    (message : PyDict Json) : Prog unit :=
  timestamp <- now ;;
  let chat_data := chat_event from_client message timestamp in
  local (fun w => (Ok tt,
    set_chat (fun c => dict_update meeting_code (fun l => (l ++ [chat_data])%list)
                         (dict_init meeting_code [] c)) w)) ;;
  try_except (log_chat_message meeting_code from_client message)
    (fun e => logger ERROR "Error logging chat message") ;;
  broadcast_to_meeting meeting_code chat_data None ;;
  logger INFO ("Chat message from " ++ from_client ++ " in " ++ meeting_code).

(** The [try] block of [handle_join_message]. *)
Definition persist_display_name (client_id : string) (display_name : Json) : Prog unit :=
  rows <- db_execute (select_by_client client_id) ;;
  participant <- scalar_one_or_none rows ;;
  match participant with
  | Some p =>
      db_commit (update_participant (p_id p) (with_display_name display_name)) ;;
      logger INFO ("Updated display name for " ++ client_id)
  | None => ret tt
  end.

Definition name_update_event (client_id : string) (display_name : Json) : Json :=
  JObj [("type", JStr "participant-name-update");
        ("clientId", JStr client_id);
        ("displayName", display_name)].

Definition handle_join_message (meeting_code client_id : string)
    (message : PyDict Json) : Prog unit :=
  match dict_get "displayName" message with
  | None => ret tt
  | Some display_name =>
      try_except (persist_display_name client_id display_name)
        (fun e =>
           logger ERROR "Error updating participant name" ;;
           db_rollback) ;;
      broadcast_to_meeting meeting_code (name_update_event client_id display_name)
        (Some client_id)
  end.

(** The [try] block of [handle_media_toggle]. *)
Definition persist_media_toggle (client_id : string) (enabled : Json)
    (media_type : string) : Prog unit :=
  rows <- db_execute (select_by_client client_id) ;;
  participant <- scalar_one_or_none rows ;;
  match participant with
  | Some p =>
      db_commit (update_participant (p_id p)
        (if media_type =? "audio" then with_audio_enabled enabled
         else with_video_enabled enabled)) ;;
      db_commit (add_log
        (mkMeetingLog (p_meeting_id p) (Some (p_id p)) (media_type ++ "_toggle")
           (JObj [("enabled", enabled)]) None))
  | None => ret tt
  end.

Definition toggle_event (client_id : string) (enabled : Json) (media_type : string)
    : Json :=
  let message_type := if media_type =? "audio" then AUDIO_TOGGLE else VIDEO_TOGGLE in
  JObj [("type", JStr message_type);
        ("clientId", JStr client_id);
        ("enabled", enabled)].

Definition handle_media_toggle (meeting_code client_id : string)
    (message : PyDict Json) (media_type : string) : Prog unit :=
  let enabled := get_or "enabled" (JBool true) message in
  try_except (persist_media_toggle client_id enabled media_type)
    (fun e =>
       logger ERROR ("Error updating " ++ media_type ++ " status") ;;
       db_rollback) ;;
  broadcast_to_meeting meeting_code (toggle_event client_id enabled media_type) None.

(** *** handle_websocket *)

(** An inbound text frame, with what [json.loads] makes of it ([None]:
    the text is not JSON). *)
Inductive Frame : Type :=
| TextFrame (parsed : option Json).

Definition new_participant (meeting_id : nat) (client_id : string)
    (client_ip : option string) (user_agent : string) (is_host : bool)
    (id : nat) : Participant :=
  mkParticipant id meeting_id client_id JNull client_ip user_agent None
    true is_host (JBool true) (JBool true) (JBool false).

(** [participant.id] is still unset when the log entry is built. *)
Definition join_log (meeting_id : nat) (client_id : string)
    (client_ip : option string) : MeetingLog :=
  mkMeetingLog meeting_id None "join"
    (JObj [("client_id", JStr client_id); ("ip", opt_str client_ip)]) client_ip.

(** Lines 40-98: the first database session; [create_participant] is
    its [try] block.  [None] when the handler has closed the socket and
    returned. *)
Definition create_participant (websocket : WebSocket) (meeting_code client_id : string)
    (client_ip : option string) (user_agent : string) : Prog (option Meeting) :=
  rows <- db_execute (select_meeting meeting_code) ;;
  meeting <- scalar_one_or_none rows ;;
  match meeting with
  | None =>
      websocket_close websocket 1008 "Meeting not found" ;;
      ret None
  | Some m =>
      count <- db_execute (count_active (meeting_id_of m)) ;;
      let is_host := (count =? 0)%nat in
      db_commit (fun d =>
        add_log (join_log (meeting_id_of m) client_id client_ip)
          (add_participant
             (new_participant (meeting_id_of m) client_id client_ip user_agent is_host)
             d)) ;;
      db_refresh ;;
      logger INFO ("Participant " ++ client_id ++ " created in database for meeting "
                     ++ meeting_code) ;;
      ret (Some m)
  end.

Definition setup_session (websocket : WebSocket) (meeting_code client_id : string)
    (client_ip : option string) (user_agent : string) : Prog (option Meeting) :=
  try_except
    (create_participant websocket meeting_code client_id client_ip user_agent)
    (fun e =>
       logger ERROR "Error creating participant" ;;
       db_rollback ;;
       websocket_close websocket 1011 "Internal server error" ;;
       ret None).

(** Lines 100-108. *)
Definition register_connection (websocket : WebSocket)
    (meeting_code client_id : string) : Prog unit :=
  local (fun w => (Ok tt,
    set_chat (dict_init meeting_code [])
      (set_connections
         (fun conns =>
            dict_update meeting_code (dict_set client_id websocket)
              (dict_init meeting_code [] conns))
         w))).

(** The second database session (lines 119-129). *)
Definition lookup_display_name (client_id : string) : Prog Json :=
  try_except
    (rows <- db_execute (select_by_client client_id) ;;
     participant <- scalar_one_or_none rows ;;
     match participant with
     | Some p => ret (p_display_name p)
     | None => ret JNull
     end)
    (fun e =>
       logger ERROR "Error getting participant display name" ;;
       ret JNull).

Definition user_joined_event (client_id : string) (display_name : Json)
    (timestamp : string) : Json :=
  JObj [("type", JStr USER_JOINED);
        ("clientId", JStr client_id);
        ("displayName", display_name);
        ("timestamp", JStr timestamp)].

Definition chat_history (messages : list Json) : Json :=
  JObj [("type", JStr CHAT_HISTORY); ("messages", JArr messages)].

(** Lines 111-139: what the new connection and the others are told. *)
Definition announce (websocket : WebSocket) (meeting_code client_id : string)
    (meeting_id : nat) : Prog unit :=
  chat <- get_chat ;;
  match dict_get meeting_code chat with
  | Some messages =>
      send_json websocket (chat_history messages)
  | None => ret tt
  end ;;
  display_name <- lookup_display_name client_id ;;
  timestamp <- now ;;
  broadcast_to_meeting meeting_code (user_joined_event client_id display_name timestamp)
    (Some client_id) ;;
  send_participants_update websocket meeting_code meeting_id.

(** The body of [while True] after [json.loads]. *)
Definition dispatch (meeting_code client_id : string) (message : Json) : Prog unit :=
  match message with
  | JObj fields =>
      let message_type := get_or "type" JNull fields in
      logger INFO ("Message from " ++ client_id) ;;
      if json_is_str message_type OFFER then
        handle_webrtc_signal meeting_code client_id fields
      else if json_is_str message_type ANSWER then
        handle_webrtc_signal meeting_code client_id fields
      else if json_is_str message_type ICE_CANDIDATE then
        handle_webrtc_signal meeting_code client_id fields
      else if json_is_str message_type CHAT_MESSAGE then
        handle_chat_message meeting_code client_id fields
      else if json_is_str message_type JOIN then
        handle_join_message meeting_code client_id fields
      else if json_is_str message_type AUDIO_TOGGLE then
        handle_media_toggle meeting_code client_id fields "audio"
      else if json_is_str message_type VIDEO_TOGGLE then
        handle_media_toggle meeting_code client_id fields "video"
      else if json_is_str message_type SCREEN_SHARE_START then
        broadcast_to_meeting meeting_code
          (JObj [("type", JStr SCREEN_SHARE_START); ("clientId", JStr client_id)])
          (Some client_id)
      else if json_is_str message_type SCREEN_SHARE_STOP then
        broadcast_to_meeting meeting_code
          (JObj [("type", JStr SCREEN_SHARE_STOP); ("clientId", JStr client_id)])
          (Some client_id)
      else ret tt
  | _ =>
      (* [message.get] on a value that is not a dict *)
      raise AttributeError
  end.

(** [data = await websocket.receive_text()]: waits for the next frame;
    once the peer has nothing more to send it raises WebSocketDisconnect. *)
Definition receive_text (next : option Frame) : Prog Frame :=
  await (fun w =>
    match next with
    | Some f => (Ok f, w)
    | None => (Raise WebSocketDisconnect, w)
    end).

Fixpoint message_loop (meeting_code client_id : string) (frames : list Frame)
    : Prog unit :=
  match frames with
  | [] => receive_text None ;; ret tt
  | frame :: rest =>
      data <- receive_text (Some frame) ;;
      match data with
      | TextFrame None => raise JSONDecodeError
      | TextFrame (Some message) =>
          dispatch meeting_code client_id message ;;
          message_loop meeting_code client_id rest
      end
  end.

(** [try: t  finally: fin]. *)
Fixpoint try_finally {A} (t : Prog A) (fin : Prog unit) : Prog A :=
  match t with
  | Ret r => bind fin (fun _ => Ret r)
  | Local op k => Local op (fun b => try_finally (k b) fin)
  | Await op k => Await op (fun b => try_finally (k b) fin)
  end.

(** The two [except] clauses of lines 183-186. *)
Definition loop_exit (meeting_code client_id : string) (e : Exn) : Prog unit :=
  match e with
  | WebSocketDisconnect =>
      logger INFO ("Client " ++ client_id ++ " disconnected from " ++ meeting_code)
  | _ => logger ERROR ("Error in WebSocket for " ++ client_id)
  end.

(** The [try ... except ... finally] of lines 110-188. *)
Definition session (websocket : WebSocket) (meeting_code client_id : string)
    (client_ip : option string) (meeting_id : nat) (frames : list Frame) : Prog unit :=
  try_finally
    (try_except
       (announce websocket meeting_code client_id meeting_id ;;
        message_loop meeting_code client_id frames)
       (loop_exit meeting_code client_id))
    (handle_disconnect meeting_code client_id client_ip).

Definition handle_websocket (websocket : WebSocket) (meeting_code client_id : string)
    (client_ip : option string) (user_agent : string) (frames : list Frame)
    : Prog unit :=
  websocket_accept websocket ;;
  logger INFO ("WebSocket connection: " ++ client_id ++ " joining " ++ meeting_code) ;;
  meeting <- setup_session websocket meeting_code client_id client_ip user_agent ;;
  match meeting with
  | None => ret tt
  | Some m =>
      register_connection websocket meeting_code client_id ;;
      session websocket meeting_code client_id client_ip (meeting_id_of m) frames
  end.

(** ** Several connections on one event loop *)

(** Code that runs without suspending, up to the next [Await]. *)
Fixpoint advance {A} (t : Task A) (w : World) : Task A * World :=
  match t with
  | Local op k => let (b, w') := op w in advance (k b) w'
  | _ => (t, w)
  end.

(** One turn of a task on the event loop: the awaited call completes and
    the task runs on to its next suspension point. *)
Definition resume {A} (t : Task A) (w : World) : Task A * World :=
  match t with
  | Ret a => (Ret a, w)
  | Local _ _ => advance t w
  | Await op k => let (b, w') := op w in advance (k b) w'
  end.

Fixpoint resume_nth {A} (i : nat) (tasks : list (Task A)) (w : World)
    : list (Task A) * World :=
  match tasks, i with
  | [], _ => ([], w)
  | t :: rest, O => let (t', w') := resume t w in (t' :: rest, w')
  | t :: rest, S j => let (rest', w') := resume_nth j rest w in (t :: rest', w')
  end.

(** The tasks taking turns in the order the schedule gives. *)
Fixpoint run_schedule {A} (schedule : list nat) (tasks : list (Task A)) (w : World)
    : list (Task A) * World :=
  match schedule with
  | [] => (tasks, w)
  | i :: more =>
      let (tasks', w') := resume_nth i tasks w in
      run_schedule more tasks' w'
  end.

(** ** Views of the world *)

(** The part of the world the relay itself owns or talks to. *)
Definition relay_view (w : World) :=
  (active_connections w, chat_messages w, broken w, outbox w, closed w).

(** The part behind the persistence collaborator. *)
Definition store_view (w : World) := (db w, db_script w).

(** A task that touches nothing but the store and the log. *)
Definition keeps_relay {A} (t : Task A) : Prop :=
  forall w, relay_view (snd (run t w)) = relay_view w /\ clock (snd (run t w)) = clock w.

(** A task that never touches the store. *)
Definition keeps_store {A} (t : Task A) : Prop :=
  forall w, store_view (snd (run t w)) = store_view w /\ clock (snd (run t w)) = clock w.

(** A task that always returns normally. *)
Definition no_raise {A} (t : Prog A) : Prop :=
  forall w, exists a, fst (run t w) = Ok a.

(** ** What one broadcast does, in closed form *)

Definition will_deliver (w : World) (exclude_client : option string)
    (kv : string * WebSocket) : bool :=
  negb (excluded exclude_client (fst kv)) && negb (is_broken w (snd kv)).

Definition will_fail (w : World) (exclude_client : option string)
    (kv : string * WebSocket) : bool :=
  negb (excluded exclude_client (fst kv)) && is_broken w (snd kv).

(** The frames one broadcast over [connections] puts on the wire. *)
Definition deliveries (w : World) (message : Json) (exclude_client : option string)
    (connections : list (string * WebSocket)) : list (WebSocket * Json) :=
  map (fun kv => (snd kv, message)) (filter (will_deliver w exclude_client) connections).

Definition broadcast_result (meeting_code : string) (message : Json)
    (exclude_client : option string) (connections : list (string * WebSocket))
    (w : World) : World :=
  mkWorld
    (fold_left (fun c kv => dict_update meeting_code (dict_pop (fst kv)) c)
       (filter (will_fail w exclude_client) connections) (active_connections w))
    (chat_messages w) (db w) (db_script w) (broken w)
    (outbox w ++ deliveries w message exclude_client connections)
    (closed w)
    (logs w ++ map (fun kv => (ERROR, "Error broadcasting to " ++ fst kv))
               (filter (will_fail w exclude_client) connections))
    (clock w).

(** Frames in [sent] addressed to the handle [ws]. *)
Definition frames_to (ws : WebSocket) (sent : list (WebSocket * Json)) : list Json :=
  map snd (filter (fun d => (fst d =? ws)%nat) sent).

(** ** Vocabulary of the claims *)

(** [c] is the client a broadcast was asked to leave out. *)
Definition is_exclude (exclude_client : option string) (client_id : string) : bool :=
  match exclude_client with
  | Some c => client_id =? c
  | None => false
  end.

(** What a task does to the relay, and whether it raises, is the same
    in any two worlds that agree on the relay and the clock: the store
    has no say in it. *)
Definition relay_det {A} (t : Prog A) : Prop :=
  forall w1 w2,
    relay_view w1 = relay_view w2 -> clock w1 = clock w2 ->
    fst (run t w1) = fst (run t w2) /\
    relay_view (snd (run t w1)) = relay_view (snd (run t w2)) /\
    clock (snd (run t w1)) = clock (snd (run t w2)).

(** A small room used to exercise the theorems: three clients, the
    second one on a dead socket. *)
Definition demo_room : PyDict WebSocket := [("A", 1); ("B", 2); ("C", 3)].

Definition demo_db : Database :=
  mkDatabase [mkMeeting 0 "abc1234567"]
    [new_participant 0 "A" None "ua" true 10;
     new_participant 0 "B" None "ua" false 11;
     new_participant 0 "C" None "ua" false 12]
    [] 13.

Definition demo_world : World :=
  mkWorld [("abc1234567", demo_room)] [("abc1234567", [])] demo_db [] [2] [] [] [] "t0".

(** The same world with the store unreachable at the next call. *)
Definition demo_world_down : World := set_script [false] demo_world.

Definition demo_message : PyDict Json :=
  [("enabled", JBool false); ("displayName", JStr "Ann")].



(** The kinds the [if/elif] chain of the message loop handles. *)
Definition known_kind (message_type : Json) : bool :=
  json_is_str message_type OFFER
  || json_is_str message_type ANSWER
  || json_is_str message_type ICE_CANDIDATE
  || json_is_str message_type CHAT_MESSAGE
  || json_is_str message_type JOIN
  || json_is_str message_type AUDIO_TOGGLE
  || json_is_str message_type VIDEO_TOGGLE
  || json_is_str message_type SCREEN_SHARE_START
  || json_is_str message_type SCREEN_SHARE_STOP.

(** A frame the loop cannot read as a message: text that is not JSON, or
    JSON that is not an object. *)
Definition malformed (f : Frame) : bool :=
  match f with
  | TextFrame None => true
  | TextFrame (Some (JObj _)) => false
  | TextFrame (Some _) => true
  end.

(** A task only ever adds to the log. *)
Definition log_grows {A} (t : Task A) : Prop :=
  forall w, exists more, logs (snd (run t w)) = (logs w ++ more)%list.

(** The demo room with every socket alive. *)
Definition demo_world_live : World :=
  mkWorld [("abc1234567", demo_room)] [("abc1234567", [])] demo_db [] [] [] [] [] "t0".

(** [chat_messages.get(meeting_code, [])]: the room's chat buffer. *)
Definition buffer_of (meeting_code : string) (w : World) : list Json :=
  match dict_get meeting_code (chat_messages w) with Some l => l | None => [] end.

(** Lines 100-139 of [handle_websocket]: registration, then what the new
    connection and the others are told. *)
Definition join (websocket : WebSocket) (meeting_code client_id : string)
    (meeting_id : nat) : Prog unit :=
  register_connection websocket meeting_code client_id ;;
  announce websocket meeting_code client_id meeting_id.

(** The world right after lines 100-108. *)
Definition registered (websocket : WebSocket) (meeting_code client_id : string)
    (w : World) : World :=
  set_chat (dict_init meeting_code [])
    (set_connections
       (fun conns =>
          dict_update meeting_code (dict_set client_id websocket)
            (dict_init meeting_code [] conns))
       w).

(** A chat event already in the buffer of the demo room. *)
Definition demo_old_chat : Json := chat_event "A" [("message", JStr "old")] "t-1".

Definition demo_world_chat : World :=
  mkWorld [("abc1234567", demo_room)] [("abc1234567", [demo_old_chat])] demo_db
    [] [] [] [] [] "t0".

(** A chat message B sends while D is joining. *)
Definition demo_live_frame : Frame :=
  TextFrame (Some (JObj [("type", JStr "chat-message"); ("message", JStr "live")])).

(** The active participants of a meeting that carry the host flag. *)
Definition active_hosts (meeting_id : nat) (d : Database) : list Participant :=
  filter (fun p => (p_meeting_id p =? meeting_id)%nat && p_is_active p && p_is_host p)
    (participants d).

(** At most one active host per room. *)
Definition host_invariant (d : Database) : Prop :=
  forall meeting_id, length (active_hosts meeting_id d) <= 1.

(** One meeting, nobody in it yet. *)
Definition demo_world_empty : World :=
  mkWorld [] [] (mkDatabase [mkMeeting 0 "abc1234567"] [] [] 100) [] [] [] [] [] "t0".

(** A task keeps a property of the database, whatever else it does. *)
Definition preserves {A} (I : Database -> Prop) (t : Task A) : Prop :=
  forall w, I (db w) -> I (db (snd (run t w))).

(** A row update that leaves identity, meeting and host flag alone and
    never turns an inactive row active. *)
Definition benign (g : Participant -> Participant) : Prop :=
  forall p,
    p_id (g p) = p_id p /\ p_meeting_id (g p) = p_meeting_id p /\
    p_client_id (g p) = p_client_id p /\ p_is_host (g p) = p_is_host p /\
    (p_is_active (g p) = true -> p_is_active p = true).

(** The store only grows from [d0]: the meetings are the same, every
    participant row of [d0] is still there under its id, in place, and
    the audit rows of [d0] are a prefix of the audit rows. *)
Definition grows_from (d0 d : Database) : Prop :=
  meetings d = meetings d0 /\
  (exists more, map p_id (participants d) = (map p_id (participants d0) ++ more)%list) /\
  (exists more, meeting_logs d = (meeting_logs d0 ++ more)%list).

(** What [receive_text] followed by [json.loads] yields for a frame
    that carries a JSON object. *)
Definition object_frame (fields : PyDict Json) : Frame := TextFrame (Some (JObj fields)).

(** The registry is a dictionary of dictionaries: room codes are
    pairwise distinct, and so are the client ids of each room, none of
    them empty. *)
Definition registry_ok (conns : PyDict (PyDict WebSocket)) : Prop :=
  dict_wf conns /\
  forall code room, dict_get code conns = Some room ->
                    dict_wf room /\ ~ In "" (dict_keys room).

(** A task keeps a property of [active_connections]. *)
Definition keeps_registry {A} (Q : PyDict (PyDict WebSocket) -> Prop) (t : Task A) : Prop :=
  forall w, Q (active_connections w) -> Q (active_connections (snd (run t w))).

(** ** src/main.py *)

(** [len(active_connections)] *)
Definition active_meetings (conns : PyDict (PyDict WebSocket)) : nat := length conns.

(** [sum(len(clients) for clients in active_connections.values())] *)
Definition total_participants (conns : PyDict (PyDict WebSocket)) : nat :=
  list_sum (map (fun kv => length (snd kv)) conns).

(** [GET /]; [app_name] is [settings.app_name], read from the
    environment by src/core/config.py. *)
Definition root (app_name : string) : Prog Json :=
  conns <- get_connections ;;
  ret (JObj [("app", JStr app_name);
             ("version", JStr "2.0");
             ("status", JStr "running");
             ("active_meetings", JNum (Z.of_nat (active_meetings conns)));
             ("total_participants", JNum (Z.of_nat (total_participants conns)))]).

(** * Lemmas and theorems *)

(** ** Running composed tasks *)

Lemma run_bind {A B} (t : Prog A) (f : A -> Prog B) (w : World) :
  run (bind t f) w =
  match run t w with
  | (Ok a, w') => run (f a) w'
  | (Raise e, w') => (Raise e, w')
  end.
Proof.
  revert w; induction t as [r | C op k IH | C op k IH]; intro w; simpl.
  - destruct r; reflexivity.
  - destruct (op w) as [b w']. apply IH.
  - destruct (op w) as [b w']. apply IH.
Qed.

Lemma run_try_except {A} (t : Prog A) (h : Exn -> Prog A) (w : World) :
  run (try_except t h) w =
  match run t w with
  | (Ok a, w') => (Ok a, w')
  | (Raise e, w') => run (h e) w'
  end.
Proof.
  revert w; induction t as [r | C op k IH | C op k IH]; intro w; simpl.
  - destruct r; reflexivity.
  - destruct (op w) as [b w']. apply IH.
  - destruct (op w) as [b w']. apply IH.
Qed.

Lemma run_try_finally {A} (t : Prog A) (fin : Prog unit) (w : World) :
  run (try_finally t fin) w =
  match run fin (snd (run t w)) with
  | (Ok _, w') => (fst (run t w), w')
  | (Raise e, w') => (Raise e, w')
  end.
Proof.
  revert w; induction t as [r | C op k IH | C op k IH]; intro w; simpl.
  - rewrite run_bind. destruct (run fin w) as [[u | e] w']; reflexivity.
  - destruct (op w) as [b w']. apply IH.
  - destruct (op w) as [b w']. apply IH.
Qed.

Lemma run_local {A} (op : World -> Result A * World) (w : World) :
  run (local op) w = op w.
Proof. unfold local; simpl. destruct (op w); reflexivity. Qed.

Lemma run_await {A} (op : World -> Result A * World) (w : World) :
  run (await op) w = op w.
Proof. unfold await; simpl. destruct (op w); reflexivity. Qed.

Lemma run_ret {A} (a : A) (w : World) : run (ret a) w = (Ok a, w).
Proof. reflexivity. Qed.

Lemma run_raise {A} (e : Exn) (w : World) : run (@raise A e) w = (Raise e, w).
Proof. reflexivity. Qed.

Lemma run_logger lvl msg w : run (logger lvl msg) w = (Ok tt, push_log lvl msg w).
Proof. reflexivity. Qed.

Lemma run_now w : run now w = (Ok (clock w), w).
Proof. reflexivity. Qed.

Lemma run_send_json ws m w :
  run (send_json ws m) w =
  if is_broken w ws then (Raise SendError, w) else (Ok tt, push_outbox ws m w).
Proof. unfold send_json. rewrite run_local. reflexivity. Qed.

Lemma run_db_execute {A} (q : Database -> A) w :
  run (db_execute q) w =
  if db_ok w then (Ok (q (db w)), db_tick w) else (Raise DBAPIError, db_tick w).
Proof. unfold db_execute, db_call. rewrite run_await. reflexivity. Qed.

Lemma run_db_commit f w :
  run (db_commit f) w =
  if db_ok w then (Ok tt, set_db f (db_tick w)) else (Raise DBAPIError, db_tick w).
Proof. unfold db_commit, db_call. rewrite run_await. reflexivity. Qed.

Lemma run_db_refresh w :
  run db_refresh w =
  if db_ok w then (Ok tt, db_tick w) else (Raise DBAPIError, db_tick w).
Proof. unfold db_refresh, db_call. rewrite run_await. reflexivity. Qed.

Lemma run_db_rollback w : run db_rollback w = (Ok tt, w).
Proof. reflexivity. Qed.

Lemma run_get_connections w : run get_connections w = (Ok (active_connections w), w).
Proof. reflexivity. Qed.

Lemma run_get_chat w : run get_chat w = (Ok (chat_messages w), w).
Proof. reflexivity. Qed.

Lemma run_pop_connection code cid w :
  run (pop_connection code cid) w =
  (Ok tt, set_connections (dict_update code (dict_pop cid)) w).
Proof. reflexivity. Qed.

Lemma run_websocket_close ws code reason w :
  run (websocket_close ws code reason) w = (Ok tt, push_closed ws code reason w).
Proof. reflexivity. Qed.

Lemma run_scalar_one_or_none {A} (rows : list A) w :
  run (scalar_one_or_none rows) w =
  match rows with
  | [] => (Ok None, w)
  | [x] => (Ok (Some x), w)
  | _ :: _ :: _ => (Raise MultipleResultsFound, w)
  end.
Proof. destruct rows as [| x [| y rows]]; reflexivity. Qed.

Create Rewrite HintDb run.
#[export] Hint Rewrite @run_bind @run_try_except @run_try_finally @run_ret @run_raise
  run_logger run_now run_send_json @run_db_execute run_db_commit run_db_refresh
  run_db_rollback run_get_connections run_get_chat run_pop_connection
  run_websocket_close @run_scalar_one_or_none @run_local @run_await : run.

(** Symbolic execution of one handler. *)
Ltac run_step := autorewrite with run; cbn beta iota zeta.

(** Projections of an updated world, without unfolding any task. *)
Ltac wsimpl :=
  cbn [fst snd active_connections chat_messages db db_script broken outbox closed
       logs clock set_connections set_chat set_db set_script push_outbox push_closed
       push_log db_tick relay_view store_view].

(** Case analysis on the outcome of the next database call. *)
Ltac case_db :=
  match goal with
  | |- context [if db_ok ?x then _ else _] => destruct (db_ok x) eqn:?
  end.

(** ** Dictionaries *)

Section DictFacts.
Context {V : Type}.
Implicit Types (d : PyDict V) (k : string) (v : V).

Lemma dict_get_set_same k v d : dict_get k (dict_set k v d) = Some v.
Proof.
  induction d as [| [k' v'] d IH]; simpl.
  - now rewrite String.eqb_refl.
  - destruct (k =? k') eqn:E; simpl; rewrite ?String.eqb_refl, ?E; auto.
Qed.

Lemma dict_get_set_other k k' v d :
  k <> k' -> dict_get k' (dict_set k v d) = dict_get k' d.
Proof.
  intro Hne. induction d as [| [k0 v0] d IH]; simpl.
  - destruct (k' =? k) eqn:E; auto. apply String.eqb_eq in E. congruence.
  - destruct (k =? k0) eqn:E; simpl.
    + apply String.eqb_eq in E; subst k0.
      destruct (k' =? k) eqn:E'; auto. apply String.eqb_eq in E'. congruence.
    + destruct (k' =? k0); auto.
Qed.

Lemma dict_set_set k v v' d : dict_set k v (dict_set k v' d) = dict_set k v d.
Proof.
  induction d as [| [k0 v0] d IH]; simpl.
  - now rewrite String.eqb_refl.
  - destruct (k =? k0) eqn:E; simpl; rewrite ?String.eqb_refl, ?E; congruence.
Qed.

Lemma dict_set_get_id k v d : dict_get k d = Some v -> dict_set k v d = d.
Proof.
  induction d as [| [k0 v0] d IH]; simpl; [discriminate |].
  destruct (k =? k0) eqn:E; intro H.
  - apply String.eqb_eq in E. congruence.
  - now rewrite IH.
Qed.

Lemma dict_keys_set_present k v d :
  dict_mem k d = true -> dict_keys (dict_set k v d) = dict_keys d.
Proof.
  unfold dict_mem. induction d as [| [k0 v0] d IH]; simpl; [discriminate |].
  destruct (k =? k0) eqn:E; simpl; intro H.
  - apply String.eqb_eq in E. now subst.
  - now rewrite IH.
Qed.

Lemma dict_update_update k (f g : V -> V) d :
  dict_update k f (dict_update k g d) = dict_update k (fun v => f (g v)) d.
Proof.
  unfold dict_update. destruct (dict_get k d) eqn:E.
  - now rewrite dict_get_set_same, dict_set_set.
  - now rewrite E.
Qed.

Lemma dict_update_id k d : dict_update k (fun v => v) d = d.
Proof.
  unfold dict_update. destruct (dict_get k d) eqn:E; auto using dict_set_get_id.
Qed.

Lemma dict_get_update_same k (f : V -> V) d :
  dict_get k (dict_update k f d) = option_map f (dict_get k d).
Proof.
  unfold dict_update. destruct (dict_get k d) eqn:E; simpl.
  - apply dict_get_set_same.
  - assumption.
Qed.

Lemma dict_get_update_other k k' (f : V -> V) d :
  k <> k' -> dict_get k' (dict_update k f d) = dict_get k' d.
Proof.
  intro Hne. unfold dict_update. destruct (dict_get k d); auto using dict_get_set_other.
Qed.

Lemma dict_update_ext k (f g : V -> V) d :
  (forall v, dict_get k d = Some v -> f v = g v) ->
  dict_update k f d = dict_update k g d.
Proof.
  intro H. unfold dict_update. destruct (dict_get k d) eqn:E; auto.
  now rewrite (H v).
Qed.

Lemma dict_get_In k v d : dict_get k d = Some v -> In (k, v) d.
Proof.
  induction d as [| [k0 v0] d IH]; simpl; [discriminate |].
  destruct (k =? k0) eqn:E; intro H.
  - apply String.eqb_eq in E. left. congruence.
  - right; auto.
Qed.

Lemma dict_get_None_keys k d : dict_get k d = None <-> ~ In k (dict_keys d).
Proof.
  induction d as [| [k0 v0] d IH]; simpl.
  - tauto.
  - destruct (k =? k0) eqn:E.
    + apply String.eqb_eq in E. subst. split; [discriminate | tauto].
    + apply String.eqb_neq in E. rewrite IH. split; [| tauto].
      intros H [H1 | H1]; [congruence | tauto].
Qed.

Lemma In_dict_get k v d : dict_wf d -> In (k, v) d -> dict_get k d = Some v.
Proof.
  unfold dict_wf. induction d as [| [k0 v0] d IH]; simpl; [tauto |].
  intros Hnd [Heq | Hin]; inversion Hnd as [| ? ? Hnotin Hnd']; subst.
  - inversion Heq; subst. now rewrite String.eqb_refl.
  - destruct (k =? k0) eqn:E; auto.
    apply String.eqb_eq in E; subst k0.
    exfalso. apply Hnotin. change k with (fst (k, v)). now apply in_map.
Qed.

(** A filter that looks at keys only commutes with lookup. *)
Lemma dict_get_filter_key (q : string -> bool) k d :
  dict_get k (filter (fun kv => q (fst kv)) d) = if q k then dict_get k d else None.
Proof.
  induction d as [| [k0 v0] d IH]; simpl.
  - now destruct (q k).
  - destruct (q k0) eqn:Q; simpl; destruct (k =? k0) eqn:E; auto.
    + apply String.eqb_eq in E; subst. now rewrite Q.
    + apply String.eqb_eq in E; subst. now rewrite IH, Q.
Qed.

Lemma dict_get_pop k k' d :
  dict_get k' (dict_pop k d) = if k =? k' then None else dict_get k' d.
Proof.
  unfold dict_pop.
  rewrite (dict_get_filter_key (fun x => negb (k =? x)) k' d).
  now destruct (k =? k').
Qed.

Lemma dict_wf_filter (p : string * V -> bool) d : dict_wf d -> dict_wf (filter p d).
Proof.
  unfold dict_wf, dict_keys. induction d as [| kv d IH]; simpl; auto.
  intro H. inversion H as [| ? ? Hnotin Hnd]; subst.
  destruct (p kv); simpl; auto.
  constructor; auto.
  intro Hin. apply Hnotin. apply in_map_iff in Hin as [x [Hx Hin]].
  apply filter_In in Hin as [Hin _]. rewrite <- Hx. now apply in_map.
Qed.

Lemma pops_are_filter (keys : list string) d :
  fold_left (fun r k => dict_pop k r) keys d =
  filter (fun kv => negb (in_list (fst kv) keys)) d.
Proof.
  revert d; induction keys as [| k keys IH]; intro d; simpl.
  - induction d as [| kv d IHd]; simpl; congruence.
  - rewrite IH. unfold dict_pop. induction d as [| kv d IHd]; simpl; auto.
    rewrite (String.eqb_sym (fst kv) k).
    destruct (k =? fst kv); simpl; rewrite IHd; auto.
Qed.
End DictFacts.

(** ** broadcast_to_meeting *)

Lemma run_broadcast_loop code m ex conns w :
  run (broadcast_loop code m ex conns) w = (Ok tt, broadcast_result code m ex conns w).
Proof.
  revert w; induction conns as [| [cid ws] rest IH]; intro w.
  - simpl. unfold broadcast_result, deliveries; simpl.
    rewrite !app_nil_r. now destruct w.
  - simpl broadcast_loop. run_step.
    unfold broadcast_result, deliveries, will_fail, will_deliver. simpl.
    destruct (excluded ex cid) eqn:Ex; simpl.
    + rewrite IH. reflexivity.
    + destruct (is_broken w ws) eqn:Bk; simpl.
      * rewrite IH. unfold broadcast_result, deliveries, will_fail, will_deliver,
          is_broken in *; simpl.
        now rewrite <- app_assoc.
      * rewrite IH. unfold broadcast_result, deliveries, will_fail, will_deliver,
          is_broken in *; simpl.
        now rewrite <- app_assoc.
Qed.

Lemma run_broadcast_to_meeting code m ex w :
  run (broadcast_to_meeting code m ex) w =
  match dict_get code (active_connections w) with
  | Some room => (Ok tt, broadcast_result code m ex room w)
  | None => (Ok tt, w)
  end.
Proof.
  unfold broadcast_to_meeting. run_step.
  destruct (dict_get code (active_connections w)); auto using run_broadcast_loop.
Qed.

Lemma broadcast_no_raise code m ex : no_raise (broadcast_to_meeting code m ex).
Proof.
  intro w. exists tt. rewrite run_broadcast_to_meeting.
  now destruct (dict_get code (active_connections w)).
Qed.

Lemma broadcast_keeps_store code m ex : keeps_store (broadcast_to_meeting code m ex).
Proof.
  intro w. rewrite run_broadcast_to_meeting.
  now destruct (dict_get code (active_connections w)).
Qed.

(** The pops of one broadcast, gathered on the room. *)
Lemma broadcast_pops code (failed : list (string * WebSocket)) conns :
  fold_left (fun c kv => dict_update code (dict_pop (fst kv)) c) failed conns =
  dict_update code
    (filter (fun kv : string * WebSocket => negb (in_list (fst kv) (map fst failed))))
    conns.
Proof.
  revert conns; induction failed as [| [k ws] failed IH]; intro conns; simpl.
  - rewrite <- (dict_update_id code conns) at 1.
    apply dict_update_ext. intros room _.
    induction room as [| kv room IHr]; simpl; congruence.
  - rewrite IH, dict_update_update. apply dict_update_ext. intros room _.
    unfold dict_pop. induction room as [| kv room IHr]; simpl; auto.
    rewrite (String.eqb_sym (fst kv) k).
    destruct (k =? fst kv); simpl; rewrite IHr; auto.
Qed.

(** In a well-formed room, a key is among the failed ones exactly when
    its own entry fails. *)
Lemma failed_key_iff (p : string * WebSocket -> bool) (room : PyDict WebSocket) cid ws :
  dict_wf room -> dict_get cid room = Some ws ->
  in_list cid (map fst (filter p room)) = p (cid, ws).
Proof.
  unfold dict_wf, dict_keys, in_list.
  induction room as [| [k v] room IH]; simpl; [discriminate |].
  intros Hnd Hget. inversion Hnd as [| ? ? Hnotin Hnd']; subst.
  destruct (cid =? k) eqn:E.
  - apply String.eqb_eq in E; subst k. inversion Hget; subst v.
    destruct (p (cid, ws)) eqn:P; simpl.
    + now rewrite String.eqb_refl.
    + apply not_true_is_false. intro Hex. apply existsb_exists in Hex as [x [Hx Heq]].
      apply String.eqb_eq in Heq; subst x. apply Hnotin.
      apply in_map_iff in Hx as [y [Hy Hin]]. apply filter_In in Hin as [Hin _].
      rewrite <- Hy. now apply in_map.
  - destruct (p (k, v)); simpl; rewrite ?E; auto.
Qed.

(** With handles never shared, the frames a broadcast addresses to one
    registered handle are the single message, or nothing. *)
Lemma frames_to_deliveries w m ex (room : PyDict WebSocket) cid ws :
  NoDup (map snd room) -> In (cid, ws) room ->
  frames_to ws (deliveries w m ex room) =
  if will_deliver w ex (cid, ws) then [m] else [].
Proof.
  unfold frames_to, deliveries.
  induction room as [| [k v] room IH]; simpl; [tauto |].
  intros Hnd Hin. inversion Hnd as [| ? ? Hnotin Hnd']; subst.
  assert (Hrest : forall x, ~ In x (map snd room) ->
            map snd (filter (fun d => (fst d =? x)%nat)
              (map (fun kv : string * WebSocket => (snd kv, m))
                 (filter (will_deliver w ex) room))) = []).
  { clear. intros x Hx. induction room as [| [k v] room IH]; simpl; auto.
    simpl in Hx. destruct (will_deliver w ex (k, v)); simpl.
    - destruct (Nat.eqb_spec v x); [exfalso; auto |]. apply IH; auto.
    - apply IH; auto. }
  destruct Hin as [Heq | Hin].
  - inversion Heq; subst k v. destruct (will_deliver w ex (cid, ws)); simpl.
    + rewrite Nat.eqb_refl; simpl. now rewrite Hrest.
    + now apply Hrest.
  - assert (Hne : v <> ws).
    { intro; subst v. apply Hnotin. change ws with (snd (cid, ws)). now apply in_map. }
    destruct (will_deliver w ex (k, v)); simpl.
    + destruct (Nat.eqb_spec v ws); [contradiction |]. now apply IH.
    + now apply IH.
Qed.

Lemma deliveries_carry_message w m ex room :
  Forall (fun d => snd d = m) (deliveries w m ex room).
Proof.
  unfold deliveries. apply Forall_forall. intros d Hd.
  apply in_map_iff in Hd as [kv [Hkv _]]. now rewrite <- Hkv.
Qed.

Lemma excluded_is_exclude ex cid : cid <> "" -> excluded ex cid = is_exclude ex cid.
Proof.
  intro Hne. destruct ex as [c |]; simpl; auto.
  destruct (cid =? c) eqn:E; [| apply andb_false_r].
  apply String.eqb_eq in E; subst c.
  apply String.eqb_neq in Hne. now rewrite Hne.
Qed.

(** C2.  [broadcast_to_meeting(room, m, exclude_client=c)] on a room whose
    client ids are distinct and non-empty and whose handles are not
    shared: the call returns normally; every frame it sends carries [m];
    a registered client other than [c] whose handle accepts the send gets
    [m] exactly once and stays registered with the same handle; one whose
    handle raises gets nothing and is removed, whatever happens to the
    other handles; [c] gets nothing and stays registered; no client is
    added, and other rooms, the chat buffers and the store are untouched. *)
Theorem broadcast_exactly_once (w : World) (code : string) (m : Json)
    (ex : option string) (room : PyDict WebSocket) :
  dict_get code (active_connections w) = Some room ->
  dict_wf room ->
  NoDup (map snd room) ->
  ~ In "" (dict_keys room) ->
  let r := run (broadcast_to_meeting code m ex) w in
  let room' := room_of code (active_connections (snd r)) in
  fst r = Ok tt /\
  (exists sent,
     outbox (snd r) = (outbox w ++ sent)%list /\
     Forall (fun d => snd d = m) sent /\
     forall cid ws, dict_get cid room = Some ws ->
       frames_to ws sent = (if is_exclude ex cid || is_broken w ws then [] else [m])) /\
  (forall cid ws, dict_get cid room = Some ws ->
     dict_get cid room' =
     if negb (is_exclude ex cid) && is_broken w ws then None else Some ws) /\
  (forall cid, dict_get cid room = None -> dict_get cid room' = None) /\
  (forall code', code' <> code ->
     dict_get code' (active_connections (snd r)) = dict_get code' (active_connections w)) /\
  chat_messages (snd r) = chat_messages w /\
  db (snd r) = db w.
Proof.
  intros Hroom Hwf Hnd Hne r room'. subst r room'.
  rewrite run_broadcast_to_meeting, Hroom. simpl.
  assert (Hkey : forall cid ws, dict_get cid room = Some ws -> cid <> "").
  { intros cid ws Hget Heq. subst cid. apply Hne.
    apply dict_get_In in Hget. change "" with (fst ("", ws)). now apply in_map. }
  rewrite broadcast_pops. unfold room_of.
  rewrite dict_get_update_same, Hroom. simpl.
  split; [reflexivity |]. split; [| split; [| split; [| split; [| split]]]]; auto.
  - exists (deliveries w m ex room). repeat split; auto using deliveries_carry_message.
    intros cid ws Hget.
    rewrite (frames_to_deliveries w m ex room cid ws Hnd (dict_get_In _ _ _ Hget)).
    unfold will_deliver; simpl. rewrite (excluded_is_exclude ex cid (Hkey _ _ Hget)).
    now destruct (is_exclude ex cid), (is_broken w ws).
  - intros cid ws Hget.
    rewrite (dict_get_filter_key
               (fun k => negb (in_list k (map fst (filter (will_fail w ex) room)))) cid room).
    rewrite (failed_key_iff (will_fail w ex) room cid ws Hwf Hget), Hget.
    unfold will_fail; simpl. rewrite (excluded_is_exclude ex cid (Hkey _ _ Hget)).
    now destruct (is_exclude ex cid), (is_broken w ws).
  - intros cid Hget.
    rewrite (dict_get_filter_key
               (fun k => negb (in_list k (map fst (filter (will_fail w ex) room)))) cid room).
    rewrite Hget. now destruct (negb _).
  - intros code' Hc. apply dict_get_update_other. congruence.
Qed.

Lemma broadcast_exactly_once_witness :
  fst (run (broadcast_to_meeting "abc1234567" (JStr "hello") (Some "A")) demo_world) = Ok tt.
Proof.
  refine (proj1 (broadcast_exactly_once demo_world "abc1234567" (JStr "hello") (Some "A")
                   demo_room eq_refl _ _ _)).
  - repeat constructor; simpl; intuition discriminate.
  - repeat constructor; simpl; intuition discriminate.
  - simpl; intuition discriminate.
Defined.

Example broadcast_demo :
  let w' := exec (broadcast_to_meeting "abc1234567" (JStr "hello") (Some "A")) demo_world in
  outbox w' = [(3, JStr "hello")] /\
  active_connections w' = [("abc1234567", [("A", 1); ("C", 3)])].
Proof. split; reflexivity. Qed.

(** An empty [exclude_client] is falsy and leaves nobody out. *)
Example broadcast_empty_exclude :
  outbox (exec (broadcast_to_meeting "r" (JStr "hello") (Some ""))
            (mkWorld [("r", [("", 1)])] [] demo_db [] [] [] [] [] "t0"))
  = [(1, JStr "hello")].
Proof. reflexivity. Qed.

(** ** Frame properties *)

Section Frames.
Lemma keeps_relay_bind {A B} (t : Prog A) (f : A -> Prog B) :
  keeps_relay t -> (forall a, keeps_relay (f a)) -> keeps_relay (bind t f).
Proof.
  intros Ht Hf w. rewrite run_bind. specialize (Ht w).
  destruct (run t w) as [[a | e] w1]; simpl in *; auto.
  destruct (Hf a w1) as [H1 H2]. destruct Ht as [H3 H4]. split; congruence.
Qed.

Lemma keeps_relay_try_except {A} (t : Prog A) (h : Exn -> Prog A) :
  keeps_relay t -> (forall e, keeps_relay (h e)) -> keeps_relay (try_except t h).
Proof.
  intros Ht Hh w. rewrite run_try_except. specialize (Ht w).
  destruct (run t w) as [[a | e] w1]; simpl in *; auto.
  destruct (Hh e w1) as [H1 H2]. destruct Ht as [H3 H4]. split; congruence.
Qed.

Lemma keeps_relay_ret {A} (a : A) : keeps_relay (ret a).
Proof. intro w; split; reflexivity. Qed.

Lemma keeps_relay_raise {A} e : keeps_relay (@raise A e).
Proof. intro w; split; reflexivity. Qed.

Lemma keeps_relay_logger lvl msg : keeps_relay (logger lvl msg).
Proof. intro w; split; reflexivity. Qed.

Lemma keeps_relay_now : keeps_relay now.
Proof. intro w; split; reflexivity. Qed.

Lemma keeps_relay_db_call {A} (f : World -> Result A * World) :
  (forall w, relay_view (snd (f w)) = relay_view w /\ clock (snd (f w)) = clock w) ->
  keeps_relay (db_call f).
Proof.
  intros Hf w. unfold db_call. rewrite run_await.
  destruct (db_ok w); simpl; [| split; reflexivity].
  destruct (Hf (db_tick w)) as [H1 H2]. split; [rewrite H1 | rewrite H2]; reflexivity.
Qed.

Lemma keeps_relay_db_execute {A} (q : Database -> A) : keeps_relay (db_execute q).
Proof. apply keeps_relay_db_call. intro w; split; reflexivity. Qed.

Lemma keeps_relay_db_commit f : keeps_relay (db_commit f).
Proof. apply keeps_relay_db_call. intro w; split; reflexivity. Qed.

Lemma keeps_relay_db_refresh : keeps_relay db_refresh.
Proof. apply keeps_relay_db_call. intro w; split; reflexivity. Qed.

Lemma keeps_relay_db_rollback : keeps_relay db_rollback.
Proof. intro w; split; reflexivity. Qed.

Lemma keeps_relay_scalar {A} (rows : list A) : keeps_relay (scalar_one_or_none rows).
Proof. intro w. rewrite run_scalar_one_or_none. destruct rows as [| x [| y l]]; split; reflexivity. Qed.

Lemma no_raise_bind {A B} (t : Prog A) (f : A -> Prog B) :
  no_raise t -> (forall a, no_raise (f a)) -> no_raise (bind t f).
Proof.
  intros Ht Hf w. rewrite run_bind. destruct (Ht w) as [a Ha].
  destruct (run t w) as [[a' | e] w1]; simpl in *; [apply Hf | discriminate].
Qed.

Lemma no_raise_try_except {A} (t : Prog A) (h : Exn -> Prog A) :
  (forall e, no_raise (h e)) -> no_raise (try_except t h).
Proof.
  intros Hh w. rewrite run_try_except.
  destruct (run t w) as [[a | e] w1]; simpl; [eauto | apply Hh].
Qed.

Lemma no_raise_ret {A} (a : A) : no_raise (ret a).
Proof. intro w; exists a; reflexivity. Qed.

Lemma no_raise_logger lvl msg : no_raise (logger lvl msg).
Proof. intro w; exists tt; reflexivity. Qed.

Lemma no_raise_db_rollback : no_raise db_rollback.
Proof. intro w; exists tt; reflexivity. Qed.

Lemma no_raise_now : no_raise now.
Proof. intro w; eexists; reflexivity. Qed.

Lemma no_raise_get_connections : no_raise get_connections.
Proof. intro w; eexists; reflexivity. Qed.

Lemma no_raise_pop_connection code cid : no_raise (pop_connection code cid).
Proof. intro w; exists tt; reflexivity. Qed.

(** A task that cannot raise simply runs before its continuation. *)
Lemma run_seq {A B} (t : Prog A) (k : Prog B) (w : World) :
  no_raise t -> run (t ;; k) w = run k (snd (run t w)).
Proof.
  intro Ht. rewrite run_bind. destruct (Ht w) as [a Ha].
  destruct (run t w) as [[a' | e] w1]; simpl in *; [reflexivity | discriminate].
Qed.
End Frames.

Create HintDb frames.
#[export] Hint Resolve keeps_relay_ret keeps_relay_raise keeps_relay_logger keeps_relay_now
  keeps_relay_db_execute keeps_relay_db_commit keeps_relay_db_refresh
  keeps_relay_db_rollback keeps_relay_scalar
  no_raise_ret no_raise_logger no_raise_db_rollback no_raise_now
  no_raise_get_connections no_raise_pop_connection broadcast_no_raise : frames.

(** Walks down a handler built from [bind], [try_except] and [match]. *)
Ltac frames :=
  repeat first
    [ progress auto with frames
    | apply keeps_relay_bind
    | apply keeps_relay_try_except
    | apply no_raise_try_except
    | apply no_raise_bind
    | intro
    | match goal with
      | |- context [match ?x with _ => _ end] => destruct x
      end ].

Lemma persist_leave_keeps_relay cid ip : keeps_relay (persist_leave cid ip).
Proof. unfold persist_leave. frames. Qed.

Lemma persist_display_name_keeps_relay cid name :
  keeps_relay (persist_display_name cid name).
Proof. unfold persist_display_name. frames. Qed.

Lemma persist_media_toggle_keeps_relay cid enabled media :
  keeps_relay (persist_media_toggle cid enabled media).
Proof. unfold persist_media_toggle. frames. Qed.

Lemma log_chat_message_keeps_relay code cid msg :
  keeps_relay (log_chat_message code cid msg).
Proof. unfold log_chat_message. frames. Qed.

Lemma log_chat_message_no_raise code cid msg : no_raise (log_chat_message code cid msg).
Proof. unfold log_chat_message. frames. Qed.

Lemma create_participant_keeps_relay_but_close ws code cid ip ua w :
  let w' := snd (run (create_participant ws code cid ip ua) w) in
  active_connections w' = active_connections w /\
  chat_messages w' = chat_messages w /\
  outbox w' = outbox w.
Proof.
  unfold create_participant. run_step.
  case_db; wsimpl; auto.
  destruct (select_meeting code (db w)) as [| m [| m' l]]; run_step; wsimpl; auto.
  repeat (case_db; run_step; wsimpl; auto).
Qed.

(** What a broadcast does to the relay depends on the relay alone. *)
Lemma broadcast_relay_determined code m ex w1 w2 :
  relay_view w1 = relay_view w2 ->
  relay_view (snd (run (broadcast_to_meeting code m ex) w1)) =
  relay_view (snd (run (broadcast_to_meeting code m ex) w2)).
Proof.
  unfold relay_view. intro H. inversion H as [[Hc Hm Hb Ho Hcl]].
  rewrite !run_broadcast_to_meeting, Hc.
  destruct (dict_get code (active_connections w2)) as [room |]; simpl; [| congruence].
  unfold deliveries, will_fail, will_deliver, is_broken.
  now rewrite Hc, Hm, Hb, Ho, Hcl.
Qed.

Lemma broadcast_logs_grow code m ex w :
  exists more, logs (snd (run (broadcast_to_meeting code m ex) w)) = (logs w ++ more)%list.
Proof.
  rewrite run_broadcast_to_meeting.
  destruct (dict_get code (active_connections w)) as [room |]; simpl.
  - eauto.
  - exists []. now rewrite app_nil_r.
Qed.

(** A handler of the shape [try: persist except: log, rollback] followed
    by a broadcast. *)
Lemma persist_then_broadcast (persist : Prog unit) (msg : string) code m ex w :
  keeps_relay persist ->
  let handler :=
    try_except persist (fun _ => logger ERROR msg ;; db_rollback) ;;
    broadcast_to_meeting code m ex in
  fst (run handler w) = Ok tt /\
  relay_view (snd (run handler w)) =
    relay_view (snd (run (broadcast_to_meeting code m ex) w)) /\
  (forall e, fst (run persist w) = Raise e -> In (ERROR, msg) (logs (snd (run handler w)))) /\
  store_view (snd (run handler w)) =
    store_view (snd (run (try_except persist (fun _ => logger ERROR msg ;; db_rollback)) w)).
Proof.
  intros Hk handler. subst handler.
  assert (Hnr : no_raise (try_except persist (fun _ => logger ERROR msg ;; db_rollback)))
    by frames.
  rewrite (run_seq _ _ w Hnr).
  set (w1 := snd (run (try_except persist _) w)).
  assert (Hrel : relay_view w1 = relay_view w).
  { subst w1. apply keeps_relay_try_except; auto. intro e. frames. }
  split; [| split; [| split]].
  - destruct (broadcast_no_raise code m ex w1) as [[] Ha]. exact Ha.
  - now apply broadcast_relay_determined.
  - intros e He.
    destruct (broadcast_logs_grow code m ex w1) as [more Hm]. rewrite Hm.
    apply in_or_app. left. subst w1. rewrite run_try_except.
    destruct (run persist w) as [[a | e'] wp]; simpl in He; [discriminate |].
    run_step. wsimpl. apply in_or_app. right. now left.
  - apply broadcast_keeps_store.
Qed.

(** C8.  In [handle_media_toggle] and [handle_join_message], when the
    persistence block raises (the lookup, the flag or name update, or the
    audit write), the handler logs an error, returns normally so that the
    message loop goes on, and sends the same broadcast a run with a
    working store sends: the relay ends as if the broadcast had been
    called directly, whatever the store did. *)
Theorem persistence_failure_still_broadcasts (w w_ok : World) (code cid : string)
    (msg : PyDict Json) (media : string) (e : Exn) :
  relay_view w_ok = relay_view w ->
  let enabled := get_or "enabled" (JBool true) msg in
  (fst (run (persist_media_toggle cid enabled media) w) = Raise e ->
   fst (run (persist_media_toggle cid enabled media) w_ok) = Ok tt ->
   let r := run (handle_media_toggle code cid msg media) w in
   fst r = Ok tt /\
   In (ERROR, "Error updating " ++ media ++ " status") (logs (snd r)) /\
   relay_view (snd r) =
     relay_view (exec (broadcast_to_meeting code (toggle_event cid enabled media) None) w) /\
   relay_view (snd r) =
     relay_view (exec (handle_media_toggle code cid msg media) w_ok)) /\
  (forall name,
     dict_get "displayName" msg = Some name ->
     fst (run (persist_display_name cid name) w) = Raise e ->
     fst (run (persist_display_name cid name) w_ok) = Ok tt ->
     let r := run (handle_join_message code cid msg) w in
     fst r = Ok tt /\
     In (ERROR, "Error updating participant name") (logs (snd r)) /\
     relay_view (snd r) =
       relay_view (exec (broadcast_to_meeting code (name_update_event cid name) (Some cid)) w) /\
     relay_view (snd r) =
       relay_view (exec (handle_join_message code cid msg) w_ok)).
Proof.
  intros Hview enabled. split.
  - intros Hfail _ r. subst r. unfold handle_media_toggle. fold enabled.
    destruct (persist_then_broadcast (persist_media_toggle cid enabled media)
                ("Error updating " ++ media ++ " status") code
                (toggle_event cid enabled media) None w
                (persist_media_toggle_keeps_relay _ _ _)) as (H1 & H2 & H3 & _).
    destruct (persist_then_broadcast (persist_media_toggle cid enabled media)
                ("Error updating " ++ media ++ " status") code
                (toggle_event cid enabled media) None w_ok
                (persist_media_toggle_keeps_relay _ _ _)) as (_ & H2' & _).
    repeat split; eauto.
    unfold exec. rewrite H2, H2'. symmetry. now apply broadcast_relay_determined.
  - intros name Hname Hfail _ r. subst r. unfold handle_join_message. rewrite Hname.
    destruct (persist_then_broadcast (persist_display_name cid name)
                "Error updating participant name" code
                (name_update_event cid name) (Some cid) w
                (persist_display_name_keeps_relay _ _)) as (H1 & H2 & H3 & _).
    destruct (persist_then_broadcast (persist_display_name cid name)
                "Error updating participant name" code
                (name_update_event cid name) (Some cid) w_ok
                (persist_display_name_keeps_relay _ _)) as (_ & H2' & _).
    repeat split; eauto.
    unfold exec. rewrite H2, H2'. symmetry. now apply broadcast_relay_determined.
Qed.

Lemma persistence_failure_still_broadcasts_witness :
  fst (run (handle_media_toggle "abc1234567" "A" demo_message "audio") demo_world_down)
    = Ok tt /\
  fst (run (handle_join_message "abc1234567" "A" demo_message) demo_world_down) = Ok tt.
Proof.
  destruct (persistence_failure_still_broadcasts demo_world_down demo_world
              "abc1234567" "A" demo_message "audio" DBAPIError eq_refl) as [H1 H2].
  split.
  - apply H1; reflexivity.
  - apply (H2 (JStr "Ann")); reflexivity.
Defined.

Example toggle_with_store_down :
  let w' := exec (handle_media_toggle "abc1234567" "A" demo_message "audio") demo_world_down in
  outbox w' =
    [(1, toggle_event "A" (JBool false) "audio"); (3, toggle_event "A" (JBool false) "audio")]
  /\ db w' = demo_db
  /\ logs w' = [(ERROR, "Error updating audio status"); (ERROR, "Error broadcasting to B")].
Proof. repeat split; reflexivity. Qed.

(** ** The store has no say in what the relay does *)

Section RelayDet.
Lemma relay_det_bind {A B} (t : Prog A) (f : A -> Prog B) :
  relay_det t -> (forall a, relay_det (f a)) -> relay_det (bind t f).
Proof.
  intros Ht Hf w1 w2 Hv Hc. rewrite !run_bind.
  destruct (Ht w1 w2 Hv Hc) as (Hr & Hv' & Hc').
  destruct (run t w1) as [[a1 | e1] u1], (run t w2) as [[a2 | e2] u2];
    simpl in *; try discriminate.
  - inversion Hr; subst. now apply Hf.
  - inversion Hr; subst. repeat split; auto.
Qed.

(** A block that always returns and leaves the relay alone. *)
Lemma relay_det_silent {A} (t : Prog A) (a : A) :
  keeps_relay t -> (forall w, fst (run t w) = Ok a) -> relay_det t.
Proof.
  intros Hk Hok w1 w2 Hv Hc.
  destruct (Hk w1) as [H1 H1'], (Hk w2) as [H2 H2'].
  rewrite !Hok. repeat split; congruence.
Qed.

Lemma relay_det_ret {A} (a : A) : relay_det (ret a).
Proof. intros w1 w2 Hv Hc. auto. Qed.

Lemma relay_det_logger lvl msg : relay_det (logger lvl msg).
Proof. intros w1 w2 Hv Hc. auto. Qed.

Lemma relay_det_now : relay_det now.
Proof. intros w1 w2 Hv Hc. simpl. repeat split; congruence. Qed.

(** A local step that reads and writes the relay only. *)
Lemma relay_det_local {A} (op : World -> Result A * World) :
  (forall w1 w2, relay_view w1 = relay_view w2 -> clock w1 = clock w2 ->
     fst (op w1) = fst (op w2) /\
     relay_view (snd (op w1)) = relay_view (snd (op w2)) /\
     clock (snd (op w1)) = clock (snd (op w2))) ->
  relay_det (local op).
Proof. intros H w1 w2 Hv Hc. rewrite !run_local. now apply H. Qed.

Lemma relay_det_get_connections : relay_det get_connections.
Proof.
  apply relay_det_local. intros w1 w2 Hv Hc. simpl. repeat split; auto.
  unfold relay_view in Hv. congruence.
Qed.

Lemma relay_det_set_connections f :
  relay_det (local (fun w => (Ok tt, set_connections f w))).
Proof.
  apply relay_det_local. intros w1 w2 Hv Hc. simpl. repeat split; auto.
  unfold relay_view in *. simpl. congruence.
Qed.

Lemma relay_det_set_chat f :
  relay_det (local (fun w => (Ok tt, set_chat f w))).
Proof.
  apply relay_det_local. intros w1 w2 Hv Hc. simpl. repeat split; auto.
  unfold relay_view in *. simpl. congruence.
Qed.

Lemma relay_det_pop_connection code cid : relay_det (pop_connection code cid).
Proof. apply relay_det_set_connections. Qed.

Lemma relay_det_broadcast code m ex : relay_det (broadcast_to_meeting code m ex).
Proof.
  intros w1 w2 Hv Hc. split; [| split].
  - destruct (broadcast_no_raise code m ex w1) as [[] H1].
    destruct (broadcast_no_raise code m ex w2) as [[] H2]. congruence.
  - now apply broadcast_relay_determined.
  - destruct (broadcast_keeps_store code m ex w1) as [_ H1].
    destruct (broadcast_keeps_store code m ex w2) as [_ H2]. congruence.
Qed.

Lemma relay_det_persist (persist : Prog unit) msg :
  keeps_relay persist ->
  relay_det (try_except persist (fun _ => logger ERROR msg ;; db_rollback)).
Proof.
  intro Hk. apply relay_det_silent with (a := tt).
  - apply keeps_relay_try_except; auto. intro e. frames.
  - intro w. rewrite run_try_except.
    destruct (run persist w) as [[[] | e] w']; reflexivity.
Qed.
End RelayDet.

Lemma unregister_relay_det code cid : relay_det (unregister code cid).
Proof.
  unfold unregister. apply relay_det_bind; [apply relay_det_get_connections |].
  intro conns. destruct (dict_mem code conns); [| apply relay_det_ret].
  apply relay_det_bind; [apply relay_det_pop_connection |]. intros _.
  apply relay_det_bind; [apply relay_det_get_connections |]. intro conns'.
  destruct (dict_get code conns') as [[| kv room] |];
    try apply relay_det_set_connections.
  apply relay_det_bind; [apply relay_det_now |]. intro ts. apply relay_det_broadcast.
Qed.

Lemma handle_disconnect_relay_det code cid ip : relay_det (handle_disconnect code cid ip).
Proof.
  unfold handle_disconnect.
  apply relay_det_bind; [apply relay_det_persist, persist_leave_keeps_relay |]. intros _.
  apply relay_det_bind; [apply unregister_relay_det |]. intros _.
  apply relay_det_logger.
Qed.

Lemma handle_media_toggle_relay_det code cid msg media :
  relay_det (handle_media_toggle code cid msg media).
Proof.
  unfold handle_media_toggle.
  apply relay_det_bind; [apply relay_det_persist, persist_media_toggle_keeps_relay |].
  intros _. apply relay_det_broadcast.
Qed.

Lemma handle_join_message_relay_det code cid msg :
  relay_det (handle_join_message code cid msg).
Proof.
  unfold handle_join_message. destruct (dict_get "displayName" msg); [| apply relay_det_ret].
  apply relay_det_bind; [apply relay_det_persist, persist_display_name_keeps_relay |].
  intros _. apply relay_det_broadcast.
Qed.

Lemma log_chat_message_returns code cid msg w :
  fst (run (log_chat_message code cid msg) w) = Ok tt.
Proof.
  unfold log_chat_message. rewrite run_try_except.
  destruct (run _ w) as [[[] | e] w']; reflexivity.
Qed.

Lemma handle_chat_message_relay_det code cid msg :
  relay_det (handle_chat_message code cid msg).
Proof.
  unfold handle_chat_message.
  apply relay_det_bind; [apply relay_det_now |]. intro ts.
  apply relay_det_bind; [apply relay_det_set_chat |]. intros _.
  apply relay_det_bind.
  - apply relay_det_silent with (a := tt).
    + apply keeps_relay_try_except; [apply log_chat_message_keeps_relay | intro; frames].
    + intro w. rewrite run_try_except, (surjective_pairing (run _ w)),
        log_chat_message_returns. reflexivity.
  - intros _. apply relay_det_bind; [apply relay_det_broadcast |]. intros _.
    apply relay_det_logger.
Qed.

(** ** The persistence blocks, case by case *)

(** Opens a block that starts with the lookup by client id. *)
Ltac by_lookup cid w :=
  run_step; case_db; wsimpl; auto;
  destruct (select_by_client cid (db w)) as [| ?p [| ?p' ?l]]; run_step; wsimpl; auto.


Lemma persist_media_toggle_no_match cid enabled media w :
  length (select_by_client cid (db w)) <> 1 ->
  db (snd (run (persist_media_toggle cid enabled media) w)) = db w /\
  logs (snd (run (persist_media_toggle cid enabled media) w)) = logs w.
Proof.
  intro H. unfold persist_media_toggle. by_lookup cid w.
  simpl in H. congruence.
Qed.


(** The [except] branch of a persistence block leaves the store as the
    block left it. *)
Lemma guarded_db (persist : Prog unit) msg w :
  db (snd (run (try_except persist (fun _ => logger ERROR msg ;; db_rollback)) w)) =
  db (snd (run persist w)).
Proof.
  rewrite run_try_except. destruct (run persist w) as [[[] | e] w']; reflexivity.
Qed.

Lemma run_unregister code cid w :
  run (unregister code cid) w =
  match dict_get code (active_connections w) with
  | None => (Ok tt, w)
  | Some room =>
      let w1 := set_connections (dict_update code (dict_pop cid)) w in
      match dict_pop cid room with
      | [] => (Ok tt, set_connections (dict_pop code) w1)
      | room1 =>
          (Ok tt, broadcast_result code (user_left_event cid (clock w)) None room1 w1)
      end
  end.
Proof.
  unfold unregister, dict_mem. run_step.
  destruct (dict_get code (active_connections w)) as [room |] eqn:E; run_step; auto.
  wsimpl. rewrite dict_get_update_same, E. simpl option_map. cbv zeta.
  destruct (dict_pop cid room) as [| kv room1] eqn:P; run_step; auto.
  wsimpl. rewrite run_broadcast_to_meeting. wsimpl.
  now rewrite dict_get_update_same, E; simpl; rewrite P.
Qed.

Lemma unregister_keeps_store code cid : keeps_store (unregister code cid).
Proof.
  intro w. rewrite run_unregister.
  destruct (dict_get code (active_connections w)) as [room |]; auto.
  cbv zeta. destruct (dict_pop cid room); auto.
Qed.



(** After a block that cannot raise, a continuation that keeps the store
    leaves the database as the block left it. *)
Lemma seq_db {A B} (t : Prog A) (k : Prog B) w :
  no_raise t -> keeps_store k ->
  db (snd (run (t ;; k) w)) = db (snd (run t w)).
Proof.
  intros Ht Hk. rewrite run_seq by assumption.
  destruct (Hk (snd (run t w))) as [Hs _]. unfold store_view in Hs. congruence.
Qed.


Lemma handle_media_toggle_db code cid msg media w :
  db (snd (run (handle_media_toggle code cid msg media) w)) =
  db (snd (run (persist_media_toggle cid (get_or "enabled" (JBool true) msg) media) w)).
Proof.
  unfold handle_media_toggle. cbv zeta. rewrite seq_db.
  - apply guarded_db.
  - frames.
  - apply broadcast_keeps_store.
Qed.

Lemma handle_join_message_db code cid msg name w :
  dict_get "displayName" msg = Some name ->
  db (snd (run (handle_join_message code cid msg) w)) =
  db (snd (run (persist_display_name cid name) w)).
Proof.
  intro Hn. unfold handle_join_message. rewrite Hn. rewrite seq_db.
  - apply guarded_db.
  - frames.
  - apply broadcast_keeps_store.
Qed.


Lemma keeps_store_db {A} (t : Task A) w : keeps_store t -> db (snd (run t w)) = db w.
Proof.
  intro H. destruct (H w) as [Hs _]. exact (f_equal fst Hs).
Qed.


(** ** The dispatcher *)

Lemma run_dispatch_toggle code cid fields kind media w :
  (kind, media) = ("audio-toggle", "audio") \/ (kind, media) = ("video-toggle", "video") ->
  get_or "type" JNull fields = JStr kind ->
  run (dispatch code cid (JObj fields)) w =
  run (handle_media_toggle code cid fields media) (push_log INFO ("Message from " ++ cid) w).
Proof.
  intros [H | H] Ht; inversion H; subst; unfold dispatch; rewrite Ht;
    rewrite run_bind, run_logger; reflexivity.
Qed.

Lemma broadcast_reaches code m w room c ws :
  dict_get code (active_connections w) = Some room ->
  In (c, ws) room -> is_broken w ws = false ->
  In (ws, m) (outbox (snd (run (broadcast_to_meeting code m None) w))).
Proof.
  intros Hroom Hin Hbk. rewrite run_broadcast_to_meeting, Hroom. simpl.
  apply in_or_app. right. unfold deliveries.
  apply in_map_iff. exists (c, ws). split; auto.
  apply filter_In. split; auto. unfold will_deliver. simpl. now rewrite Hbk.
Qed.

Lemma relay_view_outbox w1 w2 : relay_view w1 = relay_view w2 -> outbox w1 = outbox w2.
Proof. unfold relay_view. congruence. Qed.

Lemma relay_view_connections w1 w2 :
  relay_view w1 = relay_view w2 -> active_connections w1 = active_connections w2.
Proof. unfold relay_view. congruence. Qed.

Lemma relay_view_chat w1 w2 :
  relay_view w1 = relay_view w2 -> chat_messages w1 = chat_messages w2.
Proof. unfold relay_view. congruence. Qed.

(** C10.  An audio-toggle or video-toggle message without an [enabled]
    field is handled as [enabled = true]: the handler returns normally and
    the relay ends as after a broadcast, to the whole room with nobody
    left out, of the event of the same kind carrying the sender's client
    id and [true], so every registered handle that accepts the send, the
    sender's included, receives it.  When no participant row has the
    sender's client id the database is left as it was: no flag is
    written and no audit row is appended. *)
Theorem toggle_defaults_to_enabled (w : World) (code cid : string)
    (fields : PyDict Json) (kind media : string) :
  (kind, media) = ("audio-toggle", "audio") \/ (kind, media) = ("video-toggle", "video") ->
  get_or "type" JNull fields = JStr kind ->
  dict_get "enabled" fields = None ->
  let r := run (dispatch code cid (JObj fields)) w in
  let event := JObj [("type", JStr kind); ("clientId", JStr cid); ("enabled", JBool true)] in
  fst r = Ok tt /\
  relay_view (snd r) = relay_view (exec (broadcast_to_meeting code event None) w) /\
  (forall room c ws,
     dict_get code (active_connections w) = Some room ->
     In (c, ws) room -> is_broken w ws = false ->
     In (ws, event) (outbox (snd r))) /\
  (select_by_client cid (db w) = [] -> db (snd r) = db w).
Proof.
  intros Hkind Htype Hen r event. subst r.
  rewrite (run_dispatch_toggle code cid fields kind media w Hkind Htype).
  set (w0 := push_log INFO ("Message from " ++ cid) w).
  assert (Hev : toggle_event cid (get_or "enabled" (JBool true) fields) media = event).
  { unfold toggle_event, get_or. rewrite Hen.
    destruct Hkind as [H | H]; inversion H; subst; reflexivity. }
  assert (Hrel : relay_view (snd (run (handle_media_toggle code cid fields media) w0)) =
                 relay_view (exec (broadcast_to_meeting code event None) w)).
  { unfold handle_media_toggle. cbv zeta. rewrite Hev.
    destruct (persist_then_broadcast
                (persist_media_toggle cid (get_or "enabled" (JBool true) fields) media)
                ("Error updating " ++ media ++ " status") code event None w0
                (persist_media_toggle_keeps_relay _ _ _)) as (_ & H2 & _).
    rewrite H2. now apply broadcast_relay_determined. }
  split; [| split; [| split]].
  - unfold handle_media_toggle. cbv zeta.
    now destruct (persist_then_broadcast
                (persist_media_toggle cid (get_or "enabled" (JBool true) fields) media)
                ("Error updating " ++ media ++ " status") code
                (toggle_event cid (get_or "enabled" (JBool true) fields) media) None w0
                (persist_media_toggle_keeps_relay _ _ _)) as (H1 & _).
  - exact Hrel.
  - intros room c ws Hroom Hin Hbk.
    rewrite (relay_view_outbox _ _ Hrel). unfold exec.
    now apply broadcast_reaches with (room := room) (c := c).
  - intro Hrows. rewrite handle_media_toggle_db.
    apply (persist_media_toggle_no_match cid _ media w0).
    subst w0. wsimpl. rewrite Hrows. simpl. discriminate.
Qed.

Lemma toggle_defaults_to_enabled_witness :
  fst (run (dispatch "abc1234567" "Z" (JObj [("type", JStr "video-toggle")])) demo_world)
  = Ok tt.
Proof.
  refine (proj1 (toggle_defaults_to_enabled demo_world "abc1234567" "Z"
                   [("type", JStr "video-toggle")] "video-toggle" "video"
                   (or_intror eq_refl) eq_refl eq_refl)).
Defined.

Example toggle_without_enabled :
  let w' := exec (dispatch "abc1234567" "Z" (JObj [("type", JStr "video-toggle")]))
              demo_world in
  outbox w' =
    [(1, JObj [("type", JStr "video-toggle"); ("clientId", JStr "Z"); ("enabled", JBool true)]);
     (3, JObj [("type", JStr "video-toggle"); ("clientId", JStr "Z"); ("enabled", JBool true)])]
  /\ db w' = demo_db.
Proof. split; reflexivity. Qed.

(** ** handle_disconnect *)




Lemma dict_get_filter_pop {V} (f : string * V -> bool) (k : string) (d : PyDict V) :
  dict_get k (filter f (dict_pop k d)) = None.
Proof.
  apply dict_get_None_keys. unfold dict_keys, dict_pop. intro Hin.
  apply in_map_iff in Hin as [[k' v] [Hk Hin]]. simpl in Hk. subst k'.
  apply filter_In in Hin as [Hin _]. apply filter_In in Hin as [_ Hneq].
  simpl in Hneq. now rewrite String.eqb_refl in Hneq.
Qed.

Lemma run_unregister_ok code cid w : fst (run (unregister code cid) w) = Ok tt.
Proof.
  rewrite run_unregister. destruct (dict_get code (active_connections w)) as [room |]; auto.
  cbv zeta. destruct (dict_pop cid room); auto.
Qed.

Lemma handle_disconnect_relay code cid ip w :
  fst (run (handle_disconnect code cid ip) w) = Ok tt /\
  relay_view (snd (run (handle_disconnect code cid ip) w)) =
    relay_view (snd (run (unregister code cid) w)).
Proof.
  unfold handle_disconnect. rewrite run_seq by frames.
  set (w1 := snd (run (try_except (persist_leave cid ip) _) w)).
  assert (Hk : relay_view w1 = relay_view w /\ clock w1 = clock w).
  { subst w1. apply keeps_relay_try_except; [apply persist_leave_keeps_relay |].
    intro e. frames. }
  destruct Hk as [Hv Hc].
  rewrite run_bind, (surjective_pairing (run (unregister code cid) w1)), run_unregister_ok.
  run_step. wsimpl. split; auto.
  destruct (unregister_relay_det code cid w1 w Hv Hc) as (_ & H & _).
  rewrite <- H. reflexivity.
Qed.






(** The scenario of the specification: A leaves, B and C remain. *)
Example disconnect_scenario :
  let w' := exec (handle_disconnect "abc1234567" "A" None)
              (mkWorld [("abc1234567", demo_room)] [("abc1234567", [JStr "kept"])]
                 demo_db [] [] [] [] [] "t0") in
  outbox w' = [(2, user_left_event "A" "t0"); (3, user_left_event "A" "t0")] /\
  active_connections w' = [("abc1234567", [("B", 2); ("C", 3)])] /\
  chat_messages w' = [("abc1234567", [JStr "kept"])].
Proof. repeat split; reflexivity. Qed.

(** Whatever the state, the client id is unregistered afterwards. *)
Lemma unregister_removes code cid w :
  dict_get cid (room_of code (active_connections (snd (run (unregister code cid) w)))) = None.
Proof.
  rewrite run_unregister. unfold room_of.
  destruct (dict_get code (active_connections w)) as [room |] eqn:Hroom.
  - cbv zeta. destruct (dict_pop cid room) as [| kv room1] eqn:Hpop.
    + wsimpl. now rewrite dict_get_pop, String.eqb_refl.
    + unfold broadcast_result. wsimpl. rewrite <- Hpop.
      rewrite broadcast_pops, !dict_get_update_same, Hroom. simpl option_map.
      apply dict_get_filter_pop.
  - simpl. now rewrite Hroom.
Qed.

Lemma handle_disconnect_removes code cid ip w :
  dict_get cid
    (room_of code (active_connections (snd (run (handle_disconnect code cid ip) w)))) = None.
Proof.
  destruct (handle_disconnect_relay code cid ip w) as [_ Hrel].
  rewrite (relay_view_connections _ _ Hrel). apply unregister_removes.
Qed.

(** ** handle_webrtc_signal *)

Lemma run_dispatch_signal code cid fields kind w :
  kind = "offer" \/ kind = "answer" \/ kind = "ice-candidate" ->
  get_or "type" JNull fields = JStr kind ->
  run (dispatch code cid (JObj fields)) w =
  run (handle_webrtc_signal code cid fields) (push_log INFO ("Message from " ++ cid) w).
Proof.
  intros [H | [H | H]] Ht; subst; unfold dispatch; rewrite Ht;
    rewrite run_bind, run_logger; reflexivity.
Qed.

(** C5.  For an offer, answer or ice-candidate message, by what its
    [target] is.  Missing or falsy (null, the empty string, 0, false, an
    empty array or object): the handler logs a warning and returns,
    sending nothing.  Anything else with the room not registered, or a
    string that is no registered client id of the room (or a number or
    [true], which never is one): the handler returns without doing
    anything.  In these cases no exception reaches the message loop and
    the registry, the chat buffers, the sockets and the store are as
    before; only the log has grown.  A non-empty array or object with
    the room registered: the membership test raises [TypeError] into the
    message loop, nothing having been sent or changed. *)
Theorem signal_without_peer_is_dropped (w : World) (code cid : string)
    (fields : PyDict Json) (kind : string) :
  kind = "offer" \/ kind = "answer" \/ kind = "ice-candidate" ->
  get_or "type" JNull fields = JStr kind ->
  let r := run (dispatch code cid (JObj fields)) w in
  let w0 := push_log INFO ("Message from " ++ cid) w in
  let target := get_or "target" JNull fields in
  let conns := active_connections w in
  let absent :=
    dict_get code conns = None \/
    (hashable target = true /\
     forall c, target = JStr c -> dict_get c (room_of code conns) = None) in
  (dict_get "target" fields = None ->
   r = (Ok tt, push_log WARNING ("No target specified for WebRTC signal from " ++ cid) w0)) /\
  (truthy target = false ->
   r = (Ok tt, push_log WARNING ("No target specified for WebRTC signal from " ++ cid) w0)) /\
  (truthy target = true -> absent -> r = (Ok tt, w0)) /\
  (truthy target = false \/ absent ->
   fst r = Ok tt /\ relay_view (snd r) = relay_view w /\ store_view (snd r) = store_view w) /\
  (truthy target = true -> hashable target = false -> dict_get code conns <> None ->
   r = (Raise TypeError, w0)).
Proof.
  intros Hkind Htype r w0 target conns absent. subst r.
  rewrite (run_dispatch_signal code cid fields kind w Hkind Htype). fold w0.
  assert (H1 : truthy target = false ->
               run (handle_webrtc_signal code cid fields) w0 =
               (Ok tt, push_log WARNING
                         ("No target specified for WebRTC signal from " ++ cid) w0)).
  { intro Hf. unfold handle_webrtc_signal. cbv zeta. fold target. rewrite Hf. reflexivity. }
  assert (H2 : truthy target = true -> absent ->
               run (handle_webrtc_signal code cid fields) w0 = (Ok tt, w0)).
  { intros Ht Habs. unfold handle_webrtc_signal. cbv zeta. fold target. rewrite Ht.
    simpl negb. cbv iota. run_step.
    change (active_connections w0) with conns.
    destruct (dict_get code conns) as [room |] eqn:Hroom; [| reflexivity].
    destruct Habs as [Habs | [Hh Habs]]; [discriminate |].
    rewrite Hh. simpl negb. cbv iota.
    destruct target as [| b | n | c | items | obj]; try reflexivity.
    specialize (Habs c eq_refl). unfold room_of in Habs. rewrite Hroom in Habs.
    now rewrite Habs. }
  split; [| split; [| split; [| split]]].
  - intro Hn. apply H1. subst target. unfold get_or. now rewrite Hn.
  - exact H1.
  - exact H2.
  - intros [Hf | Habs].
    + rewrite (H1 Hf). subst w0. repeat split.
    + destruct (truthy target) eqn:Ht.
      * rewrite (H2 eq_refl Habs). subst w0. repeat split.
      * rewrite (H1 eq_refl). subst w0. repeat split.
  - intros Ht Hh Hroom. unfold handle_webrtc_signal. cbv zeta. fold target. rewrite Ht.
    simpl negb. cbv iota. run_step.
    change (active_connections w0) with conns.
    destruct (dict_get code conns) as [room |]; [| congruence].
    rewrite Hh. reflexivity.
Qed.

Lemma signal_without_peer_is_dropped_witness :
  run (dispatch "abc1234567" "A" (JObj [("type", JStr "offer")])) demo_world =
    (Ok tt, push_log WARNING "No target specified for WebRTC signal from A"
              (push_log INFO "Message from A" demo_world)) /\
  run (dispatch "abc1234567" "A"
         (JObj [("type", JStr "offer"); ("target", JStr "nonexistent")])) demo_world =
    (Ok tt, push_log INFO "Message from A" demo_world) /\
  run (dispatch "nosuchroom" "A"
         (JObj [("type", JStr "answer"); ("target", JArr [JStr "B"])])) demo_world =
    (Ok tt, push_log INFO "Message from A" demo_world).
Proof.
  split; [| split].
  - exact (proj1 (signal_without_peer_is_dropped demo_world "abc1234567" "A"
                    [("type", JStr "offer")] "offer" (or_introl eq_refl) eq_refl) eq_refl).
  - refine (proj1 (proj2 (proj2 (signal_without_peer_is_dropped demo_world
                    "abc1234567" "A"
                    [("type", JStr "offer"); ("target", JStr "nonexistent")] "offer"
                    (or_introl eq_refl) eq_refl)))
              eq_refl (or_intror (conj eq_refl _))).
    intros c Hc. inversion Hc. reflexivity.
  - exact (proj1 (proj2 (proj2 (signal_without_peer_is_dropped demo_world
                    "nosuchroom" "A"
                    [("type", JStr "answer"); ("target", JArr [JStr "B"])] "answer"
                    (or_intror (or_introl eq_refl)) eq_refl)))
              eq_refl (or_introl eq_refl)).
Defined.

(** C5 as stated fails.  B is registered in the room and the target
    [["B"]], a JSON array, is no client id of it, yet the handler does
    not return: the membership test cannot hash the array and raises.
    The error leaves the message loop, so the chat message that follows
    is never read, and the sender's connection ends in
    [handle_disconnect]. *)
Lemma signal_with_list_target :
  let signal := JObj [("type", JStr "offer"); ("target", JArr [JStr "B"])] in
  dict_get "B" (room_of "abc1234567" (active_connections demo_world_live)) = Some 2 /\
  fst (run (handle_webrtc_signal "abc1234567" "A"
              [("type", JStr "offer"); ("target", JArr [JStr "B"])]) demo_world_live)
    = Raise TypeError /\
  fst (run (dispatch "abc1234567" "A" signal) demo_world_live) = Raise TypeError /\
  (let r := run (message_loop "abc1234567" "A" [TextFrame (Some signal); demo_live_frame])
              demo_world_live in
   fst r = Raise TypeError /\ outbox (snd r) = [] /\
   buffer_of "abc1234567" (snd r) = []) /\
  (let w' := exec (session 1 "abc1234567" "A" None 0
                     [TextFrame (Some signal); demo_live_frame]) demo_world_live in
   dict_get "A" (room_of "abc1234567" (active_connections w')) = None /\
   In (ERROR, "Error in WebSocket for A") (logs w')).
Proof.
  repeat split; try reflexivity.
  vm_compute. auto.
Qed.

(** A registered target on a live socket gets the signal. *)
Example signal_forwarded :
  outbox (exec (dispatch "abc1234567" "A"
                  (JObj [("type", JStr "offer"); ("target", JStr "C");
                         ("data", JStr "sdp")])) demo_world)
  = [(3, JObj [("type", JStr "offer"); ("from", JStr "A"); ("data", JStr "sdp")])].
Proof. reflexivity. Qed.

(** ** The log only grows *)

Section LogGrows.
Lemma log_grows_bind {A B} (t : Prog A) (f : A -> Prog B) :
  log_grows t -> (forall a, log_grows (f a)) -> log_grows (bind t f).
Proof.
  intros Ht Hf w. rewrite run_bind. destruct (Ht w) as [m1 H1].
  destruct (run t w) as [[a | e] w1]; simpl in *; eauto.
  destruct (Hf a w1) as [m2 H2]. exists (m1 ++ m2)%list.
  now rewrite H2, H1, app_assoc.
Qed.

Lemma log_grows_try_except {A} (t : Prog A) (h : Exn -> Prog A) :
  log_grows t -> (forall e, log_grows (h e)) -> log_grows (try_except t h).
Proof.
  intros Ht Hh w. rewrite run_try_except. destruct (Ht w) as [m1 H1].
  destruct (run t w) as [[a | e] w1]; simpl in *; eauto.
  destruct (Hh e w1) as [m2 H2]. exists (m1 ++ m2)%list.
  now rewrite H2, H1, app_assoc.
Qed.

(** A step that leaves the log alone. *)
Lemma log_grows_quiet {A} (t : Task A) :
  (forall w, logs (snd (run t w)) = logs w) -> log_grows t.
Proof. intros H w. exists []. now rewrite app_nil_r. Qed.

Lemma log_grows_logger lvl msg : log_grows (logger lvl msg).
Proof. intro w. now exists [(lvl, msg)]. Qed.

Lemma log_grows_db_call {A} (f : World -> Result A * World) :
  (forall w, logs (snd (f w)) = logs w) -> log_grows (db_call f).
Proof.
  intro Hf. apply log_grows_quiet. intro w. unfold db_call. rewrite run_await.
  destruct (db_ok w); simpl; auto. now rewrite Hf.
Qed.

Lemma log_grows_scalar {A} (rows : list A) : log_grows (scalar_one_or_none rows).
Proof.
  apply log_grows_quiet. intro w. rewrite run_scalar_one_or_none.
  now destruct rows as [| x [| y l]].
Qed.

Lemma log_grows_broadcast code m ex : log_grows (broadcast_to_meeting code m ex).
Proof. intro w. apply broadcast_logs_grow. Qed.

Lemma log_grows_unregister code cid : log_grows (unregister code cid).
Proof.
  intro w. rewrite run_unregister.
  destruct (dict_get code (active_connections w)) as [room |].
  - cbv zeta. destruct (dict_pop cid room); simpl; eauto.
    exists []. now rewrite app_nil_r.
  - exists []. now rewrite app_nil_r.
Qed.
End LogGrows.

Create HintDb logs.
#[export] Hint Resolve log_grows_logger log_grows_scalar log_grows_broadcast
  log_grows_unregister : logs.
#[export] Hint Extern 1 (log_grows (ret _)) => apply log_grows_quiet; intro; reflexivity : logs.
#[export] Hint Extern 1 (log_grows (raise _)) => apply log_grows_quiet; intro; reflexivity : logs.
#[export] Hint Extern 1 (log_grows now) => apply log_grows_quiet; intro; reflexivity : logs.
#[export] Hint Extern 1 (log_grows db_rollback) => apply log_grows_quiet; intro; reflexivity : logs.
#[export] Hint Extern 1 (log_grows (db_execute _)) =>
  apply log_grows_db_call; intro; reflexivity : logs.
#[export] Hint Extern 1 (log_grows (db_commit _)) =>
  apply log_grows_db_call; intro; reflexivity : logs.
#[export] Hint Extern 1 (log_grows db_refresh) =>
  apply log_grows_db_call; intro; reflexivity : logs.

Ltac log_grows :=
  repeat first
    [ progress auto with logs
    | apply log_grows_bind
    | apply log_grows_try_except
    | lazymatch goal with
      | |- log_grows _ => fail
      | |- _ => intro
      end
    | match goal with
      | |- context [match ?x with _ => _ end] => destruct x
      end ].

Lemma handle_disconnect_log_grows code cid ip : log_grows (handle_disconnect code cid ip).
Proof. unfold handle_disconnect, persist_leave. log_grows. Qed.

Lemma log_kept {A} (t : Task A) w entry :
  log_grows t -> In entry (logs w) -> In entry (logs (snd (run t w))).
Proof.
  intros Ht Hin. destruct (Ht w) as [more Hm]. rewrite Hm. apply in_or_app. now left.
Qed.

(** ** The message loop *)

Lemma run_receive_text f w : run (receive_text (Some f)) w = (Ok f, w).
Proof. reflexivity. Qed.

Lemma run_dispatch_unknown code cid fields w :
  known_kind (get_or "type" JNull fields) = false ->
  run (dispatch code cid (JObj fields)) w = (Ok tt, push_log INFO ("Message from " ++ cid) w).
Proof.
  unfold known_kind. intro H.
  repeat (apply orb_false_elim in H; destruct H as [H ?]).
  unfold dispatch. rewrite run_bind, run_logger.
  repeat match goal with
         | Hk : json_is_str _ _ = false |- _ => rewrite Hk; clear Hk
         end.
  reflexivity.
Qed.

Lemma run_message_loop_malformed code cid f rest w :
  malformed f = true ->
  exists e, e <> WebSocketDisconnect /\
            run (message_loop code cid (f :: rest)) w = (Raise e, w).
Proof.
  intro H. destruct f as [[j |]].
  - exists AttributeError. split; [discriminate |].
    destruct j; simpl in H; try discriminate; reflexivity.
  - exists JSONDecodeError. split; [discriminate | reflexivity].
Qed.

Lemma run_message_loop_cons code cid message rest w :
  run (message_loop code cid (TextFrame (Some message) :: rest)) w =
  run (dispatch code cid message ;; message_loop code cid rest) w.
Proof. reflexivity. Qed.

(** The [finally] clause: a session always ends in [handle_disconnect]. *)
Lemma run_session ws code cid ip mid frames w :
  run (session ws code cid ip mid frames) w =
  (Ok tt,
   snd (run (handle_disconnect code cid ip)
          (snd (run (try_except
                       (announce ws code cid mid ;; message_loop code cid frames)
                       (loop_exit code cid)) w)))).
Proof.
  unfold session. rewrite run_try_finally.
  set (w1 := snd (run (try_except _ _) w)).
  destruct (handle_disconnect_relay code cid ip w1) as [Hok _].
  rewrite (surjective_pairing (run (handle_disconnect code cid ip) w1)), Hok.
  f_equal. subst w1. rewrite run_try_except.
  destruct (run (announce ws code cid mid ;; message_loop code cid frames) w)
    as [[[] | e] w2]; simpl; auto.
  destruct e; reflexivity.
Qed.

(** C6, as the code has it.  A message that is a JSON object whose
    [type] is none of the nine kinds of the [if/elif] chain is dropped:
    [dispatch] returns normally having written only the info-level line
    naming the sender (no warning), and the loop goes on to the next
    frame in that world.  A frame that is not JSON, or is JSON but not an
    object, raises in the loop: the frames after it are never read, the
    error branch of the handler logs it once the join announcements have
    gone through, and [handle_disconnect] runs, so that the client is no
    longer registered when the session returns. *)
Theorem unknown_dropped_malformed_disconnects (w : World) (ws : WebSocket)
    (code cid : string) (ip : option string) (mid : nat)
    (fields : PyDict Json) (f : Frame) (rest : list Frame) :
  (known_kind (get_or "type" JNull fields) = false ->
   run (dispatch code cid (JObj fields)) w =
     (Ok tt, push_log INFO ("Message from " ++ cid) w) /\
   run (message_loop code cid (TextFrame (Some (JObj fields)) :: rest)) w =
     run (message_loop code cid rest) (push_log INFO ("Message from " ++ cid) w)) /\
  (malformed f = true ->
   (exists e, e <> WebSocketDisconnect /\
              run (message_loop code cid (f :: rest)) w = (Raise e, w)) /\
   run (session ws code cid ip mid (f :: rest)) w = run (session ws code cid ip mid [f]) w /\
   let w' := exec (session ws code cid ip mid (f :: rest)) w in
   dict_get cid (room_of code (active_connections w')) = None /\
   (fst (run (announce ws code cid mid) w) = Ok tt ->
    In (ERROR, "Error in WebSocket for " ++ cid) (logs w'))).
Proof.
  split.
  - intro Hk. split; [now apply run_dispatch_unknown |].
    rewrite run_message_loop_cons, run_bind,
      (run_dispatch_unknown code cid fields w Hk). reflexivity.
  - intro Hm. split; [now apply run_message_loop_malformed |].
    assert (Hloop : forall l w0,
              run (announce ws code cid mid ;; message_loop code cid (f :: l)) w0 =
              run (announce ws code cid mid ;; message_loop code cid [f]) w0).
    { intros l w0. rewrite !run_bind.
      destruct (run (announce ws code cid mid) w0) as [[[] | e] w1]; auto.
      destruct (run_message_loop_malformed code cid f l w1 Hm) as (e1 & _ & H1).
      destruct (run_message_loop_malformed code cid f [] w1 Hm) as (e2 & _ & H2).
      rewrite H1, H2. destruct f as [[j |]]; simpl in H1, H2; [| congruence].
      destruct j; simpl in Hm; try discriminate; simpl in H1, H2; congruence. }
    split; [| split].
    + rewrite !run_session, !run_try_except, Hloop. reflexivity.
    + unfold exec. rewrite run_session. cbn [snd]. apply handle_disconnect_removes.
    + intro Hann. unfold exec. rewrite run_session. cbn [snd].
      apply log_kept; [apply handle_disconnect_log_grows |].
      rewrite run_try_except, run_bind.
      destruct (run (announce ws code cid mid) w) as [[[] | e] w1]; simpl in Hann;
        [| discriminate].
      destruct (run_message_loop_malformed code cid f rest w1 Hm) as (e1 & Hne & H1).
      rewrite H1. destruct e1; try congruence; simpl; apply in_or_app; right; now left.
Qed.

Lemma unknown_dropped_malformed_disconnects_witness :
  run (dispatch "abc1234567" "A" (JObj [("type", JStr "leave")])) demo_world_live =
    (Ok tt, push_log INFO "Message from A" demo_world_live) /\
  dict_get "A"
    (room_of "abc1234567"
       (active_connections
          (exec (session 1 "abc1234567" "A" None 0 [TextFrame None]) demo_world_live)))
    = None.
Proof.
  split.
  - exact (proj1 (proj1 (unknown_dropped_malformed_disconnects demo_world_live 1
                           "abc1234567" "A" None 0 [("type", JStr "leave")]
                           (TextFrame None) []) eq_refl)).
  - exact (proj1 (proj2 (proj2 (proj2 (unknown_dropped_malformed_disconnects
                           demo_world_live 1 "abc1234567" "A" None 0 []
                           (TextFrame None) []) eq_refl)))).
Defined.

(** C6 as stated fails: a frame that is not JSON ends the connection.
    Client A, registered and active, sends such a frame followed by a
    chat message: the session returns with A unregistered and its row
    inactive, the chat message never handled, an error (not a warning)
    in the log; and an unknown kind leaves no warning either. *)
Lemma malformed_frame_ends_connection :
  let chat := TextFrame (Some (JObj [("type", JStr "chat-message"); ("message", JStr "hi")])) in
  let w' := exec (session 1 "abc1234567" "A" None 0 [TextFrame None; chat])
              demo_world_live in
  dict_get "A" (room_of "abc1234567" (active_connections demo_world_live)) = Some 1 /\
  dict_get "A" (room_of "abc1234567" (active_connections w')) = None /\
  map (fun p => (p_client_id p, p_is_active p)) (participants (db w'))
    = [("A", false); ("B", true); ("C", true)] /\
  chat_messages w' = [("abc1234567", [])] /\
  filter (fun l => match fst l with WARNING => true | _ => false end) (logs w') = [] /\
  In (ERROR, "Error in WebSocket for A") (logs w') /\
  logs (exec (dispatch "abc1234567" "A" (JObj [("type", JStr "leave")])) demo_world_live)
    = [(INFO, "Message from A")].
Proof. repeat split; try reflexivity. simpl. auto 10. Qed.

(** ** Connection setup *)

Lemma run_handle_websocket ws code cid ip ua frames w :
  run (handle_websocket ws code cid ip ua frames) w =
  match run (setup_session ws code cid ip ua)
          (push_log INFO ("WebSocket connection: " ++ cid ++ " joining " ++ code) w) with
  | (Ok None, w1) => (Ok tt, w1)
  | (Ok (Some m), w1) =>
      run (register_connection ws code cid ;;
           session ws code cid ip (meeting_id_of m) frames) w1
  | (Raise e, w1) => (Raise e, w1)
  end.
Proof.
  unfold handle_websocket, websocket_accept.
  rewrite run_bind, run_await. cbn beta iota.
  rewrite run_bind, run_logger. cbn beta iota. rewrite run_bind.
  destruct (run (setup_session ws code cid ip ua) _) as [[[m |] | e] w1]; reflexivity.
Qed.

Lemma run_setup_session ws code cid ip ua w :
  run (setup_session ws code cid ip ua) w =
  match run (create_participant ws code cid ip ua) w with
  | (Ok m, w1) => (Ok m, w1)
  | (Raise e, w1) =>
      (Ok None,
       push_closed ws 1011 "Internal server error"
         (push_log ERROR "Error creating participant" w1))
  end.
Proof.
  unfold setup_session. rewrite run_try_except.
  destruct (run (create_participant ws code cid ip ua) w) as [[m | e] w1]; reflexivity.
Qed.

Lemma create_participant_not_found ws code cid ip ua w :
  select_meeting code (db w) = [] -> db_ok w = true ->
  run (create_participant ws code cid ip ua) w =
  (Ok None, push_closed ws 1008 "Meeting not found" (db_tick w)).
Proof.
  intros Hrows Hok. unfold create_participant. run_step. rewrite Hok. wsimpl.
  rewrite Hrows. run_step. reflexivity.
Qed.

Lemma create_participant_raises ws code cid ip ua e w :
  fst (run (create_participant ws code cid ip ua) w) = Raise e ->
  closed (snd (run (create_participant ws code cid ip ua) w)) = closed w.
Proof.
  unfold create_participant. run_step.
  case_db; wsimpl; auto.
  destruct (select_meeting code (db w)) as [| m [| m' l]]; run_step; wsimpl; auto.
  - discriminate.
  - repeat (case_db; run_step; wsimpl; auto); try discriminate.
Qed.

(** C7.  A connection attempt for a code no meeting has is closed with
    code 1008 and the handler returns: the store, the registry, the chat
    buffers and the sockets are as before.  When the block that creates
    the participant record raises (any call into the store failing), the
    connection is closed with code 1011 and the handler returns without
    registering the handle: the registry and the chat buffers are as
    before and nothing has been sent. *)
Theorem connection_refused (w : World) (ws : WebSocket) (code cid : string)
    (ip : option string) (ua : string) (frames : list Frame) :
  let w0 := push_log INFO ("WebSocket connection: " ++ cid ++ " joining " ++ code) w in
  let r := run (handle_websocket ws code cid ip ua frames) w in
  (select_meeting code (db w) = [] -> db_ok w = true ->
   fst r = Ok tt /\
   closed (snd r) = (closed w ++ [(ws, 1008, "Meeting not found")])%list /\
   db (snd r) = db w /\
   active_connections (snd r) = active_connections w /\
   chat_messages (snd r) = chat_messages w /\
   outbox (snd r) = outbox w) /\
  (forall e,
     fst (run (create_participant ws code cid ip ua) w0) = Raise e ->
     fst r = Ok tt /\
     closed (snd r) = (closed w ++ [(ws, 1011, "Internal server error")])%list /\
     active_connections (snd r) = active_connections w /\
     chat_messages (snd r) = chat_messages w /\
     outbox (snd r) = outbox w).
Proof.
  intros w0 r. subst r. rewrite run_handle_websocket, run_setup_session. fold w0. split.
  - intros Hrows Hok.
    rewrite (create_participant_not_found ws code cid ip ua w0 Hrows Hok).
    repeat split.
  - intros e He.
    pose proof (create_participant_raises ws code cid ip ua e w0 He) as Hcl.
    pose proof (create_participant_keeps_relay_but_close ws code cid ip ua w0)
      as (Hc & Hm & Ho).
    destruct (run (create_participant ws code cid ip ua) w0) as [[m | e'] w1];
      simpl in He; [discriminate |].
    simpl in *. rewrite Hcl, Hc, Hm, Ho. repeat split.
Qed.

Lemma connection_refused_witness :
  closed (exec (handle_websocket 7 "nomeeting0" "D" None "ua" []) demo_world)
    = [(7, 1008, "Meeting not found")] /\
  closed (exec (handle_websocket 7 "abc1234567" "D" None "ua" []) demo_world_down)
    = [(7, 1011, "Internal server error")].
Proof.
  split.
  - exact (proj1 (proj2 (proj1 (connection_refused demo_world 7 "nomeeting0" "D" None
                                  "ua" []) eq_refl eq_refl))).
  - exact (proj1 (proj2 (proj2 (connection_refused demo_world_down 7 "abc1234567" "D"
                                  None "ua" []) DBAPIError eq_refl))).
Defined.

(** When it is [db.refresh] that fails, the row has been committed: the
    connection is refused and never registered, and the row stays active. *)
Example refused_after_commit :
  let w' := exec (handle_websocket 7 "abc1234567" "D" None "ua" [])
              (set_script [true; true; true; false] demo_world) in
  closed w' = [(7, 1011, "Internal server error")] /\
  active_connections w' = active_connections demo_world /\
  map (fun p => (p_client_id p, p_is_active p)) (participants (db w'))
    = [("A", true); ("B", true); ("C", true); ("D", true)].
Proof. repeat split; reflexivity. Qed.

(** ** The join transition *)

Lemma dict_get_init {V} (k : string) (e : V) (d : PyDict V) :
  dict_get k (dict_init k e d) = Some (match dict_get k d with Some v => v | None => e end).
Proof.
  unfold dict_init, dict_mem. destruct (dict_get k d) eqn:E; auto.
  apply dict_get_set_same.
Qed.

Lemma run_lookup_display_name cid w :
  exists name w',
    run (lookup_display_name cid) w = (Ok name, w') /\
    relay_view w' = relay_view w /\ clock w' = clock w /\
    db w' = db w /\ db_script w' = tl (db_script w).
Proof.
  unfold lookup_display_name. run_step. case_db; wsimpl.
  - destruct (select_by_client cid (db w)) as [| p [| p' l]]; run_step;
      eexists; eexists; (split; [reflexivity |]); repeat split.
  - run_step. eexists; eexists; (split; [reflexivity |]); repeat split.
Qed.

Lemma run_send_participants_update ws code mid w :
  is_broken w ws = false ->
  let plist := dict_keys (room_of code (active_connections w)) in
  let pdata :=
    if db_ok w then participants_data_of plist (select_active mid (db w))
    else participants_data_fallback plist in
  fst (run (send_participants_update ws code mid) w) = Ok tt /\
  outbox (snd (run (send_participants_update ws code mid) w)) =
    (outbox w ++ [(ws, participants_update plist pdata)])%list /\
  active_connections (snd (run (send_participants_update ws code mid) w)) =
    active_connections w.
Proof.
  intros Hbk plist pdata. subst plist pdata.
  unfold send_participants_update. run_step.
  case_db; run_step; wsimpl; unfold is_broken in *; wsimpl; rewrite Hbk;
    repeat split.
Qed.

Lemma run_register_connection ws code cid w :
  run (register_connection ws code cid) w = (Ok tt, registered ws code cid w).
Proof. reflexivity. Qed.

(** Local steps run on without a pause. *)
Lemma advance_local_bind {A B} (op : World -> Result A * World) (k : A -> Prog B) w :
  advance (bind (local op) k) w =
  match op w with
  | (Ok a, w') => advance (k a) w'
  | (Raise e, w') => (Ret (Raise e), w')
  end.
Proof. unfold local; simpl. destruct (op w) as [[a | e] w']; reflexivity. Qed.

Lemma registered_buffer ws code cid w :
  dict_get code (chat_messages (registered ws code cid w)) = Some (buffer_of code w).
Proof. unfold registered, buffer_of. wsimpl. apply dict_get_init. Qed.

(** The join up to its last send. *)
Lemma run_join ws code cid mid w :
  is_broken w ws = false ->
  exists name joined w4,
    run (join ws code cid mid) w = run (send_participants_update ws code mid) w4 /\
    outbox w4 = (outbox w ++ (ws, chat_history (buffer_of code w)) :: joined)%list /\
    Forall (fun d => snd d = user_joined_event cid name (clock w)) joined /\
    broken w4 = broken w /\ db w4 = db w /\ db_script w4 = tl (db_script w).
Proof.
  intro Hbk. unfold join. rewrite run_bind, run_register_connection. cbn beta iota.
  set (w1 := registered ws code cid w).
  assert (Hbk1 : is_broken w1 ws = false) by exact Hbk.
  unfold announce. rewrite run_bind, run_get_chat. cbn beta iota.
  unfold w1 at 1. rewrite registered_buffer. fold w1.
  rewrite run_bind, run_send_json, Hbk1. cbn beta iota.
  set (w2 := push_outbox ws (chat_history (buffer_of code w)) w1).
  destruct (run_lookup_display_name cid w2)
    as (name & w3 & Hrun & Hrel & Hclock & Hdb & Hscript).
  rewrite run_bind, Hrun. cbn beta iota.
  rewrite run_bind, run_now. cbn beta iota.
  rewrite run_bind, run_broadcast_to_meeting.
  assert (Hb3 : broken w3 = broken w)
    by (unfold relay_view in Hrel; subst w2 w1; simpl in Hrel; congruence).
  assert (Ho3 : outbox w3 = (outbox w ++ [(ws, chat_history (buffer_of code w))])%list)
    by (unfold relay_view in Hrel; subst w2 w1; simpl in Hrel; congruence).
  exists name.
  destruct (dict_get code (active_connections w3)) as [room |]; cbn beta iota.
  - exists (deliveries w3 (user_joined_event cid name (clock w3)) (Some cid) room).
    eexists. split; [reflexivity |]. unfold broadcast_result. wsimpl.
    rewrite Ho3, <- app_assoc. simpl. repeat split; auto.
    replace (clock w) with (clock w3) by exact Hclock.
    apply deliveries_carry_message.
  - exists []. eexists. split; [reflexivity |]. rewrite Ho3.
    repeat split; auto.
Qed.

(** C3, as the code has it.  A join on a socket that accepts sends
    completes, and what it puts on the wire is, in this order: to the new
    handle, [chat-history] with exactly the events of the room's buffer
    in buffer order; [user-joined] frames of the broadcast; to the new
    handle, [participants-update] with the registered client ids and,
    when the participant query succeeds, display name and audio, video
    and screen-sharing flags of every active participant row of the
    meeting whose client id is registered, but client ids alone when
    that query fails.  Registration and the [chat-history] send run
    without a suspension point between them; the join then waits on the
    store, with the handle registered and the list still to come. *)
Theorem join_delivers_history_then_participants (w : World) (ws : WebSocket)
    (code cid : string) (mid : nat) :
  is_broken w ws = false ->
  let msgs := buffer_of code w in
  let r := run (join ws code cid mid) w in
  let plist := dict_keys (room_of code (active_connections (snd r))) in
  let pdata :=
    if db_ok (db_tick w) then participants_data_of plist (select_active mid (db w))
    else participants_data_fallback plist in
  fst r = Ok tt /\
  (exists joined name,
     outbox (snd r) =
       (outbox w ++ (ws, chat_history msgs) :: joined
          ++ [(ws, participants_update plist pdata)])%list /\
     Forall (fun d => snd d = user_joined_event cid name (clock w)) joined) /\
  snd (advance (join ws code cid mid) w) =
    push_outbox ws (chat_history msgs) (registered ws code cid w).
Proof.
  intros Hbk msgs r plist pdata.
  split; [| split].
  3: { unfold join, register_connection. rewrite advance_local_bind. cbn beta iota.
       fold (registered ws code cid w).
       unfold announce, get_chat. rewrite advance_local_bind. cbn beta iota.
       rewrite registered_buffer. unfold send_json. rewrite advance_local_bind.
       change (is_broken (registered ws code cid w) ws) with (is_broken w ws).
       rewrite Hbk. reflexivity. }
  all: destruct (run_join ws code cid mid w Hbk)
         as (name & joined & w4 & Hrun & Hout & Hj & Hb & Hdb & Hs);
    assert (Hbk4 : is_broken w4 ws = false) by (unfold is_broken in *; now rewrite Hb);
    destruct (run_send_participants_update ws code mid w4 Hbk4) as (H1 & H2 & H3);
    subst r plist pdata; rewrite Hrun.
  - exact H1.
  - exists joined, name. split; auto.
    rewrite H2, H3, Hout, Hdb.
    replace (db_ok w4) with (db_ok (db_tick w))
      by (unfold db_ok; now rewrite Hs).
    rewrite <- app_assoc. reflexivity.
Qed.

Lemma join_delivers_history_then_participants_witness :
  fst (run (join 4 "abc1234567" "D" 0) demo_world_chat) = Ok tt.
Proof.
  exact (proj1 (join_delivers_history_then_participants demo_world_chat 4
                  "abc1234567" "D" 0 eq_refl)).
Defined.

Example join_scenario :
  frames_to 4 (outbox (exec (join 4 "abc1234567" "D" 0) demo_world_chat)) =
  [chat_history [demo_old_chat];
   participants_update ["A"; "B"; "C"; "D"]
     (map participant_entry (participants demo_db))] /\
  frames_to 2 (outbox (exec (join 4 "abc1234567" "D" 0) demo_world_chat)) =
  [user_joined_event "D" JNull "t0"].
Proof. split; reflexivity. Qed.

(** C3 as stated fails, twice over.  With the participant query failing,
    D's join completes and its participant list carries client ids
    without any flag.  And with B's chat message handled while D's join
    waits on the store, D receives the live chat message after
    [chat-history] and before the participant list. *)
Lemma join_list_without_flags_or_after_live_chat :
  (let r := run (join 4 "abc1234567" "D" 0) (set_script [true; false] demo_world_chat) in
   fst r = Ok tt /\
   frames_to 4 (outbox (snd r)) =
   [chat_history [demo_old_chat];
    participants_update ["A"; "B"; "C"; "D"]
      [JObj [("clientId", JStr "A")]; JObj [("clientId", JStr "B")];
       JObj [("clientId", JStr "C")]; JObj [("clientId", JStr "D")]]]) /\
  (let tasks := [handle_websocket 4 "abc1234567" "D" None "ua" [];
                 message_loop "abc1234567" "B" [demo_live_frame]] in
   let w' := snd (run_schedule [0; 0; 0; 0; 0; 1; 1; 1; 1; 0; 0] tasks demo_world_chat) in
   frames_to 4 (outbox w') =
   [chat_history [demo_old_chat];
    chat_event "B" [("message", JStr "live")] "t0";
    participants_update ["A"; "B"; "C"; "D"]
      (map participant_entry
         (participants demo_db ++ [new_participant 0 "D" None "ua" false 13]))]).
Proof.
  split.
  - split; vm_compute; reflexivity.
  - vm_compute. reflexivity.
Qed.

(** ** Host election *)

Lemma active_hosts_among_active mid d :
  length (active_hosts mid d) <= count_active mid d.
Proof.
  unfold active_hosts, count_active.
  induction (participants d) as [| p l IH]; simpl; auto.
  destruct ((p_meeting_id p =? mid)%nat && p_is_active p); simpl.
  - destruct (p_is_host p); simpl; lia.
  - exact IH.
Qed.

Lemma active_hosts_add mid mid' cid ip ua host d entry :
  active_hosts mid'
    (add_log entry (add_participant (new_participant mid cid ip ua host) d)) =
  (active_hosts mid' d ++
   if (mid =? mid')%nat && host
   then [new_participant mid cid ip ua host (next_uuid d)] else [])%list.
Proof.
  unfold active_hosts, add_log, add_participant. simpl. rewrite filter_app. simpl.
  rewrite andb_true_r. now destruct ((mid =? mid')%nat && host).
Qed.

(** Run without interleaving, the count-then-insert step keeps the
    invariant: the host flag is given only when nobody is active. *)
Lemma setup_session_keeps_host_invariant ws code cid ip ua w :
  host_invariant (db w) ->
  host_invariant (db (snd (run (setup_session ws code cid ip ua) w))).
Proof.
  intro Hinv. rewrite run_setup_session.
  assert (Hcases :
    db (snd (run (create_participant ws code cid ip ua) w)) = db w \/
    exists m, db (snd (run (create_participant ws code cid ip ua) w)) =
      add_log (join_log (meeting_id_of m) cid ip)
        (add_participant
           (new_participant (meeting_id_of m) cid ip ua
              (count_active (meeting_id_of m) (db w) =? 0)%nat) (db w))).
  { unfold create_participant. run_step. case_db; wsimpl; auto.
    destruct (select_meeting code (db w)) as [| m [| m' l]]; run_step; wsimpl; auto.
    case_db; run_step; wsimpl; auto.
    case_db; run_step; wsimpl; auto.
    right. exists m. case_db; run_step; wsimpl; reflexivity. }
  assert (Hdb : db (snd (let (r, w1) := run (create_participant ws code cid ip ua) w in
                         match r with
                         | Ok m => (Ok m, w1)
                         | Raise _ =>
                             (Ok None,
                              push_closed ws 1011 "Internal server error"
                                (push_log ERROR "Error creating participant" w1))
                         end)) =
                db (snd (run (create_participant ws code cid ip ua) w))).
  { destruct (run (create_participant ws code cid ip ua) w) as [[m | e] w1]; reflexivity. }
  rewrite Hdb. destruct Hcases as [H | [m H]]; rewrite H; [exact Hinv |].
  intro mid'. rewrite active_hosts_add, length_app.
  destruct (Nat.eqb_spec (meeting_id_of m) mid') as [Heq | Hne]; simpl.
  - subst mid'. destruct (Nat.eqb_spec (count_active (meeting_id_of m) (db w)) 0) as [H0 | H0];
      simpl.
    + pose proof (active_hosts_among_active (meeting_id_of m) (db w)). lia.
    + specialize (Hinv (meeting_id_of m)). lia.
  - specialize (Hinv mid'). lia.
Qed.

(** C1 at the failing input.  Two connections join the empty room
    "abc1234567" at once: each is resumed twice (accept, meeting lookup),
    then each runs its count of active participants, and only then does
    each commit its row.  Both counts are 0, both rows are written with
    the host flag, and the room has two active hosts although the store
    satisfied the invariant before. *)
Theorem concurrent_first_joiners_both_host :
  let tasks := [handle_websocket 1 "abc1234567" "A" None "ua" [];
                handle_websocket 2 "abc1234567" "B" None "ua" []] in
  let w' := snd (run_schedule [0; 0; 1; 1; 0; 1; 0; 1] tasks demo_world_empty) in
  host_invariant (db demo_world_empty) /\
  map (fun p => (p_client_id p, p_meeting_id p, p_is_active p, p_is_host p))
    (participants (db w'))
    = [("A", 0, true, true); ("B", 0, true, true)] /\
  length (active_hosts 0 (db w')) = 2 /\
  ~ host_invariant (db w').
Proof.
  cbv zeta.
  assert (Hn : length (active_hosts 0 (db (snd (run_schedule [0; 0; 1; 1; 0; 1; 0; 1]
              [handle_websocket 1 "abc1234567" "A" None "ua" [];
               handle_websocket 2 "abc1234567" "B" None "ua" []] demo_world_empty)))) = 2)
    by (vm_compute; reflexivity).
  split; [| split; [| split]].
  - intro mid. simpl. lia.
  - vm_compute. reflexivity.
  - exact Hn.
  - intro H. specialize (H 0). rewrite Hn in H. lia.
Qed.

(** The same two joins one after the other: only the first is host. *)
Example sequential_joiners_one_host :
  let tasks := [handle_websocket 1 "abc1234567" "A" None "ua" [];
                handle_websocket 2 "abc1234567" "B" None "ua" []] in
  let w' := snd (run_schedule [0; 0; 0; 0; 1; 1; 1; 1] tasks demo_world_empty) in
  map (fun p => (p_client_id p, p_is_active p, p_is_host p)) (participants (db w'))
    = [("A", true, true); ("B", true, false)].
Proof. vm_compute. reflexivity. Qed.

(** ** The event loop and the sequential run agree *)

Lemma run_advance {A} (t : Task A) (w : World) :
  run (fst (advance t w)) (snd (advance t w)) = run t w.
Proof.
  revert w; induction t as [a | B op k IH | B op k IH]; intro w; simpl; auto.
  destruct (op w) as [b w']. apply IH.
Qed.

(** Giving a task its turn does not change where it ends up when nothing
    else runs in between. *)
Lemma run_resume {A} (t : Task A) (w : World) :
  run (fst (resume t w)) (snd (resume t w)) = run t w.
Proof.
  destruct t as [a | B op k | B op k]; simpl; auto.
  - destruct (op w) as [b w']. apply run_advance.
  - destruct (op w) as [b w']. apply run_advance.
Qed.

(** ** What a connection keeps *)

Section Preserves.
Variable I : Database -> Prop.

Lemma preserves_bind {A B} (t : Prog A) (f : A -> Prog B) :
  preserves I t -> (forall a, preserves I (f a)) -> preserves I (bind t f).
Proof.
  intros Ht Hf w Hw. rewrite run_bind. specialize (Ht w Hw).
  destruct (run t w) as [[a | e] w1]; simpl in *; auto. now apply Hf.
Qed.

Lemma preserves_try_except {A} (t : Prog A) (h : Exn -> Prog A) :
  preserves I t -> (forall e, preserves I (h e)) -> preserves I (try_except t h).
Proof.
  intros Ht Hh w Hw. rewrite run_try_except. specialize (Ht w Hw).
  destruct (run t w) as [[a | e] w1]; simpl in *; auto. now apply Hh.
Qed.

Lemma preserves_try_finally {A} (t : Prog A) (fin : Prog unit) :
  preserves I t -> preserves I fin -> preserves I (try_finally t fin).
Proof.
  intros Ht Hf w Hw. rewrite run_try_finally. specialize (Ht w Hw).
  specialize (Hf _ Ht). destruct (run fin (snd (run t w))) as [[u | e] w1]; auto.
Qed.

(** A step that leaves the database alone. *)
Lemma preserves_quiet {A} (t : Task A) :
  (forall w, db (snd (run t w)) = db w) -> preserves I t.
Proof. intros H w Hw. now rewrite H. Qed.

Lemma preserves_db_commit f :
  (forall d, I d -> I (f d)) -> preserves I (db_commit f).
Proof.
  intros Hf w Hw. rewrite run_db_commit. destruct (db_ok w); simpl; auto.
Qed.

Lemma preserves_keeps_store {A} (t : Task A) : keeps_store t -> preserves I t.
Proof. intro H. apply preserves_quiet. intro w. now apply keeps_store_db. Qed.

Lemma preserves_db_execute {A} (q : Database -> A) : preserves I (db_execute q).
Proof.
  apply preserves_quiet. intro w. rewrite run_db_execute. now destruct (db_ok w).
Qed.

Lemma preserves_db_refresh : preserves I db_refresh.
Proof.
  apply preserves_quiet. intro w. rewrite run_db_refresh. now destruct (db_ok w).
Qed.

Lemma preserves_scalar {A} (rows : list A) : preserves I (scalar_one_or_none rows).
Proof.
  apply preserves_quiet. intro w. rewrite run_scalar_one_or_none.
  now destruct rows as [| x [| y l]].
Qed.

Lemma preserves_send_json ws m : preserves I (send_json ws m).
Proof.
  apply preserves_quiet. intro w. rewrite run_send_json. now destruct (is_broken w ws).
Qed.

End Preserves.

Ltac quiet := apply preserves_quiet; intro; reflexivity.

(** Walks down a handler; [Hlog], [Hupd] and [Hadd] say that the
    property survives an audit row, a benign row update and a new row. *)
Ltac preserves_step Hlog Hupd Hadd :=
  lazymatch goal with
  | |- preserves _ (broadcast_to_meeting _ _ _) =>
      apply preserves_keeps_store, broadcast_keeps_store
  | |- preserves _ (unregister _ _) =>
      apply preserves_keeps_store, unregister_keeps_store
  | |- preserves _ (bind _ _) => apply preserves_bind
  | |- preserves _ (try_except _ _) => apply preserves_try_except
  | |- preserves _ (db_execute _) => apply preserves_db_execute
  | |- preserves _ db_refresh => apply preserves_db_refresh
  | |- preserves _ (scalar_one_or_none _) => apply preserves_scalar
  | |- preserves _ (send_json _ _) => apply preserves_send_json
  | |- preserves _ (db_commit _) =>
      apply preserves_db_commit; intros;
      first [apply Hlog; try first [apply Hupd | apply Hadd] | apply Hupd]; auto
  | |- preserves _ (match ?x with _ => _ end) => destruct x
  | |- preserves _ _ => quiet
  | |- _ => intro
  end.

Ltac preserves_with Hlog Hupd Hadd := repeat preserves_step Hlog Hupd Hadd.

Lemma benign_with_left t : benign (with_left t).
Proof. intro p. repeat split. simpl. discriminate. Qed.
Lemma benign_with_display_name v : benign (with_display_name v).
Proof. intro p. repeat split; auto. Qed.
Lemma benign_with_audio_enabled v : benign (with_audio_enabled v).
Proof. intro p. repeat split; auto. Qed.
Lemma benign_with_video_enabled v : benign (with_video_enabled v).
Proof. intro p. repeat split; auto. Qed.
#[export] Hint Resolve benign_with_left benign_with_display_name
  benign_with_audio_enabled benign_with_video_enabled : core.

Section Handlers.
Variable I : Database -> Prop.
Hypothesis I_add_log : forall entry d, I d -> I (add_log entry d).
Hypothesis I_update :
  forall id g d, benign g -> I d -> I (update_participant id g d).

Ltac preserves := preserves_with I_add_log I_update I_update.

Lemma handle_disconnect_preserves code cid ip : preserves I (handle_disconnect code cid ip).
Proof. unfold handle_disconnect, persist_leave. preserves. Qed.

Lemma handle_webrtc_signal_preserves code cid fields :
  preserves I (handle_webrtc_signal code cid fields).
Proof. unfold handle_webrtc_signal. cbv zeta. preserves. Qed.

Lemma handle_chat_message_preserves code cid fields :
  preserves I (handle_chat_message code cid fields).
Proof. unfold handle_chat_message, log_chat_message. cbv zeta. preserves. Qed.

Lemma handle_join_message_preserves code cid fields :
  preserves I (handle_join_message code cid fields).
Proof. unfold handle_join_message, persist_display_name. preserves. Qed.

Lemma handle_media_toggle_preserves code cid fields media :
  preserves I (handle_media_toggle code cid fields media).
Proof.
  unfold handle_media_toggle, persist_media_toggle. cbv zeta.
  destruct (media =? "audio"); preserves.
Qed.

Lemma dispatch_preserves code cid message : preserves I (dispatch code cid message).
Proof.
  unfold dispatch. destruct message; try quiet.
  apply preserves_bind; [quiet |]. intros _.
  repeat match goal with
         | |- preserves _ (if ?c then _ else _) => destruct c
         end;
    auto using handle_webrtc_signal_preserves, handle_chat_message_preserves,
      handle_join_message_preserves, handle_media_toggle_preserves.
  all: preserves.
Qed.

Lemma message_loop_preserves code cid frames : preserves I (message_loop code cid frames).
Proof.
  induction frames as [| f rest IH]; cbn [message_loop].
  - apply preserves_bind; [quiet | intro; quiet].
  - apply preserves_bind; [quiet |]. intros [[m |]]; [| quiet].
    apply preserves_bind; [apply dispatch_preserves |]. intros _. exact IH.
Qed.

Lemma announce_preserves ws code cid mid : preserves I (announce ws code cid mid).
Proof.
  unfold announce, lookup_display_name, send_participants_update. cbv zeta. preserves.
Qed.

Lemma session_preserves ws code cid ip mid frames :
  preserves I (session ws code cid ip mid frames).
Proof.
  unfold session. apply preserves_try_finally; [| apply handle_disconnect_preserves].
  apply preserves_try_except.
  - apply preserves_bind; [apply announce_preserves |]. intros _.
    apply message_loop_preserves.
  - intros []; quiet.
Qed.

Hypothesis I_add_participant :
  forall mid cid ip ua host d,
    I d -> I (add_participant (new_participant mid cid ip ua host) d).

Lemma setup_session_preserves ws code cid ip ua :
  preserves I (setup_session ws code cid ip ua).
Proof.
  unfold setup_session, create_participant. cbv zeta.
  preserves_with I_add_log I_update I_add_participant.
Qed.

Lemma handle_websocket_preserves ws code cid ip ua frames :
  preserves I (handle_websocket ws code cid ip ua frames).
Proof.
  unfold handle_websocket.
  apply preserves_bind; [quiet |]. intros _.
  apply preserves_bind; [quiet |]. intros _.
  apply preserves_bind; [apply setup_session_preserves |]. intros [m |]; [| quiet].
  apply preserves_bind; [quiet |]. intros _. apply session_preserves.
Qed.
End Handlers.

(** *** The host flag, without interleaving *)

Lemma filter_map_length {A} (P : A -> bool) (g : A -> A) (l : list A) :
  (forall x, P (g x) = true -> P x = true) ->
  length (filter P (map g l)) <= length (filter P l).
Proof.
  intro H. induction l as [| x l IH]; simpl; auto.
  destruct (P (g x)) eqn:E.
  - rewrite (H x E). simpl. lia.
  - destruct (P x); simpl; lia.
Qed.

Lemma host_invariant_add_log entry d : host_invariant d -> host_invariant (add_log entry d).
Proof. intros H mid. exact (H mid). Qed.

Lemma host_invariant_update id g d :
  benign g -> host_invariant d -> host_invariant (update_participant id g d).
Proof.
  intros Hg H mid. specialize (H mid). unfold active_hosts in *. simpl.
  eapply Nat.le_trans; [| exact H].
  apply filter_map_length. intros p Hp.
  destruct (p_id p =? id)%nat; auto.
  destruct (Hg p) as (_ & Hm & _ & Hh & Ha).
  rewrite Hm, Hh in Hp.
  apply andb_true_iff in Hp as [Hp Hhost]. apply andb_true_iff in Hp as [Hmid Hact].
  rewrite Hmid, Hhost, (Ha Hact). reflexivity.
Qed.

(** X1.  One connection served from accept to disconnect with no other
    task running in between keeps the host invariant, whatever frames it
    receives and whatever the store and the sockets do. *)
Theorem handle_websocket_keeps_host_invariant (w : World) (ws : WebSocket)
    (code cid : string) (ip : option string) (ua : string) (frames : list Frame) :
  host_invariant (db w) ->
  host_invariant (db (exec (handle_websocket ws code cid ip ua frames) w)).
Proof.
  intro Hinv. unfold exec. rewrite run_handle_websocket.
  pose proof (setup_session_keeps_host_invariant ws code cid ip ua
                (push_log INFO ("WebSocket connection: " ++ cid ++ " joining " ++ code) w)
                Hinv) as Hs.
  destruct (run (setup_session ws code cid ip ua) _) as [[[m |] | e] w1]; simpl in *; auto.
  assert (H1 : preserves host_invariant (register_connection ws code cid))
    by (apply preserves_quiet; intro; reflexivity).
  assert (H2 : preserves host_invariant (session ws code cid ip (meeting_id_of m) frames))
    by (apply session_preserves;
        auto using host_invariant_add_log, host_invariant_update).
  exact (preserves_bind host_invariant _ _ H1 (fun _ => H2) w1 Hs).
Qed.

Lemma handle_websocket_keeps_host_invariant_witness :
  host_invariant
    (db (exec (handle_websocket 4 "abc1234567" "D" None "ua" [demo_live_frame])
           demo_world_chat)).
Proof.
  apply handle_websocket_keeps_host_invariant.
  intro mid. destruct mid as [| mid]; simpl; lia.
Defined.

(** *** The store only grows *)

Lemma grows_from_refl d : grows_from d d.
Proof.
  repeat split; exists []; now rewrite app_nil_r.
Qed.

Lemma grows_from_add_log d0 entry d : grows_from d0 d -> grows_from d0 (add_log entry d).
Proof.
  intros (Hm & Hp & [more Hl]). repeat split; auto.
  exists (more ++ [entry])%list. simpl. now rewrite Hl, app_assoc.
Qed.

Lemma grows_from_update d0 id g d :
  benign g -> grows_from d0 d -> grows_from d0 (update_participant id g d).
Proof.
  intros Hg (Hm & [more Hp] & Hl). repeat split; auto.
  exists more. simpl. rewrite <- Hp, map_map. apply map_ext.
  intro p. destruct (p_id p =? id)%nat; auto. apply Hg.
Qed.

Lemma grows_from_add_participant d0 mk d :
  (forall id, p_id (mk id) = id) ->
  grows_from d0 d -> grows_from d0 (add_participant mk d).
Proof.
  intros Hmk (Hm & [more Hp] & Hl). repeat split; auto.
  exists (more ++ [next_uuid d])%list. simpl.
  now rewrite map_app, Hp, app_assoc; simpl; rewrite Hmk.
Qed.

(** X2.  Serving a connection only ever adds to the store: meetings are
    never touched, no participant row is deleted or moved (rows are
    updated in place and new ones appended), and audit rows are only
    appended. *)
Theorem relay_only_adds_to_store (w : World) (ws : WebSocket) (code cid : string)
    (ip : option string) (ua : string) (frames : list Frame) :
  grows_from (db w) (db (exec (handle_websocket ws code cid ip ua frames) w)).
Proof.
  apply (handle_websocket_preserves (grows_from (db w))).
  - intros. now apply grows_from_add_log.
  - intros. now apply grows_from_update.
  - intros. apply grows_from_add_participant; auto.
  - apply grows_from_refl.
Qed.

(** ** A connection from accept to disconnect *)

(** X3.  [handle_websocket] never lets an exception out: refusal, a frame
    that cannot be read, a dead socket or a failing store all end in a
    normal return. *)
Theorem handle_websocket_never_raises (w : World) (ws : WebSocket) (code cid : string)
    (ip : option string) (ua : string) (frames : list Frame) :
  fst (run (handle_websocket ws code cid ip ua frames) w) = Ok tt.
Proof.
  rewrite run_handle_websocket, run_setup_session.
  destruct (run (create_participant ws code cid ip ua) _) as [[[m |] | e] w1]; auto.
  rewrite run_bind, run_register_connection. cbn beta iota.
  now rewrite run_session.
Qed.

(** X4.  The [finally] clause: however the message loop ends, the session
    returns normally and the client id is no longer registered in the
    room, whichever handle was registered under it. *)
Theorem session_ends_unregistered (w : World) (ws : WebSocket) (code cid : string)
    (ip : option string) (mid : nat) (frames : list Frame) :
  fst (run (session ws code cid ip mid frames) w) = Ok tt /\
  dict_get cid
    (room_of code (active_connections (exec (session ws code cid ip mid frames) w))) = None.
Proof.
  unfold exec. rewrite run_session. split; [reflexivity |].
  cbn [snd]. apply handle_disconnect_removes.
Qed.

(** ** Chat *)

Lemma buffer_after_append code e chat :
  dict_get code
    (dict_update code (fun l : list Json => (l ++ [e])%list) (dict_init code [] chat)) =
  Some ((match dict_get code chat with Some l => l | None => [] end) ++ [e])%list.
Proof. now rewrite dict_get_update_same, dict_get_init. Qed.

Lemma buffer_after_append_other code code' e chat :
  code <> code' ->
  dict_get code'
    (dict_update code (fun l : list Json => (l ++ [e])%list) (dict_init code [] chat)) =
  dict_get code' chat.
Proof.
  intro Hne. rewrite dict_get_update_other by assumption.
  unfold dict_init. destruct (dict_mem code chat); auto using dict_get_set_other.
Qed.

Lemma broadcast_keeps_chat code m ex w :
  chat_messages (snd (run (broadcast_to_meeting code m ex) w)) = chat_messages w.
Proof.
  rewrite run_broadcast_to_meeting.
  now destruct (dict_get code (active_connections w)).
Qed.

Lemma broadcast_outbox code m ex w :
  outbox (snd (run (broadcast_to_meeting code m ex) w)) =
  (outbox w ++ deliveries w m ex (room_of code (active_connections w)))%list.
Proof.
  rewrite run_broadcast_to_meeting. unfold room_of.
  destruct (dict_get code (active_connections w)); simpl; auto.
  unfold deliveries. simpl. now rewrite app_nil_r.
Qed.

(** [handle_chat_message], step by step. *)
Lemma run_handle_chat_message code cid fields w :
  let e := chat_event cid fields (clock w) in
  let w1 := set_chat (fun c => dict_update code (fun l => (l ++ [e])%list)
                                 (dict_init code [] c)) w in
  exists w2,
    relay_view w2 = relay_view w1 /\ clock w2 = clock w /\
    run (handle_chat_message code cid fields) w =
    (Ok tt, push_log INFO ("Chat message from " ++ cid ++ " in " ++ code)
              (snd (run (broadcast_to_meeting code e None) w2))).
Proof.
  intros e w1.
  exists (snd (run (try_except (log_chat_message code cid fields)
                      (fun _ => logger ERROR "Error logging chat message")) w1)).
  assert (Hk : keeps_relay (try_except (log_chat_message code cid fields)
                              (fun _ => logger ERROR "Error logging chat message"))).
  { apply keeps_relay_try_except; [apply log_chat_message_keeps_relay | intro; frames]. }
  destruct (Hk w1) as [Hv Hc]. split; [exact Hv |]. split; [exact Hc |].
  unfold handle_chat_message. rewrite run_bind, run_now. cbn beta iota zeta.
  rewrite run_bind, run_local. cbn beta iota. fold e. fold w1.
  rewrite run_seq by frames.
  rewrite run_bind.
  destruct (broadcast_no_raise code e None
              (snd (run (try_except (log_chat_message code cid fields)
                           (fun _ => logger ERROR "Error logging chat message")) w1)))
    as [[] Hb].
  rewrite (surjective_pairing (run (broadcast_to_meeting code e None) _)), Hb.
  reflexivity.
Qed.

(** X5.  [handle_chat_message] returns normally; it appends exactly one
    event to the room's buffer (creating the buffer if need be), built
    from the sender's id, the message text (empty if missing), the
    display name ("Anonymous" if missing) and the current time; it leaves
    the other rooms' buffers alone; and it sends that event to every
    registered handle of the room that accepts it, the sender's included,
    whatever the store does with the audit row. *)
Theorem chat_message_appended_and_echoed (w : World) (code cid : string)
    (fields : PyDict Json) :
  let r := run (handle_chat_message code cid fields) w in
  let e := JObj [("type", JStr "chat-message");
                 ("from", JStr cid);
                 ("message", get_or "message" (JStr "") fields);
                 ("displayName", get_or "displayName" (JStr "Anonymous") fields);
                 ("timestamp", JStr (clock w))] in
  fst r = Ok tt /\
  buffer_of code (snd r) = (buffer_of code w ++ [e])%list /\
  (forall code', code' <> code -> buffer_of code' (snd r) = buffer_of code' w) /\
  outbox (snd r) =
    (outbox w ++ deliveries w e None (room_of code (active_connections w)))%list /\
  (forall c ws, In (c, ws) (room_of code (active_connections w)) ->
                is_broken w ws = false -> In (ws, e) (outbox (snd r))).
Proof.
  intros r e. subst r.
  destruct (run_handle_chat_message code cid fields w) as (w2 & Hv & Hc & Hrun).
  change (chat_event cid fields (clock w)) with e in *.
  rewrite Hrun. cbn [fst snd].
  set (w1 := set_chat (fun c => dict_update code (fun l => (l ++ [e])%list)
                                  (dict_init code [] c)) w) in *.
  assert (Hchat : chat_messages
                    (snd (run (broadcast_to_meeting code e None) w2)) =
                  chat_messages w1).
  { rewrite broadcast_keeps_chat. now apply relay_view_chat. }
  assert (Hout : outbox (snd (run (broadcast_to_meeting code e None) w2)) =
                 (outbox w ++ deliveries w e None (room_of code (active_connections w)))%list).
  { rewrite (relay_view_outbox _ _ (broadcast_relay_determined code e None w2 w1 Hv)).
    now rewrite broadcast_outbox. }
  split; [reflexivity |]. split; [| split; [| split]].
  - unfold buffer_of. wsimpl. rewrite Hchat. subst w1. wsimpl.
    now rewrite buffer_after_append.
  - intros code' Hne. unfold buffer_of. wsimpl. rewrite Hchat. subst w1. wsimpl.
    rewrite buffer_after_append_other; auto.
  - wsimpl. exact Hout.
  - intros c ws Hin Hbk. wsimpl. rewrite Hout. apply in_or_app. right.
    unfold deliveries. apply in_map_iff. exists (c, ws). split; auto.
    apply filter_In. split; auto. unfold will_deliver. simpl. now rewrite Hbk.
Qed.

Lemma run_dispatch_chat code cid fields w :
  get_or "type" JNull fields = JStr "chat-message" ->
  run (dispatch code cid (JObj fields)) w =
  run (handle_chat_message code cid fields) (push_log INFO ("Message from " ++ cid) w).
Proof.
  intro Ht. unfold dispatch. rewrite Ht. rewrite run_bind, run_logger. reflexivity.
Qed.

(** X6.  Chat messages arriving on one connection enter the room's buffer
    in arrival order: after the loop has read the frames, the buffer is
    the old buffer followed by one event per message, in the order of
    the frames. *)
Theorem chat_buffer_in_arrival_order (w : World) (code cid : string)
    (messages : list (PyDict Json)) :
  Forall (fun m => get_or "type" JNull m = JStr "chat-message") messages ->
  buffer_of code (exec (message_loop code cid (map object_frame messages)) w) =
  (buffer_of code w ++ map (fun m => chat_event cid m (clock w)) messages)%list.
Proof.
  intro Hall. revert w. induction Hall as [| m rest Hm Hrest IH]; intro w.
  - simpl. now rewrite app_nil_r.
  - unfold exec in *. cbn [map]. unfold object_frame at 1.
    rewrite run_message_loop_cons, run_bind, (run_dispatch_chat code cid m w Hm).
    set (w0 := push_log INFO ("Message from " ++ cid) w).
    destruct (run_handle_chat_message code cid m w0) as (w2 & Hv & Hc & Hrun).
    rewrite Hrun. cbn beta iota.
    match goal with
    | |- buffer_of code (snd (run _ ?wn)) = _ => set (w' := wn)
    end.
    assert (Hclock : clock w' = clock w).
    { subst w'. wsimpl.
      destruct (broadcast_keeps_store code (chat_event cid m (clock w0)) None w2)
        as [_ Hk]. rewrite Hk. exact Hc. }
    assert (Hbuf : buffer_of code w' =
                   (buffer_of code w ++ [chat_event cid m (clock w)])%list).
    { subst w'. unfold buffer_of. wsimpl. rewrite broadcast_keeps_chat.
      rewrite (relay_view_chat _ _ Hv). wsimpl. subst w0. wsimpl.
      now rewrite buffer_after_append. }
    rewrite (IH w'), Hbuf, Hclock, <- app_assoc. reflexivity.
Qed.

Lemma chat_buffer_in_arrival_order_witness :
  buffer_of "abc1234567"
    (exec (message_loop "abc1234567" "A"
             (map object_frame
                [[("type", JStr "chat-message"); ("message", JStr "one")];
                 [("type", JStr "chat-message"); ("message", JStr "two")]]))
       demo_world_chat) =
  [demo_old_chat;
   chat_event "A" [("type", JStr "chat-message"); ("message", JStr "one")] "t0";
   chat_event "A" [("type", JStr "chat-message"); ("message", JStr "two")] "t0"].
Proof.
  apply (chat_buffer_in_arrival_order demo_world_chat "abc1234567" "A").
  repeat constructor.
Defined.

(** ** The lookup by client id *)






(** The same disconnect with a single matching row does update it. *)
Example disconnect_single_row :
  map (fun p => (p_id p, p_is_active p, p_left_at p))
    (participants (db (exec (handle_disconnect "abc1234567" "A" None) demo_world)))
  = [(10, false, Some "t0"); (11, true, None); (12, true, None)].
Proof. reflexivity. Qed.

(** ** Signals that find their peer *)

(** X7.  An offer, answer or ice-candidate whose target is registered in
    the room: when the target's socket accepts the send, exactly one
    frame goes out, to that handle, with the kind, the sender's id and
    the [data] of the message, and nothing else changes but the log;
    when the target's socket is dead the send raises out of the handler
    into the sender's message loop, nothing is sent and the dead handle
    stays registered. *)
Theorem signal_reaches_registered_target (w : World) (code cid : string)
    (fields : PyDict Json) (kind target : string) (room : PyDict WebSocket)
    (target_ws : WebSocket) :
  kind = "offer" \/ kind = "answer" \/ kind = "ice-candidate" ->
  get_or "type" JNull fields = JStr kind ->
  dict_get "target" fields = Some (JStr target) ->
  target <> "" ->
  dict_get code (active_connections w) = Some room ->
  dict_get target room = Some target_ws ->
  let r := run (dispatch code cid (JObj fields)) w in
  let frame := JObj [("type", JStr kind); ("from", JStr cid);
                     ("data", get_or "data" JNull fields)] in
  (is_broken w target_ws = false ->
   fst r = Ok tt /\
   outbox (snd r) = (outbox w ++ [(target_ws, frame)])%list /\
   active_connections (snd r) = active_connections w /\
   chat_messages (snd r) = chat_messages w /\
   store_view (snd r) = store_view w) /\
  (is_broken w target_ws = true ->
   fst r = Raise SendError /\
   outbox (snd r) = outbox w /\
   active_connections (snd r) = active_connections w).
Proof.
  intros Hkind Htype Htarget Hne Hroom Hreg r frame. subst r.
  rewrite (run_dispatch_signal code cid fields kind w Hkind Htype).
  unfold handle_webrtc_signal, get_or. rewrite Htarget.
  fold (get_or "type" JNull fields). fold (get_or "data" JNull fields). rewrite Htype.
  simpl truthy. apply String.eqb_neq in Hne. rewrite Hne. simpl negb. cbv iota.
  rewrite run_bind, run_get_connections. cbn beta iota. wsimpl.
  rewrite Hroom. simpl hashable. simpl negb. cbv iota. rewrite Hreg.
  rewrite run_bind, run_send_json.
  change (is_broken (push_log INFO ("Message from " ++ cid) w) target_ws)
    with (is_broken w target_ws).
  split; intro Hbk; rewrite Hbk; cbn beta iota.
  - rewrite run_logger. repeat split.
  - repeat split.
Qed.

Lemma signal_reaches_registered_target_witness :
  outbox (exec (dispatch "abc1234567" "A"
                  (JObj [("type", JStr "answer"); ("target", JStr "C")])) demo_world)
    = [(3, JObj [("type", JStr "answer"); ("from", JStr "A"); ("data", JNull)])] /\
  fst (run (dispatch "abc1234567" "A"
              (JObj [("type", JStr "answer"); ("target", JStr "B")])) demo_world)
    = Raise SendError.
Proof.
  split.
  - refine (proj1 (proj2 (proj1 (signal_reaches_registered_target demo_world
              "abc1234567" "A" [("type", JStr "answer"); ("target", JStr "C")]
              "answer" "C" demo_room 3 (or_intror (or_introl eq_refl))
              eq_refl eq_refl _ eq_refl eq_refl) eq_refl))).
    discriminate.
  - refine (proj1 (proj2 (signal_reaches_registered_target demo_world
              "abc1234567" "A" [("type", JStr "answer"); ("target", JStr "B")]
              "answer" "B" demo_room 2 (or_intror (or_introl eq_refl))
              eq_refl eq_refl _ eq_refl eq_refl) eq_refl)).
    discriminate.
Defined.

(** ** Screen sharing *)

(** X8.  screen-share-start and screen-share-stop are relayed and nothing
    more: the handler returns normally, makes no call into the store,
    leaves the chat buffers alone, and the relay ends as after a
    broadcast of the kind and the sender's id to the others. *)
Theorem screen_share_is_relayed_only (w : World) (code cid : string)
    (fields : PyDict Json) (kind : string) :
  kind = "screen-share-start" \/ kind = "screen-share-stop" ->
  get_or "type" JNull fields = JStr kind ->
  let r := run (dispatch code cid (JObj fields)) w in
  let event := JObj [("type", JStr kind); ("clientId", JStr cid)] in
  fst r = Ok tt /\
  store_view (snd r) = store_view w /\
  chat_messages (snd r) = chat_messages w /\
  relay_view (snd r) = relay_view (exec (broadcast_to_meeting code event (Some cid)) w).
Proof.
  intros Hkind Htype r event. subst r event.
  assert (Hrun : run (dispatch code cid (JObj fields)) w =
                 run (broadcast_to_meeting code
                        (JObj [("type", JStr kind); ("clientId", JStr cid)]) (Some cid))
                   (push_log INFO ("Message from " ++ cid) w)).
  { destruct Hkind; subst kind; unfold dispatch; rewrite Htype;
      rewrite run_bind, run_logger; reflexivity. }
  rewrite Hrun.
  set (event := JObj [("type", JStr kind); ("clientId", JStr cid)]).
  set (w0 := push_log INFO ("Message from " ++ cid) w).
  destruct (broadcast_no_raise code event (Some cid) w0) as [[] Hok].
  destruct (broadcast_keeps_store code event (Some cid) w0) as [Hs _].
  split; [exact Hok |]. split; [exact Hs |]. split.
  - rewrite run_broadcast_to_meeting. subst w0. wsimpl.
    now destruct (dict_get code (active_connections w)).
  - unfold exec. now apply broadcast_relay_determined.
Qed.

Lemma screen_share_is_relayed_only_witness :
  store_view (exec (dispatch "abc1234567" "A" (JObj [("type", JStr "screen-share-start")]))
                demo_world) = store_view demo_world.
Proof.
  exact (proj1 (proj2 (screen_share_is_relayed_only demo_world "abc1234567" "A"
                         [("type", JStr "screen-share-start")] "screen-share-start"
                         (or_introl eq_refl) eq_refl))).
Defined.

(** ** What reaches the store *)

Lemma select_by_client_update cid id g d :
  benign g ->
  select_by_client cid (update_participant id g d) =
  map (fun p => if (p_id p =? id)%nat then g p else p) (select_by_client cid d).
Proof.
  intro Hg. unfold select_by_client, update_participant. simpl.
  induction (participants d) as [| p l IH]; simpl; auto.
  assert (Hc : p_client_id (if (p_id p =? id)%nat then g p else p) = p_client_id p).
  { destruct (p_id p =? id)%nat; auto. apply Hg. }
  rewrite Hc. destruct (p_client_id p =? cid); simpl; congruence.
Qed.

(** X10.  A media toggle from a client whose id matches exactly one row
    makes two commits: the flag, then the audit row.  With the store
    answering both, the row carries the new flag and one audit row is
    appended; when only the second commit fails, the flag stays written,
    no audit row is appended and the error is logged. *)
Theorem toggle_flag_then_audit (w : World) (code cid : string)
    (fields : PyDict Json) (media : string) (p : Participant) :
  select_by_client cid (db w) = [p] ->
  db_ok w = true -> db_ok (db_tick w) = true ->
  let enabled := get_or "enabled" (JBool true) fields in
  let setter := if media =? "audio" then with_audio_enabled enabled
                else with_video_enabled enabled in
  let entry := mkMeetingLog (p_meeting_id p) (Some (p_id p)) (media ++ "_toggle")
                 (JObj [("enabled", enabled)]) None in
  let w' := exec (handle_media_toggle code cid fields media) w in
  (db_ok (db_tick (db_tick w)) = true ->
   db w' = add_log entry (update_participant (p_id p) setter (db w))) /\
  (db_ok (db_tick (db_tick w)) = false ->
   db w' = update_participant (p_id p) setter (db w) /\
   In (ERROR, "Error updating " ++ media ++ " status") (logs w')).
Proof.
  intros Hrows H1 H2 enabled setter entry w'. subst w'. unfold exec.
  split; intro H3.
  - rewrite handle_media_toggle_db. fold enabled.
    unfold persist_media_toggle. run_step. rewrite H1. wsimpl. rewrite Hrows.
    run_step. wsimpl. rewrite H2. run_step. wsimpl.
    change (db_ok (set_db _ (db_tick (db_tick w)))) with (db_ok (db_tick (db_tick w))).
    rewrite H3. reflexivity.
  - split.
    + rewrite handle_media_toggle_db. fold enabled.
      unfold persist_media_toggle. run_step. rewrite H1. wsimpl. rewrite Hrows.
      run_step. wsimpl. rewrite H2. run_step. wsimpl.
      change (db_ok (set_db _ (db_tick (db_tick w)))) with (db_ok (db_tick (db_tick w))).
      rewrite H3. reflexivity.
    + unfold handle_media_toggle. fold enabled.
      destruct (persist_then_broadcast (persist_media_toggle cid enabled media)
                  ("Error updating " ++ media ++ " status") code
                  (toggle_event cid enabled media) None w
                  (persist_media_toggle_keeps_relay _ _ _)) as (_ & _ & Hlog & _).
      apply (Hlog DBAPIError).
      unfold persist_media_toggle. run_step. rewrite H1. wsimpl. rewrite Hrows.
      run_step. wsimpl. rewrite H2. run_step. wsimpl.
      change (db_ok (set_db _ (db_tick (db_tick w)))) with (db_ok (db_tick (db_tick w))).
      rewrite H3. reflexivity.
Qed.

Lemma toggle_flag_then_audit_witness :
  map p_audio_enabled
    (participants (db (exec (handle_media_toggle "abc1234567" "A" demo_message "audio")
                         (set_script [true; true; false] demo_world))))
    = [JBool false; JBool true; JBool true] /\
  meeting_logs (db (exec (handle_media_toggle "abc1234567" "A" demo_message "audio")
                      (set_script [true; true; false] demo_world))) = [].
Proof.
  pose proof (proj1 (proj2 (toggle_flag_then_audit
                (set_script [true; true; false] demo_world) "abc1234567" "A"
                demo_message "audio" (new_participant 0 "A" None "ua" true 10)
                eq_refl eq_refl eq_refl) eq_refl)) as H.
  split; [exact (f_equal (fun d => map p_audio_enabled (participants d)) H) |
          exact (f_equal meeting_logs H)].
Defined.

(** ** The chat buffer outlives the room's registry entry *)

Lemma unregister_last code cid w room :
  dict_get code (active_connections w) = Some room -> dict_pop cid room = [] ->
  let w1 := snd (run (unregister code cid) w) in
  dict_get code (active_connections w1) = None /\
  chat_messages w1 = chat_messages w /\ outbox w1 = outbox w /\ broken w1 = broken w.
Proof.
  intros Hroom Hempty. cbv zeta. rewrite run_unregister, Hroom. cbv zeta.
  rewrite Hempty. wsimpl. repeat split.
  now rewrite dict_get_pop, String.eqb_refl.
Qed.

(** X11.  When the last client of a room disconnects, the room's registry
    entry goes and its chat buffer stays: the next client to join that
    room is sent, first, the whole buffer as [chat-history]. *)
Theorem chat_history_survives_empty_room (w : World) (code cid : string)
    (ip : option string) (room : PyDict WebSocket)
    (ws' : WebSocket) (cid' : string) (mid : nat) :
  dict_get code (active_connections w) = Some room ->
  dict_pop cid room = [] ->
  is_broken w ws' = false ->
  let w1 := exec (handle_disconnect code cid ip) w in
  dict_get code (active_connections w1) = None /\
  buffer_of code w1 = buffer_of code w /\
  exists rest,
    outbox (exec (join ws' code cid' mid) w1) =
    (outbox w ++ (ws', chat_history (buffer_of code w)) :: rest)%list.
Proof.
  intros Hroom Hempty Hbk w1. subst w1. unfold exec.
  destruct (handle_disconnect_relay code cid ip w) as [_ Hrel].
  destruct (unregister_last code cid w room Hroom Hempty) as (Hgone & Hchat & Hout & Hb).
  set (w1 := snd (run (handle_disconnect code cid ip) w)) in *.
  assert (Hc1 : active_connections w1 = active_connections (snd (run (unregister code cid) w)))
    by now apply relay_view_connections.
  assert (Hm1 : chat_messages w1 = chat_messages w)
    by (rewrite (relay_view_chat _ _ Hrel); exact Hchat).
  assert (Ho1 : outbox w1 = outbox w)
    by (rewrite (relay_view_outbox _ _ Hrel); exact Hout).
  assert (Hb1 : is_broken w1 ws' = false).
  { unfold is_broken in *. unfold relay_view in Hrel.
    replace (broken w1) with (broken (snd (run (unregister code cid) w))) by congruence.
    now rewrite Hb. }
  assert (Hbuf : buffer_of code w1 = buffer_of code w)
    by (unfold buffer_of; now rewrite Hm1).
  split; [now rewrite Hc1 |]. split; [exact Hbuf |].
  destruct (run_join ws' code cid' mid w1 Hb1)
    as (name & joined & w4 & Hrun & Hout4 & _ & Hb4 & _).
  assert (Hbk4 : is_broken w4 ws' = false)
    by (unfold is_broken in *; now rewrite Hb4).
  destruct (run_send_participants_update ws' code mid w4 Hbk4) as (_ & H2 & _).
  rewrite Hrun, H2, Hout4, Ho1, Hbuf. eexists. rewrite <- app_assoc. reflexivity.
Qed.

Lemma chat_history_survives_empty_room_witness :
  let w := set_connections (fun _ => [("abc1234567", [("A", 1)])]) demo_world_chat in
  buffer_of "abc1234567" (exec (handle_disconnect "abc1234567" "A" None) w)
  = [demo_old_chat].
Proof.
  exact (proj1 (proj2 (chat_history_survives_empty_room
           (set_connections (fun _ => [("abc1234567", [("A", 1)])]) demo_world_chat)
           "abc1234567" "A" None [("A", 1)] 4 "D" 0 eq_refl eq_refl eq_refl))).
Defined.

(** ** The registry stays a dictionary of dictionaries *)

Lemma dict_keys_set {V} (k : string) (v : V) (d : PyDict V) :
  dict_keys (dict_set k v d) =
  if dict_mem k d then dict_keys d else (dict_keys d ++ [k])%list.
Proof.
  unfold dict_mem. induction d as [| [k0 v0] d IH]; simpl; auto.
  destruct (k =? k0) eqn:E; simpl.
  - apply String.eqb_eq in E. now subst.
  - rewrite IH. now destruct (dict_get k d).
Qed.

Lemma dict_wf_set {V} (k : string) (v : V) (d : PyDict V) :
  dict_wf d -> dict_wf (dict_set k v d).
Proof.
  unfold dict_wf. intro H. rewrite dict_keys_set.
  destruct (dict_mem k d) eqn:E; auto.
  apply NoDup_app; auto.
  - repeat constructor. simpl. tauto.
  - intros x Hx [Hk | []]. subst x.
    unfold dict_mem in E. destruct (dict_get k d) eqn:G; [discriminate |].
    now apply dict_get_None_keys in G.
Qed.

Lemma dict_keys_update {V} (k : string) (f : V -> V) (d : PyDict V) :
  dict_keys (dict_update k f d) = dict_keys d.
Proof.
  unfold dict_update. destruct (dict_get k d) eqn:E; auto.
  rewrite dict_keys_set. unfold dict_mem. now rewrite E.
Qed.

Lemma keys_filter_subset {V} (p : string * V -> bool) (d : PyDict V) (k : string) :
  In k (dict_keys (filter p d)) -> In k (dict_keys d).
Proof.
  unfold dict_keys. intro H. apply in_map_iff in H as [x [Hx Hin]].
  apply filter_In in Hin as [Hin _]. rewrite <- Hx. now apply in_map.
Qed.

Lemma registry_ok_narrow code (p : string * WebSocket -> bool) conns :
  registry_ok conns -> registry_ok (dict_update code (filter p) conns).
Proof.
  intros [Hwf Hrooms]. split.
  - unfold dict_wf. now rewrite dict_keys_update.
  - intros code' room' Hget. destruct (String.eqb_spec code code') as [Heq | Hne].
    + subst code'. rewrite dict_get_update_same in Hget.
      destruct (dict_get code conns) as [room |] eqn:E; [| discriminate].
      inversion Hget; subst room'. destruct (Hrooms code room E) as [H1 H2].
      split; [now apply dict_wf_filter |].
      intro Hin. apply H2. now apply keys_filter_subset in Hin.
    + rewrite dict_get_update_other in Hget by assumption. exact (Hrooms _ _ Hget).
Qed.

Lemma registry_ok_pop code conns : registry_ok conns -> registry_ok (dict_pop code conns).
Proof.
  intros [Hwf Hrooms]. split.
  - now apply dict_wf_filter.
  - intros code' room' Hget. rewrite dict_get_pop in Hget.
    destruct (code =? code'); [discriminate |]. exact (Hrooms _ _ Hget).
Qed.

Lemma registry_ok_register ws code cid conns :
  cid <> "" -> registry_ok conns ->
  registry_ok (dict_update code (dict_set cid ws) (dict_init code [] conns)).
Proof.
  intros Hcid [Hwf Hrooms].
  assert (Hinit : registry_ok (dict_init code [] conns)).
  { unfold dict_init.
    match goal with
    | |- context [if ?c then _ else _] => destruct c eqn:E
    end; [exact (conj Hwf Hrooms) |]. split.
    - now apply dict_wf_set.
    - intros code' room' Hget. destruct (String.eqb_spec code code') as [Heq | Hne].
      + subst code'. rewrite dict_get_set_same in Hget. inversion Hget; subst room'.
        split; [constructor | simpl; tauto].
      + rewrite dict_get_set_other in Hget by assumption. exact (Hrooms _ _ Hget). }
  destruct Hinit as [Hwf' Hrooms']. split.
  - unfold dict_wf. now rewrite dict_keys_update.
  - intros code' room' Hget. destruct (String.eqb_spec code code') as [Heq | Hne].
    + subst code'. rewrite dict_get_update_same, dict_get_init in Hget.
      simpl in Hget. inversion Hget; subst room'.
      destruct (Hrooms' code _ (dict_get_init code [] conns)) as [H1 H2].
      split; [now apply dict_wf_set |].
      rewrite dict_keys_set.
      match goal with
      | |- context [if ?c then _ else _] => destruct c
      end; auto.
      intro Hin. apply in_app_or in Hin as [Hin | [Hin | []]]; auto.
    + rewrite dict_get_update_other in Hget by assumption. exact (Hrooms' _ _ Hget).
Qed.

Section KeepsRegistry.
Variable Q : PyDict (PyDict WebSocket) -> Prop.

Lemma keeps_registry_bind {A B} (t : Prog A) (f : A -> Prog B) :
  keeps_registry Q t -> (forall a, keeps_registry Q (f a)) -> keeps_registry Q (bind t f).
Proof.
  intros Ht Hf w Hw. rewrite run_bind. specialize (Ht w Hw).
  destruct (run t w) as [[a | e] w1]; simpl in *; auto. now apply Hf.
Qed.

Lemma keeps_registry_try_except {A} (t : Prog A) (h : Exn -> Prog A) :
  keeps_registry Q t -> (forall e, keeps_registry Q (h e)) ->
  keeps_registry Q (try_except t h).
Proof.
  intros Ht Hh w Hw. rewrite run_try_except. specialize (Ht w Hw).
  destruct (run t w) as [[a | e] w1]; simpl in *; auto. now apply Hh.
Qed.

Lemma keeps_registry_try_finally {A} (t : Prog A) (fin : Prog unit) :
  keeps_registry Q t -> keeps_registry Q fin -> keeps_registry Q (try_finally t fin).
Proof.
  intros Ht Hf w Hw. rewrite run_try_finally. specialize (Ht w Hw).
  specialize (Hf _ Ht). destruct (run fin (snd (run t w))) as [[u | e] w1]; auto.
Qed.

(** A step that leaves the registry alone. *)
Lemma keeps_registry_quiet {A} (t : Task A) :
  (forall w, active_connections (snd (run t w)) = active_connections w) ->
  keeps_registry Q t.
Proof. intros H w Hw. now rewrite H. Qed.

Lemma keeps_registry_keeps_relay {A} (t : Task A) : keeps_relay t -> keeps_registry Q t.
Proof.
  intro H. apply keeps_registry_quiet. intro w. destruct (H w) as [Hv _].
  now apply relay_view_connections.
Qed.

Lemma keeps_registry_send_json ws m : keeps_registry Q (send_json ws m).
Proof.
  apply keeps_registry_quiet. intro w. rewrite run_send_json.
  now destruct (is_broken w ws).
Qed.
End KeepsRegistry.

(** Handlers of one connection, for a property [Q] of the registry
    that survives what they do to it: narrowing the room, dropping the
    room, and registering the client. *)
Section RegistryInvariant.
Variable Q : PyDict (PyDict WebSocket) -> Prop.
Variables code cid : string.
Hypothesis Q_narrow :
  forall (p : string * WebSocket -> bool) conns,
    Q conns -> Q (dict_update code (filter p) conns).
Hypothesis Q_pop : forall conns, Q conns -> Q (dict_pop code conns).
Hypothesis Q_register :
  forall ws conns,
    Q conns -> Q (dict_update code (dict_set cid ws) (dict_init code [] conns)).

Lemma broadcast_keeps_registry m ex : keeps_registry Q (broadcast_to_meeting code m ex).
Proof.
  intros w Hw. rewrite run_broadcast_to_meeting.
  destruct (dict_get code (active_connections w)) as [room |]; auto.
  simpl. rewrite broadcast_pops. now apply Q_narrow.
Qed.

Lemma unregister_keeps_registry : keeps_registry Q (unregister code cid).
Proof.
  intros w Hw. rewrite run_unregister.
  destruct (dict_get code (active_connections w)) as [room |]; auto.
  cbv zeta.
  assert (H1 : Q (dict_update code (dict_pop cid) (active_connections w)))
    by (apply Q_narrow; assumption).
  destruct (dict_pop cid room).
  - simpl. now apply Q_pop.
  - simpl. rewrite broadcast_pops. now apply Q_narrow.
Qed.

(** Walks down a handler looking for what touches the registry. *)
Ltac registry_step :=
  lazymatch goal with
  | |- keeps_registry _ (broadcast_to_meeting _ _ _) => apply broadcast_keeps_registry
  | |- keeps_registry _ (unregister _ _) => apply unregister_keeps_registry
  | |- keeps_registry _ (log_chat_message _ _ _) =>
      apply keeps_registry_keeps_relay, log_chat_message_keeps_relay
  | |- keeps_registry _ (persist_leave _ _) =>
      apply keeps_registry_keeps_relay, persist_leave_keeps_relay
  | |- keeps_registry _ (persist_display_name _ _) =>
      apply keeps_registry_keeps_relay, persist_display_name_keeps_relay
  | |- keeps_registry _ (persist_media_toggle _ _ _) =>
      apply keeps_registry_keeps_relay, persist_media_toggle_keeps_relay
  | |- keeps_registry _ (db_execute _) =>
      apply keeps_registry_keeps_relay, keeps_relay_db_execute
  | |- keeps_registry _ (scalar_one_or_none _) =>
      apply keeps_registry_keeps_relay, keeps_relay_scalar
  | |- keeps_registry _ (bind _ _) => apply keeps_registry_bind
  | |- keeps_registry _ (try_except _ _) => apply keeps_registry_try_except
  | |- keeps_registry _ (send_json _ _) => apply keeps_registry_send_json
  | |- keeps_registry _ (match ?x with _ => _ end) => destruct x
  | |- keeps_registry _ _ => apply keeps_registry_quiet; intro; reflexivity
  | |- _ => intro
  end.

Ltac registry := repeat registry_step.

Lemma handle_disconnect_keeps_registry ip :
  keeps_registry Q (handle_disconnect code cid ip).
Proof. unfold handle_disconnect. registry. Qed.

Lemma dispatch_keeps_registry message : keeps_registry Q (dispatch code cid message).
Proof.
  unfold dispatch. destruct message; try (apply keeps_registry_quiet; intro; reflexivity).
  apply keeps_registry_bind; [apply keeps_registry_quiet; intro; reflexivity |]. intros _.
  repeat match goal with
         | |- keeps_registry _ (if ?c then _ else _) => destruct c
         end;
    unfold handle_webrtc_signal, handle_chat_message, handle_join_message,
      handle_media_toggle; cbv zeta; registry.
Qed.

Lemma message_loop_keeps_registry frames : keeps_registry Q (message_loop code cid frames).
Proof.
  induction frames as [| f rest IH]; cbn [message_loop].
  - registry.
  - apply keeps_registry_bind; [apply keeps_registry_quiet; intro; reflexivity |].
    intros [[m |]]; [| apply keeps_registry_quiet; intro; reflexivity].
    apply keeps_registry_bind; [apply dispatch_keeps_registry |]. intros _. exact IH.
Qed.

Lemma announce_keeps_registry ws mid : keeps_registry Q (announce ws code cid mid).
Proof.
  unfold announce, lookup_display_name, send_participants_update. cbv zeta. registry.
Qed.

Lemma setup_session_keeps_connections ws ip ua w :
  active_connections (snd (run (setup_session ws code cid ip ua) w)) = active_connections w.
Proof.
  rewrite run_setup_session.
  pose proof (create_participant_keeps_relay_but_close ws code cid ip ua w) as (Hc & _).
  destruct (run (create_participant ws code cid ip ua) w) as [[m | e] w1]; exact Hc.
Qed.

Lemma keeps_registry_handle_websocket ws ip ua frames :
  keeps_registry Q (handle_websocket ws code cid ip ua frames).
Proof.
  intros w Hok. rewrite run_handle_websocket.
  pose proof (setup_session_keeps_connections ws ip ua
                (push_log INFO ("WebSocket connection: " ++ cid ++ " joining " ++ code) w))
    as Hs.
  destruct (run (setup_session ws code cid ip ua) _) as [[[m |] | e] w1]; simpl in Hs;
    cbn [snd]; try (rewrite Hs; exact Hok).
  rewrite run_bind, run_register_connection. cbn beta iota.
  assert (Hreg : Q (active_connections (registered ws code cid w1))).
  { unfold registered. wsimpl. rewrite Hs. now apply Q_register. }
  assert (Hsess : keeps_registry Q (session ws code cid ip (meeting_id_of m) frames)).
  { unfold session. apply keeps_registry_try_finally;
      [| apply handle_disconnect_keeps_registry].
    apply keeps_registry_try_except.
    - apply keeps_registry_bind; [apply announce_keeps_registry |]. intros _.
      apply message_loop_keeps_registry.
    - intros []; apply keeps_registry_quiet; intro; reflexivity. }
  exact (Hsess _ Hreg).
Qed.
End RegistryInvariant.

(** X12.  Serving a connection under a non-empty client id keeps the
    registry a dictionary of dictionaries: room codes stay pairwise
    distinct, and within each room the client ids stay pairwise distinct
    and non-empty, whatever frames arrive and whatever the store and the
    sockets do. *)
Theorem handle_websocket_keeps_registry_ok (w : World) (ws : WebSocket)
    (code cid : string) (ip : option string) (ua : string) (frames : list Frame) :
  cid <> "" ->
  registry_ok (active_connections w) ->
  registry_ok (active_connections (exec (handle_websocket ws code cid ip ua frames) w)).
Proof.
  intros Hcid Hok.
  apply (keeps_registry_handle_websocket registry_ok code cid); auto.
  - intros. now apply registry_ok_narrow.
  - intros. now apply registry_ok_pop.
  - intros. now apply registry_ok_register.
Qed.

Lemma handle_websocket_keeps_registry_ok_witness :
  registry_ok
    (active_connections
       (exec (handle_websocket 4 "abc1234567" "D" None "ua" [demo_live_frame])
          demo_world_chat)).
Proof.
  apply handle_websocket_keeps_registry_ok; [discriminate |].
  split.
  - repeat constructor; simpl; tauto.
  - intros code room Hget. simpl in Hget.
    destruct (code =? "abc1234567"); [| discriminate].
    inversion Hget; subst room. split.
    + repeat constructor; simpl; intuition discriminate.
    + simpl. intuition discriminate.
Defined.

(** X13.  Rooms are isolated in the registry: serving a connection in one
    room, from accept to disconnect, leaves the entry of every other
    room exactly as it was (present with the same clients and handles in
    the same order, or absent). *)
Theorem other_rooms_untouched (w : World) (ws : WebSocket) (code cid : string)
    (ip : option string) (ua : string) (frames : list Frame) (code' : string) :
  code' <> code ->
  dict_get code' (active_connections (exec (handle_websocket ws code cid ip ua frames) w)) =
  dict_get code' (active_connections w).
Proof.
  intro Hne.
  apply (keeps_registry_handle_websocket
           (fun c => dict_get code' c = dict_get code' (active_connections w)) code cid);
    auto.
  - intros p conns H. rewrite dict_get_update_other; auto.
  - intros conns H. rewrite dict_get_pop.
    destruct (String.eqb_spec code code'); [congruence | exact H].
  - intros ws0 conns H. rewrite dict_get_update_other by auto.
    unfold dict_init.
    match goal with
    | |- context [if ?c then conns else _] => destruct c
    end; auto.
    rewrite dict_get_set_other; auto.
Qed.

Lemma other_rooms_untouched_witness :
  let w := set_connections (fun conns => (conns ++ [("zzz9999999", [("Z", 7)])])%list)
             demo_world_chat in
  let w' := exec (handle_websocket 4 "abc1234567" "D" None "ua" [demo_live_frame]) w in
  closed w' = [] /\
  map fst (outbox w') = [4; 1; 2; 3; 4; 1; 2; 3; 4; 1; 2; 3] /\
  dict_get "zzz9999999" (active_connections w') = Some [("Z", 7)].
Proof.
  intros w w'. split; [reflexivity |]. split; [reflexivity |].
  subst w'.
  rewrite (other_rooms_untouched w 4 "abc1234567" "D" None "ua" [demo_live_frame]
             "zzz9999999") by discriminate.
  reflexivity.
Defined.

(** ** GET / *)

Lemma length_dict_set {V} (k : string) (v : V) (d : PyDict V) :
  length (dict_set k v d) = length d + (if dict_mem k d then 0 else 1).
Proof.
  unfold dict_mem. induction d as [| [k0 v0] d IH]; simpl; auto.
  destruct (k =? k0); simpl; [lia |]. rewrite IH. destruct (dict_get k d); lia.
Qed.

Lemma total_participants_set code (room room' : PyDict WebSocket) conns :
  dict_get code conns = Some room ->
  total_participants (dict_set code room' conns) + length room =
  total_participants conns + length room'.
Proof.
  unfold total_participants.
  induction conns as [| [k r] conns IH]; simpl; [discriminate |].
  destruct (code =? k) eqn:E; simpl.
  - intro H. inversion H; subst r. lia.
  - intro H. specialize (IH H). lia.
Qed.

Lemma total_participants_new code conns :
  dict_get code conns = None ->
  total_participants (dict_set code [] conns) = total_participants conns.
Proof.
  unfold total_participants.
  induction conns as [| [k r] conns IH]; simpl; auto.
  destruct (code =? k) eqn:E; simpl; [discriminate |].
  intro H. now rewrite (IH H).
Qed.

(** X14.  What [GET /] reports after lines 100-108 have registered a
    handle: one more meeting exactly when the room had no entry, and one
    more participant exactly when the client id was not yet registered
    in the room; a client id that is registered again keeps its place
    and only has its handle replaced. *)
Theorem registration_as_counted_by_root (w : World) (ws : WebSocket) (code cid : string)
    (app_name : string) :
  let conns := active_connections w in
  let w' := exec (register_connection ws code cid) w in
  let conns' := active_connections w' in
  fst (run (root app_name) w') =
    Ok (JObj [("app", JStr app_name); ("version", JStr "2.0"); ("status", JStr "running");
              ("active_meetings", JNum (Z.of_nat (active_meetings conns')));
              ("total_participants", JNum (Z.of_nat (total_participants conns')))]) /\
  active_meetings conns' =
    active_meetings conns + (if dict_mem code conns then 0 else 1) /\
  total_participants conns' =
    total_participants conns + (if dict_mem cid (room_of code conns) then 0 else 1) /\
  dict_get cid (room_of code conns') = Some ws /\
  (dict_mem cid (room_of code conns) = true ->
   dict_keys (room_of code conns') = dict_keys (room_of code conns)).
Proof.
  intros conns w' conns'. subst w' conns'. unfold exec.
  rewrite run_register_connection. cbn [snd]. unfold registered. wsimpl. fold conns.
  split; [reflexivity |].
  match goal with
  | |- context [active_meetings ?c] => set (c' := c)
  end.
  assert (F0 : dict_get code (dict_init code [] conns) = Some (room_of code conns))
    by apply dict_get_init.
  assert (F1 : dict_get code c' = Some (dict_set cid ws (room_of code conns))).
  { subst c'. rewrite dict_get_update_same, dict_get_init. reflexivity. }
  assert (F2 : length (dict_init code [] conns) =
               length conns + (if dict_mem code conns then 0 else 1)).
  { destruct (dict_mem code conns) eqn:E.
    - replace (dict_init code [] conns) with conns; [now rewrite Nat.add_0_r |].
      unfold dict_init.
      match goal with
      | |- context [if ?c then conns else _] => replace c with true by (symmetry; exact E)
      end.
      reflexivity.
    - replace (dict_init code [] conns) with (dict_set code [] conns).
      + rewrite length_dict_set.
        match goal with
        | |- context [if ?c then 0 else 1] => replace c with false by (symmetry; exact E)
        end.
        reflexivity.
      + unfold dict_init.
        match goal with
        | |- context [if ?c then conns else _] =>
            replace c with false by (symmetry; exact E)
        end.
        reflexivity. }
  assert (F3 : total_participants (dict_init code [] conns) = total_participants conns).
  { unfold dict_init.
    match goal with
    | |- context [if ?c then conns else _] => destruct c eqn:E
    end; [reflexivity |].
    apply total_participants_new. revert E. unfold dict_mem.
    match goal with
    | |- context [match ?g with Some _ => _ | None => _ end] => destruct g
    end; [discriminate | reflexivity]. }
  assert (F4 : c' = dict_set code (dict_set cid ws (room_of code conns))
                      (dict_init code [] conns)).
  { subst c'. unfold dict_update. rewrite dict_get_init. reflexivity. }
  split; [| split; [| split]].
  - unfold active_meetings. rewrite F4, length_dict_set.
    assert (F5 : dict_mem code (dict_init code [] conns) = true)
      by (unfold dict_mem; now rewrite dict_get_init).
    match goal with
    | |- _ + (if ?c then _ else _) = _ => replace c with true by (symmetry; exact F5)
    end.
    rewrite Nat.add_0_r. exact F2.
  - pose proof (total_participants_set code (room_of code conns)
                  (dict_set cid ws (room_of code conns)) _ F0) as Hsum.
    rewrite length_dict_set, F3, <- F4 in Hsum.
    destruct (dict_mem cid (room_of code conns)); lia.
  - unfold room_of at 1. rewrite F1. apply dict_get_set_same.
  - intro Hmem. unfold room_of at 1. rewrite F1. now apply dict_keys_set_present.
Qed.

Lemma registration_as_counted_by_root_witness :
  dict_mem "B" (room_of "abc1234567" (active_connections demo_world)) = true /\
  total_participants
    (active_connections (exec (register_connection 9 "abc1234567" "B") demo_world)) = 3 /\
  dict_keys (room_of "abc1234567"
               (active_connections (exec (register_connection 9 "abc1234567" "B") demo_world)))
  = ["A"; "B"; "C"].
Proof.
  destruct (registration_as_counted_by_root demo_world 9 "abc1234567" "B" "LinkUp")
    as (_ & _ & Htotal & _ & Hkeys).
  split; [reflexivity |]. split.
  - rewrite Htotal. reflexivity.
  - rewrite Hkeys; reflexivity.
Defined.

(** ** A broadcast never removes a room *)

Lemma total_participants_update code (f : PyDict WebSocket -> PyDict WebSocket) conns room :
  dict_get code conns = Some room ->
  total_participants (dict_update code f conns) + length room =
  total_participants conns + length (f room).
Proof.
  intro H. unfold dict_update. rewrite H. now apply total_participants_set.
Qed.

Lemma filter_failed (p : string * WebSocket -> bool) (room : PyDict WebSocket) :
  dict_wf room ->
  filter (fun kv => negb (in_list (fst kv) (map fst (filter p room)))) room =
  filter (fun kv => negb (p kv)) room.
Proof.
  intro Hwf. apply filter_ext_in. intros [k v] Hin. cbn [fst].
  now rewrite (failed_key_iff p room k v Hwf (In_dict_get k v room Hwf Hin)).
Qed.

Lemma filter_split_length {A} (p : A -> bool) (l : list A) :
  length (filter (fun x => negb (p x)) l) + length (filter p l) = length l.
Proof.
  induction l as [| x l IH]; simpl; auto. destruct (p x); simpl; lia.
Qed.

(** X15.  [broadcast_to_meeting] drops the handles its send failed on and
    nothing else: the room codes of the registry are the same before and
    after, so a room whose every handle is dead stays registered with no
    client in it, and [GET /] goes on counting it as a meeting. *)
Theorem broadcast_never_removes_the_room (w : World) (code : string) (message : Json)
    (exclude_client : option string) (room : PyDict WebSocket) (app_name : string) :
  dict_get code (active_connections w) = Some room ->
  dict_wf room ->
  let conns := active_connections w in
  let w' := exec (broadcast_to_meeting code message exclude_client) w in
  let conns' := active_connections w' in
  dict_keys conns' = dict_keys conns /\
  dict_get code conns' =
    Some (filter (fun kv => negb (will_fail w exclude_client kv)) room) /\
  (forall other, other <> code -> dict_get other conns' = dict_get other conns) /\
  active_meetings conns' = active_meetings conns /\
  total_participants conns' + length (filter (will_fail w exclude_client) room) =
    total_participants conns /\
  (exclude_client = None ->
   forallb (fun kv => is_broken w (snd kv)) room = true ->
   dict_get code conns' = Some [] /\
   fst (run (root app_name) w') =
     Ok (JObj [("app", JStr app_name); ("version", JStr "2.0"); ("status", JStr "running");
               ("active_meetings", JNum (Z.of_nat (active_meetings conns)));
               ("total_participants",
                JNum (Z.of_nat (total_participants conns - length room)))])).
Proof.
  intros Hroom Hwf conns w' conns'.
  assert (Hc : conns' =
               dict_update code
                 (filter (fun kv => negb (will_fail w exclude_client kv))) conns).
  { subst conns' w'. unfold exec. rewrite run_broadcast_to_meeting, Hroom.
    cbn [snd]. unfold broadcast_result. wsimpl. rewrite broadcast_pops.
    subst conns. apply dict_update_ext. intros room' Hroom'.
    assert (room' = room) by congruence. subst room'. now apply filter_failed. }
  assert (Hkeys : dict_keys conns' = dict_keys conns)
    by (rewrite Hc; apply dict_keys_update).
  assert (Hget : dict_get code conns' =
                 Some (filter (fun kv => negb (will_fail w exclude_client kv)) room)).
  { rewrite Hc, dict_get_update_same. subst conns.
    exact (f_equal (option_map _) Hroom). }
  assert (Hmeet : active_meetings conns' = active_meetings conns).
  { unfold active_meetings. unfold dict_keys in Hkeys.
    now rewrite <- (length_map fst conns'), Hkeys, length_map. }
  assert (Htot : total_participants conns' + length (filter (will_fail w exclude_client) room)
                 = total_participants conns).
  { assert (Hsum : total_participants conns' + length room =
                   total_participants conns +
                   length (filter (fun kv => negb (will_fail w exclude_client kv)) room)).
    { rewrite Hc.
      exact (total_participants_update code
               (filter (fun kv => negb (will_fail w exclude_client kv))) conns room Hroom). }
    pose proof (filter_split_length (will_fail w exclude_client) room). lia. }
  repeat split; auto.
  - intros other Hne. rewrite Hc. now apply dict_get_update_other.
  - rewrite Hget. f_equal.
    subst exclude_client. clear - H0.
    induction room as [| kv room IH]; simpl in *; auto.
    apply andb_prop in H0 as [Hb Hrest]. unfold will_fail at 1. simpl.
    rewrite Hb. simpl. now apply IH.
  - assert (Hall : filter (will_fail w exclude_client) room = room).
    { subst exclude_client. clear - H0.
      induction room as [| kv room IH]; simpl in *; auto.
      apply andb_prop in H0 as [Hb Hrest]. unfold will_fail at 1. simpl.
      rewrite Hb. simpl. f_equal. now apply IH. }
    rewrite Hall in Htot.
    unfold root. rewrite run_bind. simpl. fold conns'.
    rewrite Hmeet. replace (total_participants conns - length room)
      with (total_participants conns') by lia.
    reflexivity.
Qed.

Lemma broadcast_never_removes_the_room_witness :
  let w := set_connections (fun _ => [("abc1234567", [("B", 2)])]) demo_world in
  let w' := exec (broadcast_to_meeting "abc1234567" (JStr "ping") None) w in
  dict_get "abc1234567" (active_connections w') = Some [] /\
  active_meetings (active_connections w') = 1 /\
  total_participants (active_connections w') = 0.
Proof.
  intros w w'.
  destruct (broadcast_never_removes_the_room w "abc1234567" (JStr "ping") None
              [("B", 2)] "LinkUp") as (_ & _ & _ & Hmeet & Htot & Hdead).
  - reflexivity.
  - repeat constructor; simpl; tauto.
  - destruct Hdead as [Hempty _]; [reflexivity | reflexivity |].
    split; [exact Hempty |]. split.
    + exact Hmeet.
    + simpl in Htot. vm_compute in Htot |- *. reflexivity.
Defined.

(** ** A display name, from the join message to the next joiner *)

(** A broadcast leaves a client whose socket accepts sends in the room. *)
Lemma broadcast_keeps_live code m ex w c ws :
  dict_wf (room_of code (active_connections w)) ->
  dict_get c (room_of code (active_connections w)) = Some ws ->
  is_broken w ws = false ->
  dict_get c (room_of code
                (active_connections (snd (run (broadcast_to_meeting code m ex) w)))) = Some ws.
Proof.
  unfold room_of. rewrite run_broadcast_to_meeting.
  destruct (dict_get code (active_connections w)) as [room |] eqn:Hroom;
    [| simpl; now rewrite Hroom].
  intros Hwf Hget Hbk. unfold broadcast_result. wsimpl.
  rewrite broadcast_pops, dict_get_update_same, Hroom. simpl option_map. cbv beta iota.
  rewrite (dict_get_filter_key
             (fun k => negb (in_list k (map fst (filter (will_fail w ex) room))))).
  rewrite (failed_key_iff _ room c ws Hwf Hget).
  unfold will_fail. simpl. rewrite Hbk, andb_false_r. exact Hget.
Qed.

Lemma broadcast_keeps_wf code m ex w :
  dict_wf (room_of code (active_connections w)) ->
  dict_wf (room_of code
             (active_connections (snd (run (broadcast_to_meeting code m ex) w)))).
Proof.
  unfold room_of. rewrite run_broadcast_to_meeting.
  destruct (dict_get code (active_connections w)) as [room |] eqn:Hroom;
    [| simpl; now rewrite Hroom].
  intro Hwf. unfold broadcast_result. wsimpl.
  rewrite broadcast_pops, dict_get_update_same, Hroom. simpl option_map. cbv beta iota.
  now apply dict_wf_filter.
Qed.

(** The room right after lines 100-108. *)
Lemma registered_room ws code cid w :
  room_of code (active_connections (registered ws code cid w)) =
  dict_set cid ws (room_of code (active_connections w)).
Proof.
  unfold registered, room_of. wsimpl.
  now rewrite dict_get_update_same, dict_get_init.
Qed.

(** The registry a join leaves behind is that of its [user-joined]
    broadcast. *)
Lemma join_connections ws code cid mid w :
  is_broken w ws = false ->
  exists name,
    active_connections (snd (run (join ws code cid mid) w)) =
    active_connections
      (snd (run (broadcast_to_meeting code (user_joined_event cid name (clock w)) (Some cid))
              (registered ws code cid w))).
Proof.
  intro Hbk. unfold join. rewrite run_bind, run_register_connection. cbn beta iota.
  set (w1 := registered ws code cid w).
  assert (Hbk1 : is_broken w1 ws = false) by exact Hbk.
  unfold announce. rewrite run_bind, run_get_chat. cbn beta iota.
  unfold w1 at 1. rewrite registered_buffer. fold w1.
  rewrite run_bind, run_send_json, Hbk1. cbn beta iota.
  set (w2 := push_outbox ws (chat_history (buffer_of code w)) w1).
  destruct (run_lookup_display_name cid w2) as (name & w3 & Hrun & Hrel & Hclock & _).
  rewrite run_bind, Hrun. cbn beta iota.
  rewrite run_bind, run_now. cbn beta iota.
  exists name.
  set (ev := user_joined_event cid name (clock w3)).
  assert (Hev : user_joined_event cid name (clock w) = ev) by (subst ev; now rewrite Hclock).
  rewrite Hev.
  assert (Hv : relay_view (snd (run (broadcast_to_meeting code ev (Some cid)) w3)) =
               relay_view (snd (run (broadcast_to_meeting code ev (Some cid)) w2)))
    by now apply broadcast_relay_determined.
  rewrite run_bind.
  destruct (broadcast_no_raise code ev (Some cid) w3) as [[] Hb].
  rewrite (surjective_pairing (run (broadcast_to_meeting code ev (Some cid)) w3)), Hb.
  cbn beta iota.
  set (w4 := snd (run (broadcast_to_meeting code ev (Some cid)) w3)) in *.
  assert (Hbk4 : is_broken w4 ws = false).
  { assert (Hb3 : broken w3 = broken w)
      by (unfold relay_view in Hrel; subst w2 w1; simpl in Hrel; congruence).
    unfold is_broken in *. replace (broken w4) with (broken w); [exact Hbk |].
    subst w4. rewrite run_broadcast_to_meeting.
    destruct (dict_get code (active_connections w3)); simpl; congruence. }
  destruct (run_send_participants_update ws code mid w4 Hbk4) as (_ & _ & Hc).
  rewrite Hc. rewrite (relay_view_connections _ _ Hv).
  rewrite !run_broadcast_to_meeting. subst w2. wsimpl.
  destruct (dict_get code (active_connections w1)); reflexivity.
Qed.

(** X9.  A display name sent in a join message by a connected client
    whose id matches exactly one row, an active one, with the store
    answering, is written to that row; and the next client admitted to
    the same meeting under another id is sent, in its
    [participants-update], the entry of the first client with that
    display name (both sockets accepting sends and the participant
    query succeeding). *)
Theorem display_name_round_trip (w : World) (code cid : string)
    (fields : PyDict Json) (name : Json) (p : Participant) (ws : WebSocket)
    (ws' : WebSocket) (cid' : string) (ip : option string) (ua : string) (m : Meeting) :
  dict_get "displayName" fields = Some name ->
  select_by_client cid (db w) = [p] ->
  db_ok w = true -> db_ok (db_tick w) = true ->
  p_is_active p = true ->
  dict_wf (room_of code (active_connections w)) ->
  dict_get cid (room_of code (active_connections w)) = Some ws ->
  is_broken w ws = false -> is_broken w ws' = false ->
  cid' <> cid ->
  let w1 := exec (handle_join_message code cid fields) w in
  let s := run (setup_session ws' code cid' ip ua) w1 in
  fst s = Ok (Some m) ->
  meeting_id_of m = p_meeting_id p ->
  db_ok (db_tick (snd s)) = true ->
  let w3 := exec (join ws' code cid' (meeting_id_of m)) (snd s) in
  db w1 = update_participant (p_id p) (with_display_name name) (db w) /\
  select_by_client cid (db w1) = [with_display_name name p] /\
  exists before plist pdata,
    outbox w3 = (before ++ [(ws', participants_update plist pdata)])%list /\
    In cid plist /\
    In (JObj [("clientId", JStr cid);
              ("displayName", name);
              ("audioEnabled", p_audio_enabled p);
              ("videoEnabled", p_video_enabled p);
              ("screenSharing", p_screen_sharing p)]) pdata.
Proof.
  intros Hname Hrows H1 H2 Hact Hwf Hreg Hbk Hbk' Hne w1 s Hs Hmid Hq w3.
  assert (Hcid : p_client_id p = cid).
  { assert (Hin : In p (select_by_client cid (db w))) by (rewrite Hrows; now left).
    unfold select_by_client in Hin. apply filter_In in Hin as [_ Hin].
    now apply String.eqb_eq. }
  assert (Hdb : db w1 = update_participant (p_id p) (with_display_name name) (db w)).
  { subst w1. unfold exec. rewrite (handle_join_message_db code cid fields name w Hname).
    unfold persist_display_name. run_step. rewrite H1. wsimpl. rewrite Hrows.
    run_step. wsimpl. rewrite H2. run_step. reflexivity. }
  assert (Hsel : select_by_client cid (db w1) = [with_display_name name p]).
  { rewrite Hdb, select_by_client_update, Hrows by apply benign_with_display_name.
    simpl. now rewrite Nat.eqb_refl. }
  split; [exact Hdb |]. split; [exact Hsel |].
  set (p' := with_display_name name p).
  set (mid := meeting_id_of m) in *.
  (* the relay after the join message: that of its broadcast *)
  assert (Hrel1 : relay_view w1 =
                  relay_view (exec (broadcast_to_meeting code (name_update_event cid name)
                                      (Some cid)) w)).
  { subst w1. unfold exec, handle_join_message. rewrite Hname.
    pose proof (persist_then_broadcast (persist_display_name cid name)
                  "Error updating participant name" code (name_update_event cid name)
                  (Some cid) w (persist_display_name_keeps_relay _ _)) as H.
    cbv zeta in H. now destruct H as (_ & H & _). }
  assert (Hb1 : broken w1 = broken w).
  { unfold relay_view in Hrel1. unfold exec in Hrel1.
    rewrite run_broadcast_to_meeting in Hrel1.
    destruct (dict_get code (active_connections w)); simpl in Hrel1; congruence. }
  assert (Hreg1 : dict_get cid (room_of code (active_connections w1)) = Some ws).
  { rewrite (relay_view_connections _ _ Hrel1). now apply broadcast_keeps_live. }
  assert (Hwf1 : dict_wf (room_of code (active_connections w1))).
  { rewrite (relay_view_connections _ _ Hrel1). now apply broadcast_keeps_wf. }
  (* the later joiner's first database session *)
  set (w2 := snd s) in *.
  assert (Hc2 : active_connections w2 = active_connections w1)
    by (subst w2 s; apply setup_session_keeps_connections).
  assert (Hb2 : broken w2 = broken w).
  { rewrite <- Hb1. subst w2 s. rewrite run_setup_session.
    assert (Hcp : broken (snd (run (create_participant ws' code cid' ip ua) w1)) = broken w1).
    { unfold create_participant. run_step.
      case_db; wsimpl; auto.
      destruct (select_meeting code (db w1)) as [| m0 [| m' l]]; run_step; wsimpl; auto.
      repeat (case_db; run_step; wsimpl; auto). }
    destruct (run (create_participant ws' code cid' ip ua) w1) as [[r | e] wc];
      simpl in *; auto. }
  assert (Hin2 : In p' (select_active mid (db w2))).
  { subst w2 s.
    apply (setup_session_preserves (fun d => In p' (select_active mid d))).
    - intros entry d Hd. exact Hd.
    - intros mid0 c0 ip0 ua0 host d Hd. unfold select_active in *. simpl.
      rewrite filter_app. apply in_or_app. now left.
    - rewrite Hdb. unfold select_active. apply filter_In. split.
      + simpl. apply in_map_iff. exists p. rewrite Nat.eqb_refl. split; auto.
        assert (Hin : In p (select_by_client cid (db w))) by (rewrite Hrows; now left).
        unfold select_by_client in Hin. now apply filter_In in Hin as [Hin _].
      + subst p'. simpl. rewrite Hact, andb_true_r. subst mid. rewrite Hmid.
        apply Nat.eqb_refl. }
  assert (Hbk2 : is_broken w2 ws' = false)
    by (unfold is_broken in *; now rewrite Hb2).
  (* the join *)
  destruct (run_join ws' code cid' mid w2 Hbk2)
    as (nm & joined & w4 & Hrun & Hout & _ & Hb4 & Hdb4 & Hs4).
  assert (Hbk4 : is_broken w4 ws' = false)
    by (unfold is_broken in *; now rewrite Hb4).
  destruct (run_send_participants_update ws' code mid w4 Hbk4) as (_ & Hout3 & Hc3).
  destruct (join_connections ws' code cid' mid w2 Hbk2) as (nm' & Hconn).
  assert (Hreg3 : dict_get cid (room_of code (active_connections w3)) = Some ws).
  { subst w3. unfold exec. rewrite Hconn. apply broadcast_keeps_live.
    - rewrite registered_room, Hc2. now apply dict_wf_set.
    - rewrite registered_room, Hc2, dict_get_set_other by assumption. exact Hreg1.
    - change (is_broken (registered ws' code cid' w2) ws) with (is_broken w2 ws).
      unfold is_broken in *. now rewrite Hb2. }
  assert (Hplist : In cid (dict_keys (room_of code (active_connections w3)))).
  { apply dict_get_In in Hreg3. unfold dict_keys.
    apply in_map_iff. now exists (cid, ws). }
  exists (outbox w4).
  exists (dict_keys (room_of code (active_connections w3))).
  exists (participants_data_of (dict_keys (room_of code (active_connections w3)))
            (select_active mid (db w2))).
  split; [| split; [exact Hplist |]].
  - subst w3. unfold exec. rewrite Hrun, Hout3, Hc3, Hdb4.
    replace (db_ok w4) with (db_ok (db_tick w2)) by (unfold db_ok; now rewrite Hs4).
    now rewrite Hq.
  - unfold participants_data_of.
    change (JObj _) with (JObj [("clientId", JStr cid); ("displayName", p_display_name p');
                                ("audioEnabled", p_audio_enabled p');
                                ("videoEnabled", p_video_enabled p');
                                ("screenSharing", p_screen_sharing p')]).
    rewrite <- Hcid. change (p_client_id p) with (p_client_id p').
    apply (in_map participant_entry). apply filter_In. split; [exact Hin2 |].
    unfold in_list. apply existsb_exists. exists cid. split; [exact Hplist |].
    subst p'. simpl. rewrite Hcid. apply String.eqb_refl.
Qed.

Lemma display_name_round_trip_witness :
  let w1 := exec (handle_join_message "abc1234567" "A" demo_message) demo_world_live in
  let w2 := exec (setup_session 4 "abc1234567" "D" None "ua") w1 in
  let w3 := exec (join 4 "abc1234567" "D" 0) w2 in
  exists before plist pdata,
    outbox w3 = (before ++ [(4, participants_update plist pdata)])%list /\
    In "A" plist /\
    In (JObj [("clientId", JStr "A");
              ("displayName", JStr "Ann");
              ("audioEnabled", JBool true);
              ("videoEnabled", JBool true);
              ("screenSharing", JBool false)]) pdata.
Proof.
  refine (proj2 (proj2 (display_name_round_trip demo_world_live "abc1234567" "A"
                          demo_message (JStr "Ann") (new_participant 0 "A" None "ua" true 10)
                          1 4 "D" None "ua" (mkMeeting 0 "abc1234567")
                          eq_refl eq_refl eq_refl eq_refl eq_refl _ eq_refl eq_refl eq_refl
                          _ eq_refl eq_refl eq_refl))).
  - repeat constructor; simpl; intuition discriminate.
  - discriminate.
Defined.
